(** * Personalization service and plan parser: a shallow embedding

    The development follows the TypeScript sources of the repository:

    - [JsString]: the string primitives the code relies on
      (indexOf, includes, substring, trim, the few regular expressions);
    - [PlanParser]: [isStructuredPlan], [parseStructuredPlan] and the
      section / subsection extractors of the plan parser;
    - [Store]: the relational tables, one record per row, and the
      arithmetic of float8;
    - [Service]: [PersonalizationService], written in a small state and
      error monad over the store, the clocks of the service and of the
      store, and the outcome of each awaited call;
    - [Routes], [Chats], [ChatRoutes], [Connection]: the request handlers
      the service is driven by, the rest of the chat lifecycle and the
      connection to the store;
    - the notions the statements are written with, and then the facts:
      the string primitives, the plan parser, the calls of the service,
      the similarity search, the personalized context, chat sessions,
      tool executions, chat messages, persistent memory and chat titles.

    A JavaScript string is a sequence of UTF-16 code units; it is modelled
    as [list N], one number per code unit, so that lengths and indices are
    the ones the JavaScript code computes. *)

From Stdlib Require Import Ascii String DecimalString.
From Stdlib Require Import List Bool Arith NArith ZArith QArith Qround Qpower.
From Stdlib Require Import Lia Lqa Sorted.
Import ListNotations.

Set Implicit Arguments.

Close Scope Q_scope.
Open Scope nat_scope.
Open Scope list_scope.

(* ===================================================================== *)
(** * JavaScript strings *)
(* ===================================================================== *)

Module JsString.

Definition char := N.
Definition jsstring := list char.

(** A literal of the source, code unit by code unit. *)
Definition u (s : string) : jsstring :=
  map N_of_ascii (list_ascii_of_string s).
Arguments u s%_string.

Definition nl : char := 10%N.

Definition char_eqb (a b : char) : bool := N.eqb a b.

Fixpoint eqb (a b : jsstring) : bool :=
  match a, b with
  | [], [] => true
  | x :: a', y :: b' => char_eqb x y && eqb a' b'
  | _, _ => false
  end.

(** [s.startsWith(p)]. *)
Fixpoint startsWith (p s : jsstring) : bool :=
  match p, s with
  | [], _ => true
  | _ :: _, [] => false
  | x :: p', y :: s' => char_eqb x y && startsWith p' s'
  end.

(** [s.indexOf(needle)]; [None] stands for the -1 of JavaScript. *)
Fixpoint indexOf (needle s : jsstring) : option nat :=
  if startsWith needle s then Some 0
  else match s with
       | [] => None
       | _ :: s' => option_map S (indexOf needle s')
       end.

(** [s.includes(needle)]. *)
Definition includes (needle s : jsstring) : bool :=
  match indexOf needle s with Some _ => true | None => false end.

(** [s.substring(a)]: an index past the end is clamped to the length. *)
Definition substringFrom (s : jsstring) (a : nat) : jsstring := skipn a s.

(** [s.substring(a, b)]: both indices are clamped to the length and
    swapped when [a > b]. *)
Definition substring (s : jsstring) (a b : nat) : jsstring :=
  let a' := Nat.min a (length s) in
  let b' := Nat.min b (length s) in
  let from := Nat.min a' b' in
  let to := Nat.max a' b' in
  firstn (to - from) (skipn from s).

(** LineTerminator of ECMAScript: LF, CR, LS, PS. *)
Definition isLineTerminator (c : char) : bool :=
  (N.eqb c 10 || N.eqb c 13 || N.eqb c 8232 || N.eqb c 8233)%N.

(** WhiteSpace and LineTerminator of ECMAScript: what [trim] strips and
    what the class [\s] matches. *)
Definition isWhiteSpace (c : char) : bool :=
  (N.eqb c 9 || N.eqb c 11 || N.eqb c 12 || N.eqb c 32 || N.eqb c 160
   || N.eqb c 5760 || (N.leb 8192 c && N.leb c 8202)
   || N.eqb c 8239 || N.eqb c 8287 || N.eqb c 12288 || N.eqb c 65279
   || isLineTerminator c)%N.

Fixpoint trimStart (s : jsstring) : jsstring :=
  match s with
  | [] => []
  | c :: s' => if isWhiteSpace c then trimStart s' else s
  end.

Definition trimEnd (s : jsstring) : jsstring :=
  rev (trimStart (rev s)).

(** [s.trim()]. *)
Definition trim (s : jsstring) : jsstring := trimEnd (trimStart s).

(** The longest prefix without a line terminator: what a greedy [.*]
    consumes. *)
Fixpoint takeDot (s : jsstring) : jsstring :=
  match s with
  | [] => []
  | c :: s' => if isLineTerminator c then [] else c :: takeDot s'
  end.

(** The leading white space of [s]: what a greedy [\s*] consumes first. *)
Fixpoint takeSpace (s : jsstring) : jsstring :=
  match s with
  | [] => []
  | c :: s' => if isWhiteSpace c then c :: takeSpace s' else []
  end.

(** Canonicalisation of a code unit under the [i] flag, restricted to what
    can equal an ASCII pattern character: ASCII letters are upper-cased,
    and a code unit of 128 or more never canonicalises below 128. *)
Definition canonicalize (c : char) : char :=
  if (N.leb 97 c && N.leb c 122)%N then (c - 32)%N else c.

Fixpoint startsWithCI (p s : jsstring) : bool :=
  match p, s with
  | [], _ => true
  | _ :: _, [] => false
  | x :: p', y :: s' =>
      char_eqb (canonicalize x) (canonicalize y) && startsWithCI p' s'
  end.

(** Leftmost match of a pattern given by its matcher at one position:
    the search of [String.prototype.match] without the [g] flag. *)
Fixpoint regexSearch (A : Type) (matchHere : jsstring -> option A)
         (s : jsstring) : option (nat * A) :=
  match matchHere s with
  | Some a => Some (0, a)
  | None =>
      match s with
      | [] => None
      | _ :: s' =>
          match regexSearch matchHere s' with
          | Some (i, a) => Some (S i, a)
          | None => None
          end
      end
  end.

(** The lines of a text under the [m] flag: every line terminator ends
    a line. *)
Fixpoint splitLines (s : jsstring) : list jsstring :=
  match s with
  | [] => [[]]
  | c :: s' =>
      if isLineTerminator c then [] :: splitLines s'
      else match splitLines s' with
           | l :: ls => (c :: l) :: ls
           | [] => [[c]]
           end
  end.

(** [parts.join(sep)]. *)
Fixpoint join (sep : jsstring) (parts : list jsstring) : jsstring :=
  match parts with
  | [] => []
  | [p] => p
  | p :: ps => p ++ sep ++ join sep ps
  end.

(** Truthiness of a string: only the empty string is falsy. *)
Definition truthy (s : jsstring) : bool :=
  match s with [] => false | _ :: _ => true end.

End JsString.

Import JsString.

(* ===================================================================== *)
(** * The plan parser (appBuildingTools.ts, second unit) *)
(* ===================================================================== *)

Module PlanParser.

Record Overview := {
  vision : option jsstring;
  targetUsers : option jsstring;
  coreValueProposition : option jsstring
}.

Record Requirements := {
  functional : option (list jsstring);
  nonFunctional : option (list jsstring);
  userExperience : option (list jsstring)
}.

Record Architecture := {
  frontend : option jsstring;
  backend : option jsstring;
  infrastructure : option jsstring
}.

Record Roadmap := {
  phase1 : option jsstring;
  phase2 : option jsstring;
  phase3 : option jsstring
}.

Record StructuredPlan := {
  title : jsstring;
  overview : Overview;
  requirements : Requirements;
  architecture : Architecture;
  roadmap : Roadmap;
  structure : jsstring;
  considerations : jsstring;
  nextSteps : jsstring;
  rawContent : jsstring
}.

(** The marker literal of the source: two hashes, a blank, the four code
    units U+00F0 U+0178 U+201C U+2039 of the source text, and the words. *)
Definition marker : jsstring :=
  u "## " ++ [240; 376; 8220; 8249]%N ++ u " STRUCTURED PROJECT PLAN".

Definition isStructuredPlan (content : jsstring) : bool :=
  includes marker content.

(** The pattern [/\n## /]. *)
Definition sectionBreak : jsstring := nl :: u "## ".

(** The pattern [/\n### /]. *)
Definition subsectionBreak : jsstring := nl :: u "### ".

(** [content.substring(from).match(pattern)] for a pattern that is a plain
    string, followed by the choice of the end index. *)
Definition endIndex (content : jsstring) (from : nat) (pattern : jsstring)
  : nat :=
  match indexOf pattern (substringFrom content from) with
  | Some index => from + index
  | None => length content
  end.

Definition extractSection (content sectionHeader : jsstring) : jsstring :=
  match indexOf sectionHeader content with
  | None => []
  | Some sectionStart =>
      let sectionEnd :=
        endIndex content (sectionStart + length sectionHeader) sectionBreak in
      trim (substring content (sectionStart + length sectionHeader) sectionEnd)
  end.

(** [\s*(.+)] with backtracking: the white-space run gives back one code
    unit at a time until a code unit that is not a line terminator
    follows. [k] is the number of code units the run keeps. *)
Fixpoint spaceThenDot (k : nat) (r : jsstring) : option jsstring :=
  match takeDot (skipn k r) with
  | (_ :: _) as g => Some g
  | [] => match k with
          | 0 => None
          | S k' => spaceThenDot k' r
          end
  end.

(** The pattern [- \*\*key\*\*:?\s*(.+)] with the [i] flag, at one
    position; [key] holds no pattern metacharacter in any call of the
    source. The optional colon is tried first, then left out. *)
Definition bulletPointHere (key s : jsstring) : option jsstring :=
  let lead := u "- **" ++ key ++ u "**" in
  if startsWithCI lead s then
    let r := skipn (length lead) s in
    let without := spaceThenDot (length (takeSpace r)) r in
    match r with
    | c :: r' =>
        if char_eqb c 58%N then
          match spaceThenDot (length (takeSpace r')) r' with
          | Some g => Some g
          | None => without
          end
        else without
    | [] => without
    end
  else None.

Definition extractBulletPoint (content key : jsstring) : option jsstring :=
  match regexSearch (bulletPointHere key) content with
  | Some (_, g) => Some (trim g)
  | None => None
  end.

(** The matches of [/^- (.+)$/gm]: the lines that start with a dash and a
    blank and go on for at least one more code unit. *)
Definition listItemLines (s : jsstring) : list jsstring :=
  filter (fun l => startsWith (u "- ") l && Nat.ltb 2 (length l))
         (splitLines s).

Definition extractSubsectionItems (content subsection : jsstring)
  : option (list jsstring) :=
  match indexOf (u "### " ++ subsection) content with
  | None => None
  | Some subsectionStart =>
      let subsectionEnd :=
        endIndex content (subsectionStart + length subsection)
                 subsectionBreak in
      let subsectionContent :=
        substring content (subsectionStart + length subsection)
                  subsectionEnd in
      match listItemLines subsectionContent with
      | [] => None
      | items => Some (map (fun item => trim (substringFrom item 2)) items)
      end
  end.

Definition extractSubsectionText (content subsection : jsstring)
  : option jsstring :=
  match indexOf (u "### " ++ subsection) content with
  | None => None
  | Some subsectionStart =>
      let subsectionEnd :=
        endIndex content (subsectionStart + length subsection)
                 subsectionBreak in
      let subsectionContent :=
        trim (substring content (subsectionStart + length subsection)
                        subsectionEnd) in
      if truthy subsectionContent then Some subsectionContent else None
  end.

Definition parseOverviewSection (content : jsstring) : Overview :=
  {| vision := extractBulletPoint content (u "Vision");
     targetUsers := extractBulletPoint content (u "Target Users");
     coreValueProposition :=
       extractBulletPoint content (u "Core Value Proposition") |}.

Definition parseRequirementsSection (content : jsstring) : Requirements :=
  {| functional := extractSubsectionItems content (u "Functional Requirements");
     nonFunctional :=
       extractSubsectionItems content (u "Non-Functional Requirements");
     userExperience :=
       extractSubsectionItems content (u "User Experience Requirements") |}.

Definition parseArchitectureSection (content : jsstring) : Architecture :=
  {| frontend := extractSubsectionText content (u "Frontend");
     backend := extractSubsectionText content (u "Backend");
     infrastructure := extractSubsectionText content (u "Infrastructure") |}.

Definition parseRoadmapSection (content : jsstring) : Roadmap :=
  {| phase1 := extractSubsectionText content (u "Phase 1");
     phase2 := extractSubsectionText content (u "Phase 2");
     phase3 := extractSubsectionText content (u "Phase 3") |}.

(** The pattern [/# Project Plan: (.+)/] at one position. *)
Definition titlePrefix : jsstring := u "# Project Plan: ".

Definition titleHere (s : jsstring) : option jsstring :=
  if startsWith titlePrefix s then
    match takeDot (skipn (length titlePrefix) s) with
    | (_ :: _) as g => Some g
    | [] => None
    end
  else None.

(** [parseStructuredPlan]. [None] is the [null] of the source. No
    operation of the [try] block can throw on a string, so its [catch]
    branch has no counterpart here. *)
Definition parseStructuredPlan (content : jsstring) : option StructuredPlan :=
  if negb (isStructuredPlan content) then None
  else
    let planStart :=
      match indexOf marker content with Some i => i | None => 0 end in
    let planContent := substringFrom content planStart in
    let titleMatch := regexSearch titleHere planContent in
    let title :=
      match titleMatch with
      | Some (_, g) => trim g
      | None => u "Untitled Project"
      end in
    Some {| title := title;
            overview :=
              parseOverviewSection
                (extractSection planContent (u "## Project Overview"));
            requirements :=
              parseRequirementsSection
                (extractSection planContent (u "## Requirements"));
            architecture :=
              parseArchitectureSection
                (extractSection planContent (u "## Architecture & Tech Stack"));
            roadmap :=
              parseRoadmapSection
                (extractSection planContent (u "## Implementation Roadmap"));
            structure := extractSection planContent (u "## Project Structure");
            considerations :=
              extractSection planContent (u "## Considerations & Risks");
            nextSteps := extractSection planContent (u "## Next Steps");
            rawContent := planContent |}.

End PlanParser.

(* ===================================================================== *)
(** * The relational store (schema.ts) *)
(* ===================================================================== *)

Module Store.

(** A point in time, in milliseconds; [None] in a column is SQL NULL. *)
Definition Time := N.

(** An embedding vector, [number[]] in the source. *)
Definition Vec := list Q.

(** A JSON value ([any] in the source, [jsonb] in the schema), held by its
    serialisation: the text [JSON.stringify] returns for it. *)
Definition Json := jsstring.

(** A JavaScript number as the store returns it: a double, read as the
    rational it denotes, or NaN. Doubles are compared exactly, so the
    order on the rationals is the order of the code; no double lies
    strictly between the double nearest to 0.7 and 7/10, so that
    [x > 0.7] on doubles is [7/10 < x] on the rationals they denote. *)
Inductive JsNumber :=
| NaN
| Num (q : Q).

(** The [metadata] argument of [storeMemory]. *)
Inductive Metadata :=
| MetaUndefined
| MetaToolExecution (toolName : jsstring) (success : bool)
| MetaJson (j : Json).

Record User := {
  user_id : jsstring;
  user_email : option jsstring;
  user_name : option jsstring;
  user_isGoogleUser : bool;
  user_createdAt : option Time;
  user_updatedAt : option Time
}.

Record MemoryEmbedding := {
  mem_id : N;
  mem_userId : jsstring;
  mem_appId : option jsstring;
  mem_content : jsstring;
  mem_embedding : option Vec;
  mem_metadata : Metadata;
  mem_timestamp : option Time
}.

Record ToolExecution := {
  exec_id : N;
  exec_userId : jsstring;
  exec_appId : option jsstring;
  exec_toolName : jsstring;
  exec_args : Json;
  exec_result : Json;
  exec_success : jsstring;
  exec_timestamp : option Time
}.

Record UserPersistentMemory := {
  pm_id : N;
  pm_userId : jsstring;
  pm_content : jsstring;
  pm_createdAt : option Time;
  pm_updatedAt : option Time
}.

Record ChatSession := {
  session_id : jsstring;
  session_userId : jsstring;
  session_title : option jsstring;
  session_createdAt : option Time;
  session_updatedAt : option Time;
  session_lastMessageAt : option Time
}.

Record ChatMessage := {
  msg_id : N;
  msg_chatSessionId : jsstring;
  msg_userId : jsstring;
  msg_role : jsstring;
  msg_content : jsstring;
  msg_messageIndex : jsstring;
  msg_timestamp : option Time;
  msg_metadata : Metadata
}.

(** The tables, each in insertion order. *)
Record Db := {
  users : list User;
  memoryEmbeddings : list MemoryEmbedding;
  toolExecutions : list ToolExecution;
  userPersistentMemory : list UserPersistentMemory;
  chatSessions : list ChatSession;
  chatMessages : list ChatMessage
}.

Definition emptyDb : Db :=
  {| users := []; memoryEmbeddings := []; toolExecutions := [];
     userPersistentMemory := []; chatSessions := []; chatMessages := [] |}.

Definition set_users (f : list User -> list User) (d : Db) : Db :=
  {| users := f (users d); memoryEmbeddings := memoryEmbeddings d;
     toolExecutions := toolExecutions d;
     userPersistentMemory := userPersistentMemory d;
     chatSessions := chatSessions d; chatMessages := chatMessages d |}.

Definition set_memoryEmbeddings
  (f : list MemoryEmbedding -> list MemoryEmbedding) (d : Db) : Db :=
  {| users := users d; memoryEmbeddings := f (memoryEmbeddings d);
     toolExecutions := toolExecutions d;
     userPersistentMemory := userPersistentMemory d;
     chatSessions := chatSessions d; chatMessages := chatMessages d |}.


Definition set_userPersistentMemory
  (f : list UserPersistentMemory -> list UserPersistentMemory) (d : Db) : Db :=
  {| users := users d; memoryEmbeddings := memoryEmbeddings d;
     toolExecutions := toolExecutions d;
     userPersistentMemory := f (userPersistentMemory d);
     chatSessions := chatSessions d; chatMessages := chatMessages d |}.

Definition set_chatSessions
  (f : list ChatSession -> list ChatSession) (d : Db) : Db :=
  {| users := users d; memoryEmbeddings := memoryEmbeddings d;
     toolExecutions := toolExecutions d;
     userPersistentMemory := userPersistentMemory d;
     chatSessions := f (chatSessions d); chatMessages := chatMessages d |}.

Definition set_chatMessages
  (f : list ChatMessage -> list ChatMessage) (d : Db) : Db :=
  {| users := users d; memoryEmbeddings := memoryEmbeddings d;
     toolExecutions := toolExecutions d;
     userPersistentMemory := userPersistentMemory d;
     chatSessions := chatSessions d; chatMessages := f (chatMessages d) |}.

(** ** The fragment of SQL the service issues *)

Section Sql.
Variable Row : Type.

(** [UPDATE ... SET ... WHERE p]. *)
Definition updateWhere (p : Row -> bool) (f : Row -> Row) (rows : list Row)
  : list Row :=
  map (fun r => if p r then f r else r) rows.

(** [DELETE ... WHERE p]. *)
Definition deleteWhere (p : Row -> bool) (rows : list Row) : list Row :=
  filter (fun r => negb (p r)) rows.

(** [ORDER BY] as a stable insertion sort: rows with equal keys keep
    their table order. *)
Fixpoint insertSorted (leb : Row -> Row -> bool) (x : Row) (l : list Row)
  : list Row :=
  match l with
  | [] => [x]
  | y :: l' => if leb x y then x :: l else y :: insertSorted leb x l'
  end.

Fixpoint orderBy (leb : Row -> Row -> bool) (l : list Row) : list Row :=
  match l with
  | [] => []
  | x :: l' => insertSorted leb x (orderBy leb l')
  end.
End Sql.

(** Ascending order on a nullable timestamp: NULL sorts last. *)
Definition time_leb (a b : option Time) : bool :=
  match a, b with
  | Some x, Some y => N.leb x y
  | Some _, None => true
  | None, Some _ => false
  | None, None => true
  end.

(** [a > b] on the rationals. *)
Definition Qgtb (a b : Q) : bool := negb (Qle_bool a b).

(** Ascending order on a nullable double: NaN sorts above every number,
    NULL sorts last. *)
Definition distance_leb (a b : option JsNumber) : bool :=
  match a, b with
  | Some (Num x), Some (Num y) => Qle_bool x y
  | Some (Num _), _ => true
  | Some NaN, Some (Num _) => false
  | Some NaN, _ => true
  | None, None => true
  | None, Some _ => false
  end.

(** ** The arithmetic of float8

    A subtraction of float8 gives the exact difference rounded to the
    nearest double, to the one with an even significand on a tie. *)

(** [2^e] for an integer [e]. *)
Definition pow2 (e : Z) : Q := ((2 # 1) ^ e)%Q.

(** The integer nearest to [x], the even one of the two on a tie. *)
Definition roundHalfEven (x : Q) : Z :=
  let f := Qfloor x in
  match Qcompare (x - inject_Z f)%Q (1 # 2)%Q with
  | Lt => f
  | Gt => (f + 1)%Z
  | Eq => if Z.even f then f else (f + 1)%Z
  end.

(** The binary exponent of [x > 0]: the [e] with [2^e <= x < 2^(e+1)]. *)
Definition exponent (x : Q) : Z :=
  let e := (Z.log2 (Qnum x) - Z.log2 (Zpos (Qden x)))%Z in
  if Qle_bool (pow2 e) x then e else (e - 1)%Z.

(** [x > 0] rounded to a double: 53 significant bits, exponents from
    -1022 on (below, the doubles are evenly spaced). The range of the
    exponent has no upper end here: the difference of 1 and a double is
    never beyond the largest double. *)
Definition nearestDouble (x : Q) : Q :=
  let ulp := pow2 (Z.max (exponent x) (-1022) - 52) in
  (inject_Z (roundHalfEven (x / ulp)) * ulp)%Q.

(** The rounding of float8 arithmetic. *)
Definition float8 (x : Q) : Q :=
  match Qnum x with
  | Z0 => 0%Q
  | Zpos _ => nearestDouble x
  | Zneg _ => (- nearestDouble (- x))%Q
  end.

(** [1 - d] in SQL, on a float8. *)
Definition oneMinus (d : option JsNumber) : option JsNumber :=
  match d with
  | Some (Num q) => Some (Num (float8 (1 - q)%Q))
  | Some NaN => Some NaN
  | None => None
  end.

End Store.

Import Store.

(* ===================================================================== *)
(** * PersonalizationService (personalizationService.ts) *)
(* ===================================================================== *)

Module Service.

(** ** The world the service runs in

    Every awaited call (a statement sent to the store, a request to the
    embedding API) consumes one event of the script: the time the call
    takes to arrive ([outbound]) and to answer ([inbound]), whether it
    throws, and, for an embedding request, the vector that comes back.
    A violated constraint of the schema (a foreign key, a unique column,
    a malformed uuid) is a statement that throws. An exhausted script
    stands for calls that take no time and succeed. The service and the
    store each read a clock of their own: [now] is what [new Date()]
    reads in the service, and [storeClock] gives what the clock of the
    store reads at that moment, which is what a column with
    [defaultNow()] receives. Each statement is sent on its own and commits
    on its own: [history] keeps the state of the store after every
    statement, which is what another request can read. The vector
    indexes of the store are approximate (hnsw): a scan for the
    neighbours of a vector reaches some of the rows of the table, given
    by [reached], and the conditions of the query are applied to the rows
    it reaches. *)

Record Event := {
  outbound : N;
  inbound : N;
  fails : bool;
  vector : Vec
}.

Definition quiet : Event :=
  {| outbound := 0; inbound := 0; fails := false; vector := [] |}.

Record World := {
  connected : bool;                         (* this.db !== null *)
  apiKey : bool;                            (* this.openai !== null *)
  cosineDistance : Vec -> Vec -> JsNumber;  (* the operator <=> of the store *)
  db : Db;
  now : Time;                               (* the clock of the service *)
  script : list Event;
  nextId : N;                               (* source of generated row ids *)
  history : list Db;                        (* the state after each statement *)
  storeClock : Time -> Time;                (* the clock of the store *)
  reached : Vec -> list MemoryEmbedding -> MemoryEmbedding -> bool;
                                            (* the scan of the vector index *)
  requests : list jsstring                  (* the texts sent to be embedded *)
}.

Inductive Result (A : Type) :=
| Ok (a : A)
| Throw.
Arguments Throw {A}.

Definition M (A : Type) := World -> Result A * World.

Definition ret (A : Type) (a : A) : M A := fun w => (Ok a, w).

Definition bind (A B : Type) (m : M A) (k : A -> M B) : M B :=
  fun w =>
    match m w with
    | (Ok a, w') => k a w'
    | (Throw, w') => (Throw, w')
    end.

Notation "x <- m ;; k" := (bind m (fun x => k))
  (at level 61, m at next level, right associativity).

(** [throw]. *)
Definition raise (A : Type) : M A := fun w => (Throw, w).
Arguments raise {A}.

(** [try { m } catch { h }]. *)
Definition tryCatch (A : Type) (m : M A) (h : M A) : M A :=
  fun w =>
    match m w with
    | (Ok a, w') => (Ok a, w')
    | (Throw, w') => h w'
    end.

(** [if (!this.db) return dflt;]. *)
Definition ifDb (A : Type) (dflt : A) (m : M A) : M A :=
  fun w => if connected w then m w else (Ok dflt, w).

Definition nextEvent (w : World) : Event :=
  match script w with
  | [] => quiet
  | e :: _ => e
  end.

(** The call is on its way: its event is consumed and its time passes. *)
Definition consume (w : World) : World :=
  {| connected := connected w; apiKey := apiKey w;
     cosineDistance := cosineDistance w; db := db w;
     now := (now w + outbound (nextEvent w))%N;
     script := tl (script w); nextId := nextId w; history := history w;
     storeClock := storeClock w; reached := reached w;
     requests := requests w |}.

(** The answer of the call is back. *)
Definition arrive (e : Event) (w : World) : World :=
  {| connected := connected w; apiKey := apiKey w;
     cosineDistance := cosineDistance w; db := db w;
     now := (now w + inbound e)%N;
     script := script w; nextId := nextId w; history := history w;
     storeClock := storeClock w; reached := reached w;
     requests := requests w |}.

(** The statement takes effect; every statement commits on its own. *)
Definition commit (d : Db) (w : World) : World :=
  {| connected := connected w; apiKey := apiKey w;
     cosineDistance := cosineDistance w; db := d; now := now w;
     script := script w; nextId := (nextId w + 1)%N;
     history := history w ++ [d];
     storeClock := storeClock w; reached := reached w;
     requests := requests w |}.

(** One awaited statement. [run] receives what the clock of the store
    reads when the statement executes, and a fresh row id. *)
Definition statement (A : Type) (run : Time -> N -> Db -> A * Db) : M A :=
  fun w =>
    let e := nextEvent w in
    let w' := consume w in
    if fails e then (Throw, arrive e w')
    else
      let (a, d) := run (storeClock w' (now w')) (nextId w') (db w') in
      (Ok a, arrive e (commit d w')).

(** The scan of the vector index the store answers the query with. *)
Definition indexScan
  : M (Vec -> list MemoryEmbedding -> MemoryEmbedding -> bool) :=
  fun w => (Ok (reached w), w).

(** The distance operator the store evaluates the query with. *)
Definition distanceOperator : M (Vec -> Vec -> JsNumber) :=
  fun w => (Ok (cosineDistance w), w).

(** [new Date()], read from the clock of the service. *)
Definition newDate : M Time := fun w => (Ok (now w), w).

(** The request for an embedding leaves for the API with its text. *)
Definition request (text : jsstring) (w : World) : World :=
  {| connected := connected w; apiKey := apiKey w;
     cosineDistance := cosineDistance w; db := db w; now := now w;
     script := script w; nextId := nextId w; history := history w;
     storeClock := storeClock w; reached := reached w;
     requests := requests w ++ [text] |}.

(** [EmbeddingService.createEmbedding]: throws without an API key, and
    rethrows what the remote call throws. *)
Definition createEmbedding (text : jsstring) : M Vec :=
  fun w =>
    if apiKey w then
      let e := nextEvent w in
      if fails e then (Throw, request text (arrive e (consume w)))
      else (Ok (vector e), request text (arrive e (consume w)))
    else (Throw, w).

(** Truthiness of an optional string: [undefined], [null] and the empty
    string are falsy. *)
Definition truthyOpt (s : option jsstring) : bool :=
  match s with Some x => truthy x | None => false end.

(** [s || null]. *)
Definition orNull (s : option jsstring) : option jsstring :=
  if truthyOpt s then s else None.

Definition ensureUser (userId : jsstring) (email name : option jsstring)
  : M (option User) :=
  ifDb None
    (tryCatch
       (existingUser <-
          statement (fun _ _ d =>
            (firstn 1 (filter (fun r => eqb (user_id r) userId) (users d)), d)) ;;
        match existingUser with
        | existing :: _ =>
            if truthyOpt email || truthyOpt name then
              date <- newDate ;;
              updated <-
                statement (fun _ _ d =>
                  let p := fun r => eqb (user_id r) userId in
                  let f := fun r =>
                    {| user_id := user_id r;
                       user_email :=
                         if truthyOpt email then email else user_email r;
                       user_name :=
                         if truthyOpt name then name else user_name r;
                       user_isGoogleUser := user_isGoogleUser r;
                       user_createdAt := user_createdAt r;
                       user_updatedAt := Some date |} in
                  (map f (filter p (users d)),
                   set_users (updateWhere p f) d)) ;;
              ret (hd_error updated)
            else ret (Some existing)
        | [] =>
            newUser <-
              statement (fun t _ d =>
                let r :=
                  {| user_id := userId; user_email := email;
                     user_name := name;
                     user_isGoogleUser := startsWith (u "google_") userId;
                     user_createdAt := Some t; user_updatedAt := Some t |} in
                ([r], set_users (fun l => l ++ [r]) d)) ;;
            ret (hd_error newUser)
        end)
       (ret None)).

Definition storeMemory (userId content : jsstring) (appId : option jsstring)
           (metadata : Metadata) : M unit :=
  ifDb tt
    (tryCatch
       (embedding <- createEmbedding content ;;
        statement (fun t id d =>
          (tt,
           set_memoryEmbeddings (fun l => l ++
             [{| mem_id := id; mem_userId := userId;
                 mem_appId := orNull appId; mem_content := content;
                 mem_embedding := Some embedding; mem_metadata := metadata;
                 mem_timestamp := Some t |}]) d)))
       (ret tt)).

Record MemorySearchResult := {
  content : jsstring;
  metadata : Metadata;
  similarity : Q;
  timestamp : Time
}.

(** A row of the similarity query as the driver returns it. *)
Record SimilarityRow := {
  row_content : jsstring;
  row_metadata : Metadata;
  row_timestamp : option Time;
  row_similarity : option JsNumber
}.

(** [eq(memoryEmbeddings.userId, userId)], and [eq(memoryEmbeddings.appId,
    appId)] as well when [appId] is truthy. An SQL comparison with NULL
    does not hold. *)
Definition whereClause (userId : jsstring) (appId : option jsstring)
           (r : MemoryEmbedding) : bool :=
  eqb (mem_userId r) userId
  && (if truthyOpt appId then
        match mem_appId r, appId with
        | Some a, Some b => eqb a b
        | _, _ => false
        end
      else true).

(** [embedding <=> queryVector]: NULL on a row without embedding. *)
Definition distanceTo (dist : Vec -> Vec -> JsNumber) (queryVector : Vec)
           (r : MemoryEmbedding) : option JsNumber :=
  match mem_embedding r with
  | Some e => Some (dist e queryVector)
  | None => None
  end.

(** The similarity query of [searchMemories]. The order by distance is
    answered from the vector index: of the rows the scan reaches, the
    ones that satisfy the conditions, nearest first, up to the limit. *)
Definition similarityQuery (dist : Vec -> Vec -> JsNumber)
           (scan : Vec -> list MemoryEmbedding -> MemoryEmbedding -> bool)
           (userId : jsstring) (appId : option jsstring) (queryVector : Vec)
           (limit : nat) (d : Db) : list SimilarityRow :=
  map (fun r =>
         {| row_content := mem_content r; row_metadata := mem_metadata r;
            row_timestamp := mem_timestamp r;
            row_similarity := oneMinus (distanceTo dist queryVector r) |})
      (firstn limit
         (orderBy (fun a b => distance_leb (distanceTo dist queryVector a)
                                           (distanceTo dist queryVector b))
                  (filter (whereClause userId appId)
                     (filter (scan queryVector (memoryEmbeddings d))
                             (memoryEmbeddings d))))).

(** [x || 0] on a nullable number: NULL, NaN and zero are falsy. *)
Definition orZero (x : option JsNumber) : Q :=
  match x with
  | Some (Num q) => q
  | _ => 0%Q
  end.

Definition searchMemories (userId query : jsstring) (appId : option jsstring)
           (limit : nat) : M (list MemorySearchResult) :=
  ifDb []
    (tryCatch
       (queryEmbedding <- createEmbedding query ;;
        dist <- distanceOperator ;;
        scan <- indexScan ;;
        results <-
          statement (fun _ _ d =>
            (similarityQuery dist scan userId appId queryEmbedding limit d,
             d)) ;;
        date <- newDate ;;
        ret (filter (fun m => Qgtb (similarity m) (7 # 10))
               (map (fun result =>
                       {| content := row_content result;
                          metadata := row_metadata result;
                          similarity := orZero (row_similarity result);
                          timestamp :=
                            match row_timestamp result with
                            | Some t => t
                            | None => date
                            end |})
                    results)))
       (ret [])).




Definition setPersistentMemory (userId content : jsstring) : M unit :=
  ifDb tt
    (tryCatch
       (_ <- statement (fun _ _ d =>
               (tt,
                set_userPersistentMemory
                  (deleteWhere (fun r => eqb (pm_userId r) userId)) d)) ;;
        statement (fun t id d =>
          (tt,
           set_userPersistentMemory (fun l => l ++
             [{| pm_id := id; pm_userId := userId; pm_content := content;
                 pm_createdAt := Some t; pm_updatedAt := Some t |}]) d)))
       (ret tt)).

Definition getPersistentMemory (userId : jsstring) : M (option jsstring) :=
  ifDb None
    (tryCatch
       (result <-
          statement (fun _ _ d =>
            (firstn 1 (filter (fun r => eqb (pm_userId r) userId)
                              (userPersistentMemory d)), d)) ;;
        ret (match result with
             | r :: _ => Some (pm_content r)
             | [] => None
             end))
       (ret None)).

(** [n.toString()] for a natural number. *)
Definition digits (n : N) : jsstring :=
  u (NilEmpty.string_of_uint (N.to_uint n)).

(** [x.toFixed(2)] for a magnitude below 10^21: the integer [n] nearest
    to [100 * |x|], the larger one on a tie, printed with two decimals,
    after a minus sign when [x < 0]. *)
Definition toFixed2 (x : Q) : jsstring :=
  let num := Z.abs_N (Qnum x) in
  let den := Npos (Qden x) in
  let n := ((200 * num + den) / (2 * den))%N in
  let frac := (n mod 100)%N in
  (if Z.ltb (Qnum x) 0 then u "-" else [])
    ++ digits (n / 100)%N ++ u "."
    ++ (if N.ltb frac 10 then u "0" else []) ++ digits frac.

Definition persistentHeading : jsstring := u "## Persistent User Context".

Definition recentHeading : jsstring :=
  u "## Recent Relevant Context" ++ [nl]
    ++ u "Based on previous interactions:" ++ [nl].

Definition contextPart (memory : MemorySearchResult) : jsstring :=
  u "- " ++ content memory ++ u " (similarity: "
    ++ toFixed2 (similarity memory) ++ u ")".

Definition getPersonalizedContext (userId query : jsstring)
           (appId : option jsstring) : M jsstring :=
  persistentMemory <- getPersistentMemory userId ;;
  let context :=
    if truthyOpt persistentMemory then
      match persistentMemory with
      | Some pm => persistentHeading ++ [nl] ++ pm ++ [nl; nl]
      | None => []
      end
    else [] in
  memories <- searchMemories userId query appId 3 ;;
  let context :=
    match memories with
    | [] => context
    | _ :: _ =>
        context ++ recentHeading
          ++ join [nl] (map contextPart memories) ++ [nl]
    end in
  ret (if truthy context then [nl] ++ context ++ [nl] else []).

(** ** Chat sessions *)

Definition sessionIs (chatSessionId userId : jsstring) (s : ChatSession)
  : bool :=
  eqb (session_id s) chatSessionId && eqb (session_userId s) userId.

Definition getChatSession (userId chatSessionId : jsstring)
  : M (option ChatSession) :=
  ifDb None
    (tryCatch
       (result <-
          statement (fun _ _ d =>
            (firstn 1 (filter (sessionIs chatSessionId userId)
                              (chatSessions d)), d)) ;;
        ret (hd_error result))
       (ret None)).

Definition updateChatSessionTitle (userId chatSessionId title : jsstring)
  : M bool :=
  ifDb false
    (tryCatch
       (date <- newDate ;;
        _ <- statement (fun _ _ d =>
               (tt,
                set_chatSessions
                  (updateWhere (sessionIs chatSessionId userId)
                     (fun s =>
                        {| session_id := session_id s;
                           session_userId := session_userId s;
                           session_title := Some title;
                           session_createdAt := session_createdAt s;
                           session_updatedAt := Some date;
                           session_lastMessageAt := session_lastMessageAt s |}))
                  d)) ;;
        ret true)
       (ret false)).

(** The rows of [chat_messages] go with their session (ON DELETE CASCADE). *)
Definition deleteSessions (p : ChatSession -> bool) (d : Db) : Db :=
  let gone := filter p (chatSessions d) in
  set_chatMessages
    (deleteWhere (fun m =>
       existsb (fun s => eqb (session_id s) (msg_chatSessionId m)) gone))
    (set_chatSessions (deleteWhere p) d).

Definition deleteChatSession (userId chatSessionId : jsstring) : M bool :=
  ifDb false
    (tryCatch
       (_ <- statement (fun _ _ d =>
               (tt, deleteSessions (sessionIs chatSessionId userId) d)) ;;
        ret true)
       (ret false)).

(** ** Chat messages *)

(** The two statements of [saveChatMessage]. *)
Definition insertChatMessage (userId chatSessionId role content
                              messageIndex : jsstring) (metadata : Metadata)
  : M (list ChatMessage) :=
  statement (fun t id d =>
    let message :=
      {| msg_id := id; msg_chatSessionId := chatSessionId;
         msg_userId := userId; msg_role := role; msg_content := content;
         msg_messageIndex := messageIndex; msg_timestamp := Some t;
         msg_metadata := metadata |} in
    ([message], set_chatMessages (fun l => l ++ [message]) d)).

Definition touchChatSession (chatSessionId : jsstring)
           (lastMessageAt updatedAt : Time) : M unit :=
  statement (fun _ _ d =>
    (tt,
     set_chatSessions
       (updateWhere (fun s => eqb (session_id s) chatSessionId)
          (fun s =>
             {| session_id := session_id s;
                session_userId := session_userId s;
                session_title := session_title s;
                session_createdAt := session_createdAt s;
                session_updatedAt := Some updatedAt;
                session_lastMessageAt := Some lastMessageAt |}))
       d)).

Definition saveChatMessage (userId chatSessionId role content
                            messageIndex : jsstring) (metadata : Metadata)
  : M (option ChatMessage) :=
  ifDb None
    (tryCatch
       (inserted <- insertChatMessage userId chatSessionId role content
                                      messageIndex metadata ;;
        lastMessageAt <- newDate ;;
        updatedAt <- newDate ;;
        _ <- touchChatSession chatSessionId lastMessageAt updatedAt ;;
        (* [message] is undefined when nothing was returned, and reading
           [message.id] for the log throws *)
        match inserted with
        | message :: _ => ret (Some message)
        | [] => raise
        end)
       (ret None)).

Definition messageIs (chatSessionId userId : jsstring) (m : ChatMessage)
  : bool :=
  eqb (msg_chatSessionId m) chatSessionId && eqb (msg_userId m) userId.

(** The earliest messages of a session, oldest first. *)
Definition earliestMessages (chatSessionId userId : jsstring) (limit : nat)
           (d : Db) : list ChatMessage :=
  firstn limit
    (orderBy (fun a b => time_leb (msg_timestamp a) (msg_timestamp b))
             (filter (messageIs chatSessionId userId) (chatMessages d))).

(** The title derived from the content of a message. *)
Definition deriveTitle (content : jsstring) : jsstring :=
  let title := substring (trim content) 0 50 in
  if Nat.ltb 50 (length content) then title ++ u "..." else title.

Definition generateChatTitle (userId chatSessionId : jsstring)
  : M (option jsstring) :=
  ifDb None
    (tryCatch
       (messages <-
          statement (fun _ _ d =>
            (earliestMessages chatSessionId userId 3 d, d)) ;;
        match messages with
        | [] => ret None
        | _ :: _ =>
            match find (fun m => eqb (msg_role m) (u "user")) messages with
            | None => ret None
            | Some firstUserMessage =>
                let title := deriveTitle (msg_content firstUserMessage) in
                _ <- updateChatSessionTitle userId chatSessionId title ;;
                ret (Some title)
            end
        end)
       (ret None)).

Definition isEnabled (w : World) : bool := connected w.

End Service.

Import Service.

(* ===================================================================== *)
(** * The request handlers *)
(* ===================================================================== *)

Module Routes.

(** ** api.memory.persistent.ts *)

(** The parsed body of a request. A field that is absent, or not a
    string, is [None]. *)
Record MemoryRequest := {
  userId : option jsstring;
  action : option jsstring;
  content : option jsstring;
  userInfo_email : option jsstring;
  userInfo_name : option jsstring
}.

Inductive MemoryResponse :=
| MemoryError (status : nat) (error : jsstring)
| MemoryContent (content : option jsstring)
| MemorySuccess.

(** A word between double quotes. *)
Definition quoted (s : jsstring) : jsstring := [34%N] ++ s ++ [34%N].

Definition actionIs (a : option jsstring) (name : jsstring) : bool :=
  match a with Some x => eqb x name | None => false end.

Definition persistentMemoryAction (req : MemoryRequest) : M MemoryResponse :=
  tryCatch
    (match userId req with
     | None => ret (MemoryError 400 (u "User ID is required"))
     | Some uid =>
         if negb (truthy uid) then
           ret (MemoryError 400 (u "User ID is required"))
         else
           ifDb (MemoryError 503 (u "Personalization service is not available"))
             (_ <- ensureUser uid (userInfo_email req) (userInfo_name req) ;;
              if actionIs (action req) (u "get") then
                persistentMemory <- getPersistentMemory uid ;;
                ret (MemoryContent persistentMemory)
              else if actionIs (action req) (u "set") then
                match content req with
                | None =>
                    ret (MemoryError 400
                           (u "Content is required for set action"))
                | Some c =>
                    _ <- setPersistentMemory uid c ;;
                    ret MemorySuccess
                end
              else if actionIs (action req) (u "append") then
                match content req with
                | None =>
                    ret (MemoryError 400
                           (u "Content is required for append action"))
                | Some c =>
                    existingMemory <- getPersistentMemory uid ;;
                    let updatedMemory :=
                      if truthyOpt existingMemory then
                        match existingMemory with
                        | Some e => e ++ [nl; nl] ++ c
                        | None => c
                        end
                      else c in
                    _ <- setPersistentMemory uid updatedMemory ;;
                    ret MemorySuccess
                end
              else
                ret (MemoryError 400
                       (u "Invalid action. Use " ++ quoted (u "get") ++ u ", "
                          ++ quoted (u "set") ++ u ", or "
                          ++ quoted (u "append"))))
     end)
    (ret (MemoryError 500 (u "Internal server error"))).

(** ** api.chats.$id.messages.ts, the POST handler *)

Record MessageRequest := {
  params_id : option jsstring;
  body_userId : option jsstring;
  body_role : option jsstring;
  body_content : option jsstring;
  body_messageIndex : option jsstring;
  body_metadata : Metadata
}.

Inductive MessageResponse :=
| MessageError (status : nat) (error : jsstring)
| MessageSaved (message : ChatMessage).

Definition messagesAction (req : MessageRequest) : M MessageResponse :=
  tryCatch
    (match params_id req with
     | None => ret (MessageError 400 (u "Chat ID required"))
     | Some chatSessionId =>
         if negb (truthy chatSessionId) then
           ret (MessageError 400 (u "Chat ID required"))
         else
           ifDb (MessageError 503 (u "Database not available"))
             (match body_userId req, body_role req, body_content req,
                    body_messageIndex req with
              | Some uid, Some role, Some content, Some messageIndex =>
                  if negb (truthy uid) then
                    ret (MessageError 401 (u "User not authenticated"))
                  else if negb (truthy role) || negb (truthy content)
                          || negb (truthy messageIndex) then
                    ret (MessageError 400 (u "Missing required fields"))
                  else
                    found <- getChatSession uid chatSessionId ;;
                    match found with
                    | None => ret (MessageError 404 (u "Chat not found"))
                    | Some chatSession =>
                        saved <- saveChatMessage uid chatSessionId role
                                   content messageIndex (body_metadata req) ;;
                        match saved with
                        | None =>
                            ret (MessageError 500 (u "Failed to save message"))
                        | Some message =>
                            _ <- (if eqb role (u "user")
                                     && negb (truthyOpt
                                                (session_title chatSession))
                                  then
                                    t <- generateChatTitle uid chatSessionId ;;
                                    ret tt
                                  else ret tt) ;;
                            ret (MessageSaved message)
                        end
                    end
              | None, _, _, _ =>
                  ret (MessageError 401 (u "User not authenticated"))
              | Some uid, _, _, _ =>
                  if negb (truthy uid) then
                    ret (MessageError 401 (u "User not authenticated"))
                  else ret (MessageError 400 (u "Missing required fields"))
              end)
     end)
    (ret (MessageError 500 (u "Failed to save message"))).

End Routes.

(* ===================================================================== *)
(** * The rest of the chat lifecycle (personalizationService.ts) *)
(* ===================================================================== *)

Module Chats.

(** The identifier the store generates for a new session
    ([gen_random_uuid()]): a text that stands for the n-th generated
    identifier, different for different n. *)
Definition generatedId (n : N) : jsstring := u "uuid-" ++ digits n.

Definition createChatSession (userId : jsstring) (title : option jsstring)
  : M (option ChatSession) :=
  ifDb None
    (tryCatch
       (inserted <-
          statement (fun t id d =>
            let chatSession :=
              {| session_id := generatedId id; session_userId := userId;
                 session_title := orNull title;
                 session_createdAt := Some t; session_updatedAt := Some t;
                 session_lastMessageAt := Some t |} in
            ([chatSession], set_chatSessions (fun l => l ++ [chatSession]) d)) ;;
        (* [chatSession] is undefined when nothing was returned, and
           reading [chatSession.id] for the log throws *)
        match inserted with
        | chatSession :: _ => ret (Some chatSession)
        | [] => raise
        end)
       (ret None)).

(** Descending order on [lastMessageAt]; NULL sorts first. *)
Definition lastMessage_geb (a b : ChatSession) : bool :=
  time_leb (session_lastMessageAt b) (session_lastMessageAt a).

(** The query of [getChatSessions]. *)
Definition recentSessions (userId : jsstring) (limit : nat) (d : Db)
  : list ChatSession :=
  firstn limit
    (orderBy lastMessage_geb
       (filter (fun s => eqb (session_userId s) userId) (chatSessions d))).

(** [limit] is 50 when the caller gives none. *)
Definition getChatSessions (userId : jsstring) (limit : nat)
  : M (list ChatSession) :=
  ifDb []
    (tryCatch
       (statement (fun _ _ d => (recentSessions userId limit d, d)))
       (ret [])).

(** The query of [getChatMessages]. *)
Definition sessionMessages (chatSessionId userId : jsstring) (d : Db)
  : list ChatMessage :=
  orderBy (fun a b => time_leb (msg_timestamp a) (msg_timestamp b))
          (filter (messageIs chatSessionId userId) (chatMessages d)).

Definition getChatMessages (userId chatSessionId : jsstring)
  : M (list ChatMessage) :=
  ifDb []
    (tryCatch
       (statement (fun _ _ d => (sessionMessages chatSessionId userId d, d)))
       (ret [])).

End Chats.

Import Chats.

(* ===================================================================== *)
(** * The handlers of the chat routes *)
(* ===================================================================== *)

Module ChatRoutes.

(** What the handlers send of a session and of a message. *)
Record SessionView := {
  view_id : jsstring;
  view_title : option jsstring;
  view_createdAt : option Time;
  view_updatedAt : option Time;
  view_lastMessageAt : option Time
}.

Record MessageView := {
  view_messageId : N;
  view_role : jsstring;
  view_content : jsstring;
  view_timestamp : option Time;
  view_metadata : Metadata
}.

Definition sessionView (session : ChatSession) : SessionView :=
  {| view_id := session_id session; view_title := session_title session;
     view_createdAt := session_createdAt session;
     view_updatedAt := session_updatedAt session;
     view_lastMessageAt := session_lastMessageAt session |}.

Definition messageView (msg : ChatMessage) : MessageView :=
  {| view_messageId := msg_id msg; view_role := msg_role msg;
     view_content := msg_content msg; view_timestamp := msg_timestamp msg;
     view_metadata := msg_metadata msg |}.

(** ** api.chats.$id.ts *)

(** [params.id] and the [userId] of the query string. *)
Record ChatQuery := {
  query_id : option jsstring;
  query_userId : option jsstring
}.

Inductive ChatResponse :=
| ChatError (status : nat) (error : jsstring)
| ChatLoaded (chatSession : SessionView) (messages : list MessageView).

(** GET /api/chats/:id *)
Definition chatLoader (req : ChatQuery) : M ChatResponse :=
  tryCatch
    (match query_id req with
     | None => ret (ChatError 400 (u "Chat ID required"))
     | Some chatSessionId =>
         if negb (truthy chatSessionId) then
           ret (ChatError 400 (u "Chat ID required"))
         else
           ifDb (ChatError 503 (u "Database not available"))
             (match query_userId req with
              | None => ret (ChatError 401 (u "User not authenticated"))
              | Some userId =>
                  if negb (truthy userId) then
                    ret (ChatError 401 (u "User not authenticated"))
                  else
                    found <- getChatSession userId chatSessionId ;;
                    match found with
                    | None => ret (ChatError 404 (u "Chat not found"))
                    | Some chatSession =>
                        messages <- getChatMessages userId chatSessionId ;;
                        ret (ChatLoaded (sessionView chatSession)
                                        (map messageView messages))
                    end
              end)
     end)
    (ret (ChatError 500 (u "Failed to load chat"))).

(** The body of a PUT request, with [params.id]. A field that is absent,
    or not a string, is [None]. *)
Record ChatUpdate := {
  update_id : option jsstring;
  update_userId : option jsstring;
  update_title : option jsstring;
  update_action : option jsstring
}.

Inductive UpdateResponse :=
| UpdateError (status : nat) (error : jsstring)
| UpdateSuccess.

(** PUT /api/chats/:id *)
Definition chatAction (req : ChatUpdate) : M UpdateResponse :=
  tryCatch
    (match update_id req with
     | None => ret (UpdateError 400 (u "Chat ID required"))
     | Some chatSessionId =>
         if negb (truthy chatSessionId) then
           ret (UpdateError 400 (u "Chat ID required"))
         else
           ifDb (UpdateError 503 (u "Database not available"))
             (match update_userId req with
              | None => ret (UpdateError 401 (u "User not authenticated"))
              | Some userId =>
                  if negb (truthy userId) then
                    ret (UpdateError 401 (u "User not authenticated"))
                  else if Routes.actionIs (update_action req) (u "delete") then
                    success <- deleteChatSession userId chatSessionId ;;
                    if negb success then
                      ret (UpdateError 500 (u "Failed to delete chat"))
                    else ret UpdateSuccess
                  else
                    match update_title req with
                    | Some title =>
                        if Routes.actionIs (update_action req) (u "updateTitle")
                           && truthy title then
                          success <-
                            updateChatSessionTitle userId chatSessionId title ;;
                          if negb success then
                            ret (UpdateError 500
                                   (u "Failed to update chat title"))
                          else ret UpdateSuccess
                        else ret (UpdateError 400 (u "Invalid action"))
                    | None => ret (UpdateError 400 (u "Invalid action"))
                    end
              end)
     end)
    (ret (UpdateError 500 (u "Failed to update chat"))).

(** ** api.chats.ts (second unit of api.memory.persistent.ts) *)

Inductive ListResponse :=
| ListError (status : nat) (error : jsstring)
| ListLoaded (chatSessions : list SessionView).

(** GET /api/chats *)
Definition chatsLoader (userId : option jsstring) : M ListResponse :=
  tryCatch
    (ifDb (ListError 503 (u "Database not available"))
       (match userId with
        | None => ret (ListError 401 (u "User not authenticated"))
        | Some uid =>
            if negb (truthy uid) then
              ret (ListError 401 (u "User not authenticated"))
            else
              chatSessions <- getChatSessions uid 50 ;;
              ret (ListLoaded (map sessionView chatSessions))
        end))
    (ret (ListError 500 (u "Failed to load chat sessions"))).

Inductive CreateResponse :=
| CreateError (status : nat) (error : jsstring)
| Created (chatSession : SessionView).

(** POST /api/chats, with the [userId] and the [title] of the body; a
    field that is absent, or not a string, is [None]. *)
Definition chatsAction (userId title : option jsstring) : M CreateResponse :=
  tryCatch
    (ifDb (CreateError 503 (u "Database not available"))
       (match userId with
        | None => ret (CreateError 401 (u "User not authenticated"))
        | Some uid =>
            if negb (truthy uid) then
              ret (CreateError 401 (u "User not authenticated"))
            else
              _ <- ensureUser uid None None ;;
              created <- createChatSession uid title ;;
              match created with
              | None =>
                  ret (CreateError 500 (u "Failed to create chat session"))
              | Some chatSession => ret (Created (sessionView chatSession))
              end
        end))
    (ret (CreateError 500 (u "Failed to create chat session"))).

(** ** api.chats.$id.messages.ts, the GET handler *)

Inductive MessagesResponse :=
| MessagesError (status : nat) (error : jsstring)
| MessagesLoaded (messages : list MessageView).

Definition messagesLoader (req : ChatQuery) : M MessagesResponse :=
  tryCatch
    (match query_id req with
     | None => ret (MessagesError 400 (u "Chat ID required"))
     | Some chatSessionId =>
         if negb (truthy chatSessionId) then
           ret (MessagesError 400 (u "Chat ID required"))
         else
           ifDb (MessagesError 503 (u "Database not available"))
             (match query_userId req with
              | None => ret (MessagesError 401 (u "User not authenticated"))
              | Some userId =>
                  if negb (truthy userId) then
                    ret (MessagesError 401 (u "User not authenticated"))
                  else
                    found <- getChatSession userId chatSessionId ;;
                    match found with
                    | None => ret (MessagesError 404 (u "Chat not found"))
                    | Some _ =>
                        messages <- getChatMessages userId chatSessionId ;;
                        ret (MessagesLoaded (map messageView messages))
                    end
              end)
     end)
    (ret (MessagesError 500 (u "Failed to load messages"))).

End ChatRoutes.

(* ===================================================================== *)
(** * The connection to the store (connection.ts) *)
(* ===================================================================== *)

Module Connection.

(** A connection is known by the URL it was opened with. The module keeps
    the one it has opened in [db]. *)
Definition Cache := option jsstring.

(** [a || b] on two optional strings. *)
Definition orElse (a b : option jsstring) : option jsstring :=
  if truthyOpt a then a else b.

(** [getDatabase(env)], with the URL of [env], the URL of the process
    environment and whether the driver accepts a URL (it throws on one it
    cannot read). Returns the connection and the new cache. *)
Definition getDatabase (accepts : jsstring -> bool)
           (envUrl processUrl : option jsstring) (db : Cache)
  : option jsstring * Cache :=
  match db with
  | Some connection => (Some connection, db)
  | None =>
      let databaseUrl := orElse envUrl processUrl in
      if negb (truthyOpt databaseUrl) then (None, None)
      else
        match databaseUrl with
        | Some url =>
            if accepts url then (Some url, Some url) else (None, None)
        | None => (None, None)
        end
  end.

(** [isDatabaseEnabled(env)]. *)
Definition isDatabaseEnabled (envUrl processUrl : option jsstring) : bool :=
  truthyOpt (orElse envUrl processUrl).

End Connection.

(* ===================================================================== *)
(** * Notions used in the statements *)
(* ===================================================================== *)


(** What the clock of the store reads when the next call reaches it:
    what a column with [defaultNow()] receives from the next statement. *)
Definition storeTime (w : World) : Time :=
  storeClock w (now w + outbound (nextEvent w))%N.

(** No call of the script throws. *)
Definition smooth (w : World) : Prop :=
  Forall (fun e => fails e = false) (script w).


(** The session of a message reflects it: its [lastMessageAt] is not
    before the timestamp of the message. *)
Definition reflects (d : Db) (m : ChatMessage) : Prop :=
  forall s, In s (chatSessions d) ->
            session_id s = msg_chatSessionId m ->
            exists t t',
              msg_timestamp m = Some t
              /\ session_lastMessageAt s = Some t'
              /\ (t <= t')%N.

(** What [getPersistentMemory] reads in a state of the table: the content
    of the first row of the user. *)
Definition ownedBy (userId : jsstring) (r : UserPersistentMemory) : bool :=
  eqb (pm_userId r) userId.

Definition stored (userId : jsstring) (rows : list UserPersistentMemory)
  : option jsstring :=
  match filter (ownedBy userId) rows with
  | r :: _ => Some (pm_content r)
  | [] => None
  end.

(** The titles of the chat sessions, in table order. *)
Definition titles (d : Db) : list (option jsstring) :=
  map session_title (chatSessions d).

(** [m.role === 'user']. *)
Definition isUserMessage (m : ChatMessage) : bool :=
  eqb (msg_role m) (u "user").

(** The similarity the service reads for a stored memory and a query
    vector: [1 - distance], or 0 when the store has none to give. *)
Definition relevance (dist : Vec -> Vec -> JsNumber) (queryVector : Vec)
           (m : MemoryEmbedding) : Q :=
  orZero (oneMinus (distanceTo dist queryVector m)).

(** The store ranks exactly: the scan of the index reaches every row of
    the table, as a scan of the table itself does. *)
Definition exactScan (w : World) : Prop :=
  forall v table m, reached w v table m = true.

(** The similarity the store computes for two vectors, as the service
    reads it. *)
Definition similarityOf (w : World) (stored queryVector : Vec) : Q :=
  orZero (oneMinus (Some (cosineDistance w stored queryVector))).

(** What [searchMemories] makes of the rows of its query. *)
Definition surfaced (date : Time) (rows : list SimilarityRow)
  : list MemorySearchResult :=
  filter (fun m => Qgtb (similarity m) (7 # 10))
    (map (fun result =>
            {| content := row_content result;
               metadata := row_metadata result;
               similarity := orZero (row_similarity result);
               timestamp :=
                 match row_timestamp result with
                 | Some t => t
                 | None => date
                 end |})
         rows).

(** The profile [ensureUser] leaves for a user that exists: the given
    email and name where they are given and not empty, the stored ones
    otherwise. *)
Definition merged (email name : option jsstring) (existing r : User) : Prop :=
  user_id r = user_id existing
  /\ user_email r = (if truthyOpt email then email else user_email existing)
  /\ user_name r = (if truthyOpt name then name else user_name existing)
  /\ user_isGoogleUser r = user_isGoogleUser existing
  /\ user_createdAt r = user_createdAt existing.

(** Nothing to strip in front. *)
Definition headOk (s : jsstring) : Prop :=
  match s with
  | [] => True
  | c :: _ => isWhiteSpace c = false
  end.


(** [piece] occurs in [text]. *)
Definition pieceOf (piece text : jsstring) : Prop :=
  exists before after, text = before ++ piece ++ after.

(** A text the parser returns for a field: a piece of the content it
    was given, with no white space left around it. *)
Definition trimmedPieceOf (piece text : jsstring) : Prop :=
  pieceOf piece text /\ trim piece = piece.

(** A text on one line. *)
Definition singleLine (s : jsstring) : Prop :=
  forall c, In c s -> isLineTerminator c = false.

Unset Implicit Arguments.


(* ===================================================================== *)
(** * Facts about the string primitives *)
(* ===================================================================== *)

Section StringFacts.

Lemma char_eqb_eq (a b : char) : char_eqb a b = true <-> a = b.
Proof. unfold char_eqb. apply N.eqb_eq. Qed.

Lemma eqb_eq (a b : jsstring) : eqb a b = true <-> a = b.
Proof.
  revert b. induction a as [|x a IH]; intros [|y b]; simpl;
    try (split; [discriminate | discriminate]); try tauto.
  rewrite andb_true_iff, char_eqb_eq, IH.
  split; [intros [-> ->]; reflexivity | intros H; injection H; auto].
Qed.

Lemma eqb_refl (a : jsstring) : eqb a a = true.
Proof. apply eqb_eq. reflexivity. Qed.

Lemma eqb_neq (a b : jsstring) : eqb a b = false <-> a <> b.
Proof.
  split.
  - intros H E. apply eqb_eq in E. congruence.
  - intros H. destruct (eqb a b) eqn:E; [apply eqb_eq in E; contradiction | reflexivity].
Qed.

Lemma startsWith_iff (p s : jsstring) :
  startsWith p s = true <-> exists t, s = p ++ t.
Proof.
  revert s. induction p as [|x p IH]; intros s; simpl.
  - split; [intros _; exists s; reflexivity | reflexivity].
  - destruct s as [|y s].
    + split; [discriminate | intros [t H]; discriminate].
    + rewrite andb_true_iff, char_eqb_eq, IH. split.
      * intros [-> [t ->]]. exists t. reflexivity.
      * intros [t H]. injection H as -> ->. split; [reflexivity | exists t; reflexivity].
Qed.

Lemma startsWith_app (p t : jsstring) : startsWith p (p ++ t) = true.
Proof. apply startsWith_iff. exists t. reflexivity. Qed.

(** [indexOf] returns the position of the first occurrence. *)
Lemma indexOf_Some (needle s : jsstring) (k : nat) :
  indexOf needle s = Some k ->
  exists post, s = firstn k s ++ needle ++ post /\ k <= length s.
Proof.
  revert k. induction s as [|c s IH]; intros k; simpl.
  - destruct (startsWith needle []) eqn:E; [|discriminate].
    intros H. injection H as <-. apply startsWith_iff in E.
    destruct E as [t E]. exists t. simpl. split; [exact E | lia].
  - destruct (startsWith needle (c :: s)) eqn:E.
    + intros H. injection H as <-. apply startsWith_iff in E.
      destruct E as [t E]. exists t. simpl. split; [exact E | lia].
    + destruct (indexOf needle s) as [j|] eqn:Ej; simpl; [|discriminate].
      intros H. injection H as <-.
      destruct (IH j eq_refl) as [post [Hs Hj]].
      exists post. simpl. split; [f_equal; exact Hs | lia].
Qed.

Lemma indexOf_first (needle s : jsstring) (k : nat) :
  indexOf needle s = Some k ->
  forall j, j < k -> startsWith needle (skipn j s) = false.
Proof.
  revert k. induction s as [|c s IH]; intros k; simpl.
  - destruct (startsWith needle []); [|discriminate].
    intros H. injection H as <-. intros j Hj. lia.
  - destruct (startsWith needle (c :: s)) eqn:E.
    + intros H. injection H as <-. intros j Hj. lia.
    + destruct (indexOf needle s) as [i|] eqn:Ei; simpl; [|discriminate].
      intros H. injection H as <-. intros [|j] Hj; simpl.
      * exact E.
      * apply (IH i eq_refl). lia.
Qed.



Lemma indexOf_here (needle s : jsstring) :
  startsWith needle s = true -> indexOf needle s = Some 0.
Proof. intros H. destruct s; simpl; rewrite H; reflexivity. Qed.

Lemma indexOf_later (needle : jsstring) (c : char) (s : jsstring) :
  startsWith needle (c :: s) = false ->
  indexOf needle (c :: s) = option_map S (indexOf needle s).
Proof. intros H. simpl indexOf. rewrite H. reflexivity. Qed.

(** The occurrence found at the end of a known prefix. *)
Lemma indexOf_at (needle pre post : jsstring) :
  (forall j, j < length pre ->
             startsWith needle (skipn j (pre ++ needle ++ post)) = false) ->
  indexOf needle (pre ++ needle ++ post) = Some (length pre).
Proof.
  induction pre as [|c pre IH]; intros H.
  - simpl. apply indexOf_here, startsWith_app.
  - pose proof (H 0 ltac:(simpl; lia)) as H0. simpl skipn in H0.
    change ((c :: pre) ++ needle ++ post) with (c :: (pre ++ needle ++ post)) in *.
    rewrite indexOf_later by exact H0.
    rewrite IH; [reflexivity|].
    intros j Hj. apply (H (S j)). simpl. lia.
Qed.

Lemma substring_0 (s : jsstring) (n : nat) : substring s 0 n = firstn n s.
Proof.
  unfold substring. simpl.
  rewrite Nat.sub_0_r.
  destruct (Nat.le_ge_cases n (length s)) as [H|H].
  - rewrite Nat.min_l by exact H. reflexivity.
  - rewrite Nat.min_r by exact H. rewrite !firstn_all2; auto.
Qed.


End StringFacts.

(* ===================================================================== *)
(** * The plan parser: detection and the default title *)
(* ===================================================================== *)

Section PlanDetection.

Import PlanParser.

Lemma regexSearch_Some (A : Type) (matchHere : jsstring -> option A)
      (s : jsstring) (i : nat) (a : A) :
  regexSearch matchHere s = Some (i, a) -> matchHere (skipn i s) = Some a.
Proof.
  revert i. induction s as [|c s IH]; intros i; simpl.
  - destruct (matchHere []) eqn:E; [|discriminate].
    intros H. injection H as <- <-. exact E.
  - destruct (matchHere (c :: s)) eqn:E.
    + intros H. injection H as <- <-. exact E.
    + destruct (regexSearch matchHere s) as [[j b]|] eqn:Ej; [|discriminate].
      intros H. injection H as <- <-. simpl. apply IH. reflexivity.
Qed.






End PlanDetection.

(* ===================================================================== *)
(** * The plan parser: the extent of sections and subsections *)
(* ===================================================================== *)

Section PlanExtent.

Import PlanParser.



Lemma skipn_add_app (a b : jsstring) (n : nat) :
  skipn (length a + n) (a ++ b) = skipn n b.
Proof. induction a; simpl; auto. Qed.







End PlanExtent.

Section PlanExtentTheorem.

Import PlanParser.




(** The subsection extractors start four code units before the end of
    the subsection heading (they skip the length of the name, not of
    ["### "] and the name): the last letters of the heading come out with
    the text. *)
Lemma extractSubsectionText_keeps_heading_tail :
  extractSubsectionText
    (u "### Frontend" ++ [nl] ++ u "React" ++ [nl]
       ++ u "### Backend" ++ [nl] ++ u "Node")
    (u "Frontend")
  = Some (u "tend" ++ [nl] ++ u "React").
Proof. vm_compute. reflexivity. Qed.

End PlanExtentTheorem.

(* ===================================================================== *)
(** * Facts about the calls of the service *)
(* ===================================================================== *)

Section CallFacts.

Lemma smooth_next (w : World) : smooth w -> fails (nextEvent w) = false.
Proof.
  unfold smooth, nextEvent. destruct (script w) as [|e es]; intros H.
  - reflexivity.
  - inversion H; assumption.
Qed.

Lemma smooth_consume (w : World) : smooth w -> smooth (consume w).
Proof.
  unfold smooth, consume; simpl. destruct (script w) as [|e es]; intros H.
  - constructor.
  - inversion H; assumption.
Qed.

Lemma smooth_commit (d : Db) (w : World) : smooth w -> smooth (commit d w).
Proof. unfold smooth, commit; simpl. auto. Qed.

Lemma smooth_arrive (e : Event) (w : World) : smooth w -> smooth (arrive e w).
Proof. unfold smooth, arrive; simpl. auto. Qed.

(** A statement that does not throw returns what it computes and commits
    its new state. *)
Lemma statement_runs (A : Type) (run : Time -> N -> Db -> A * Db) (w : World) :
  fails (nextEvent w) = false ->
  statement run w
  = (Ok (fst (run (storeTime w) (nextId w) (db w))),
     arrive (nextEvent w)
       (commit (snd (run (storeTime w) (nextId w) (db w))) (consume w))).
Proof.
  intros H. unfold statement, storeTime. cbv zeta. rewrite H. simpl.
  destruct (run _ _ _); reflexivity.
Qed.

Lemma statement_throws (A : Type) (run : Time -> N -> Db -> A * Db)
      (w : World) :
  fails (nextEvent w) = true ->
  statement run w = (Throw, arrive (nextEvent w) (consume w)).
Proof. intros H. unfold statement. cbv zeta. rewrite H. reflexivity. Qed.

Lemma Qgtb_lt (a b : Q) : Qgtb a b = true <-> (b < a)%Q.
Proof.
  unfold Qgtb. rewrite negb_true_iff. split.
  - intros H. apply Qnot_le_lt. intros Hle.
    apply Qle_bool_iff in Hle. congruence.
  - intros H. destruct (Qle_bool a b) eqn:E; [|reflexivity].
    apply Qle_bool_iff in E. exfalso. exact (Qlt_not_le _ _ H E).
Qed.

Lemma surfaced_threshold (date : Time) (rows : list SimilarityRow) :
  Forall (fun m => (7 # 10 < similarity m)%Q) (surfaced date rows).
Proof.
  apply Forall_forall. intros m Hin. unfold surfaced in Hin.
  apply filter_In in Hin. destruct Hin as [_ H]. apply Qgtb_lt. exact H.
Qed.

Lemma surfaced_length (date : Time) (rows : list SimilarityRow) :
  length (surfaced date rows) <= length rows.
Proof.
  unfold surfaced.
  etransitivity; [apply filter_length_le|]. rewrite length_map. reflexivity.
Qed.

Lemma similarityQuery_length (dist : Vec -> Vec -> JsNumber)
      (scan : Vec -> list MemoryEmbedding -> MemoryEmbedding -> bool)
      (userId : jsstring) (appId : option jsstring) (queryVector : Vec)
      (limit : nat) (d : Db) :
  length (similarityQuery dist scan userId appId queryVector limit d) <= limit.
Proof.
  unfold similarityQuery. rewrite length_map, length_firstn. apply Nat.le_min_l.
Qed.

(** The outcome of [searchMemories]: either nothing, or the rows of one
    similarity query, normalised and filtered. It never throws. *)
Lemma searchMemories_outcome (userId query : jsstring)
      (appId : option jsstring) (limit : nat) (w : World) :
  exists results w',
    searchMemories userId query appId limit w = (Ok results, w')
    /\ (results = []
        \/ exists date queryVector d,
             results = surfaced date
                         (similarityQuery (cosineDistance w) (reached w)
                                          userId appId queryVector limit d)).
Proof.
  unfold searchMemories, ifDb, tryCatch, bind, createEmbedding,
    newDate, distanceOperator, indexScan, ret.
  destruct (connected w); [|do 2 eexists; split; [reflexivity | left; reflexivity]].
  destruct (apiKey w); [|do 2 eexists; split; [reflexivity | left; reflexivity]].
  cbv zeta.
  destruct (fails (nextEvent w));
    [do 2 eexists; split; [reflexivity | left; reflexivity]|].
  destruct (fails (nextEvent (arrive (nextEvent w) (consume w)))) eqn:E.
  - rewrite statement_throws by exact E.
    do 2 eexists; split; [reflexivity | left; reflexivity].
  - rewrite statement_runs by exact E. simpl.
    do 2 eexists; split; [reflexivity|]. right. do 3 eexists. reflexivity.
Qed.

(** C2. Whatever the user, the query text, the app and the limit, and
    whatever the store holds and the calls do, [searchMemories] returns a
    list, and every element of it has a similarity strictly above 0.7:
    no result with a similarity of 0.7 or less is surfaced. *)
Theorem searchMemories_above_threshold (userId query : jsstring)
        (appId : option jsstring) (limit : nat) (w : World) :
  exists results,
    fst (searchMemories userId query appId limit w) = Ok results
    /\ Forall (fun m => (7 # 10 < similarity m)%Q) results
    /\ forall m, In m results -> ~ (similarity m <= 7 # 10)%Q.
Proof.
  destruct (searchMemories_outcome userId query appId limit w)
    as [results [w' [Hrun Hres]]].
  exists results. rewrite Hrun. split; [reflexivity|].
  assert (Hall : Forall (fun m => (7 # 10 < similarity m)%Q) results).
  { destruct Hres as [-> | [date [v [d ->]]]].
    - constructor.
    - apply surfaced_threshold. }
  split; [exact Hall|].
  intros m Hin Hle. rewrite Forall_forall in Hall.
  exact (Qlt_not_le _ _ (Hall m Hin) Hle).
Qed.

End CallFacts.

(* ===================================================================== *)
(** * The rounding of float8 *)
(* ===================================================================== *)

Section FloatFacts.

Local Open Scope Q_scope.

Lemma pow2_pos (e : Z) : 0 < pow2 e.
Proof. apply Qpower_0_lt. reflexivity. Qed.

Lemma pow2_le (a b : Z) : (a <= b)%Z -> pow2 a <= pow2 b.
Proof. intros H. apply Qpower_le_compat_l; [exact H | discriminate]. Qed.

Lemma pow2_lt_inv (a b : Z) : pow2 a < pow2 b -> (a < b)%Z.
Proof. intros H. apply (Qpower_lt_compat_l_inv (2 # 1)); [exact H | reflexivity]. Qed.

Lemma pow2_add (a b : Z) : pow2 (a + b) == pow2 a * pow2 b.
Proof. apply Qpower_plus. discriminate. Qed.

Lemma pow2_Z (n : Z) : (0 <= n)%Z -> pow2 n == inject_Z (2 ^ n).
Proof. intros H. unfold pow2. rewrite Zpower_Qpower by exact H. reflexivity. Qed.

Lemma roundHalfEven_bounds (x : Q) :
  (Qfloor x <= roundHalfEven x <= Qfloor x + 1)%Z.
Proof.
  unfold roundHalfEven. cbv zeta.
  destruct (Qcompare (x - inject_Z (Qfloor x)) (1 # 2)); [|lia|lia].
  destruct (Z.even (Qfloor x)); lia.
Qed.

Lemma roundHalfEven_le (x y : Q) :
  x <= y -> (roundHalfEven x <= roundHalfEven y)%Z.
Proof.
  intros H. pose proof (Qfloor_resp_le x y H) as Hf.
  pose proof (roundHalfEven_bounds x) as Bx.
  pose proof (roundHalfEven_bounds y) as By.
  destruct (Z.eq_dec (Qfloor x) (Qfloor y)) as [E|E]; [|lia].
  unfold roundHalfEven. cbv zeta. rewrite <- E.
  destruct (Qcompare (x - inject_Z (Qfloor x)) (1 # 2)) eqn:Cx;
    destruct (Qcompare (y - inject_Z (Qfloor x)) (1 # 2)) eqn:Cy;
    try (destruct (Z.even (Qfloor x))); try lia;
    try (apply <- Qeq_alt in Cx); try (apply <- Qlt_alt in Cx);
    try (apply <- Qgt_alt in Cx);
    try (apply <- Qeq_alt in Cy); try (apply <- Qlt_alt in Cy);
    try (apply <- Qgt_alt in Cy);
    exfalso; lra.
Qed.

Lemma roundHalfEven_Z (z : Z) : roundHalfEven (inject_Z z) = z.
Proof.
  unfold roundHalfEven. cbv zeta. rewrite Qfloor_Z.
  assert (H : inject_Z z - inject_Z z < 1 # 2) by lra.
  apply -> Qlt_alt in H. rewrite H. reflexivity.
Qed.

Lemma exponent_spec (x : Q) :
  0 < x -> pow2 (exponent x) <= x /\ x < pow2 (exponent x + 1).
Proof.
  intros Hx. destruct x as [n d]. unfold exponent. cbn [Qnum Qden].
  assert (Hn : (0 < n)%Z).
  { unfold Qlt in Hx. simpl in Hx. lia. }
  set (a := Z.log2 n). set (b := Z.log2 (Zpos d)).
  assert (Ha : (0 <= a)%Z) by apply Z.log2_nonneg.
  assert (Hb : (0 <= b)%Z) by apply Z.log2_nonneg.
  destruct (Z.log2_spec n Hn) as [Hn1 Hn2]. fold a in Hn1, Hn2.
  destruct (Z.log2_spec (Zpos d) eq_refl) as [Hd1 Hd2]. fold b in Hd1, Hd2.
  assert (Hx' : n # d == inject_Z n / inject_Z (Zpos d)) by apply Qmake_Qdiv.
  assert (Hdpos : 0 < inject_Z (Zpos d)) by reflexivity.
  assert (Hpa : pow2 a == inject_Z (2 ^ a)) by (apply pow2_Z; exact Ha).
  assert (Hpb : pow2 b == inject_Z (2 ^ b)) by (apply pow2_Z; exact Hb).
  assert (Hn1q : pow2 a <= inject_Z n) by (rewrite Hpa, <- Zle_Qle; exact Hn1).
  assert (Hd1q : pow2 b <= inject_Z (Zpos d)) by (rewrite Hpb, <- Zle_Qle; exact Hd1).
  assert (Hn2q : inject_Z n < 2 * pow2 a).
  { rewrite Hpa. change 2 with (inject_Z 2). rewrite <- inject_Z_mult, <- Zlt_Qlt.
    rewrite Z.pow_succ_r in Hn2 by exact Ha. exact Hn2. }
  assert (Hd2q : inject_Z (Zpos d) < 2 * pow2 b).
  { rewrite Hpb. change 2 with (inject_Z 2). rewrite <- inject_Z_mult, <- Zlt_Qlt.
    rewrite Z.pow_succ_r in Hd2 by exact Hb. exact Hd2. }
  pose proof (pow2_pos a) as Pa. pose proof (pow2_pos b) as Pb.
  pose proof (pow2_pos (a - b)) as Pab.
  assert (Hab : pow2 a == pow2 (a - b) * pow2 b).
  { rewrite <- pow2_add. replace (a - b + b)%Z with a by ring. reflexivity. }
  assert (Hup : pow2 (a - b + 1) == 2 * pow2 (a - b)).
  { rewrite pow2_add. change (pow2 1) with 2. ring. }
  assert (Hdown : pow2 (a - b) == 2 * pow2 (a - b - 1)).
  { replace (a - b)%Z with (a - b - 1 + 1)%Z at 1 by ring.
    rewrite pow2_add. change (pow2 1) with 2. ring. }
  set (D := inject_Z (Zpos d)) in *. set (N := inject_Z n) in *.
  assert (Hq : n # d == N / D) by exact Hx'.
  assert (HND : N == (N / D) * D) by (field; lra).
  pose proof (pow2_pos (a - b - 1)) as Pab1.
  assert (B1 : N / D < 2 * pow2 (a - b)).
  { apply Qlt_shift_div_r; [exact Hdpos|]. nra. }
  assert (B2 : pow2 (a - b - 1) <= N / D).
  { apply Qle_shift_div_l; [exact Hdpos|]. nra. }
  destruct (Qle_bool (pow2 (a - b)) (n # d)) eqn:T.
  - apply Qle_bool_iff in T. split; [exact T | lra].
  - replace (a - b - 1 + 1)%Z with (a - b)%Z by ring.
    assert (T' : ~ pow2 (a - b) <= n # d).
    { intros H. apply Qle_bool_iff in H. congruence. }
    apply Qnot_le_lt in T'. split; [lra | exact T'].
Qed.

Lemma exponent_le (x y : Q) : 0 < x -> x <= y -> (exponent x <= exponent y)%Z.
Proof.
  intros Hx Hxy.
  destruct (exponent_spec x Hx) as [H1 _].
  destruct (exponent_spec y) as [_ H2]; [lra|].
  assert (H : pow2 (exponent x) < pow2 (exponent y + 1)) by lra.
  apply pow2_lt_inv in H. lia.
Qed.

Lemma nearestDouble_nonneg (x : Q) : 0 < x -> 0 <= nearestDouble x.
Proof.
  intros Hx. unfold nearestDouble. cbv zeta.
  set (ulp := pow2 _). pose proof (pow2_pos (Z.max (exponent x) (-1022) - 52)) as P.
  fold ulp in P.
  assert (H : (0 <= roundHalfEven (x / ulp))%Z).
  { rewrite <- (roundHalfEven_Z 0). apply roundHalfEven_le.
    apply Qle_shift_div_l; [exact P|]. change (inject_Z 0) with 0. lra. }
  rewrite Zle_Qle in H. change (inject_Z 0) with 0 in H. nra.
Qed.

Lemma nearestDouble_le (x y : Q) :
  0 < x -> x <= y -> nearestDouble x <= nearestDouble y.
Proof.
  intros Hx Hxy. assert (Hy : 0 < y) by lra.
  pose proof (exponent_le x y Hx Hxy) as He.
  unfold nearestDouble. cbv zeta.
  set (ex := Z.max (exponent x) (-1022)).
  set (ey := Z.max (exponent y) (-1022)).
  pose proof (pow2_pos (ex - 52)) as Px. pose proof (pow2_pos (ey - 52)) as Py.
  destruct (Z.eq_dec ex ey) as [E|E].
  - rewrite <- E.
    assert (H : (roundHalfEven (x / pow2 (ex - 52))
                 <= roundHalfEven (y / pow2 (ex - 52)))%Z).
    { apply roundHalfEven_le. apply Qmult_le_compat_r; [exact Hxy|].
      apply Qlt_le_weak, Qinv_lt_0_compat. exact Px. }
    rewrite Zle_Qle in H. nra.
  - assert (Hlt : (ex < ey)%Z) by lia.
    assert (Hey : ey = exponent y) by lia.
    destruct (exponent_spec x Hx) as [_ Hx2].
    destruct (exponent_spec y Hy) as [Hy1 _].
    assert (Hx3 : x <= pow2 (ex + 1)).
    { apply Qle_trans with (pow2 (exponent x + 1)); [lra|]. apply pow2_le. lia. }
    assert (S53 : pow2 (ex + 1) == inject_Z (2 ^ 53) * pow2 (ex - 52)).
    { rewrite <- (pow2_Z 53) by lia. rewrite <- pow2_add.
      replace (53 + (ex - 52))%Z with (ex + 1)%Z by ring. reflexivity. }
    assert (S52 : pow2 ey == inject_Z (2 ^ 52) * pow2 (ey - 52)).
    { rewrite <- (pow2_Z 52) by lia. rewrite <- pow2_add.
      replace (52 + (ey - 52))%Z with ey by ring. reflexivity. }
    assert (Hrx : (roundHalfEven (x / pow2 (ex - 52)) <= 2 ^ 53)%Z).
    { rewrite <- (roundHalfEven_Z (2 ^ 53)). apply roundHalfEven_le.
      apply Qle_shift_div_r; [exact Px|]. rewrite <- S53. exact Hx3. }
    assert (Hry : (2 ^ 52 <= roundHalfEven (y / pow2 (ey - 52)))%Z).
    { rewrite <- (roundHalfEven_Z (2 ^ 52)) at 1. apply roundHalfEven_le.
      apply Qle_shift_div_l; [exact Py|]. rewrite <- S52, Hey. exact Hy1. }
    rewrite Zle_Qle in Hrx. rewrite Zle_Qle in Hry.
    assert (Hmid : pow2 (ex + 1) <= pow2 ey) by (apply pow2_le; lia).
    apply Qle_trans with (pow2 (ex + 1)).
    + rewrite S53. apply Qmult_le_compat_r; [exact Hrx | lra].
    + apply Qle_trans with (pow2 ey); [exact Hmid|].
      rewrite S52. apply Qmult_le_compat_r; [exact Hry | lra].
Qed.

Lemma float8_le (x y : Q) : x <= y -> float8 x <= float8 y.
Proof.
  intros H. unfold float8.
  destruct x as [[|n|n] d]; destruct y as [[|m|m] e]; cbn [Qnum];
    try (exfalso; unfold Qle in H; simpl in H; lia).
  - lra.
  - apply nearestDouble_nonneg. reflexivity.
  - apply nearestDouble_le; [reflexivity | exact H].
  - pose proof (nearestDouble_nonneg (- (Z.neg n # d)) eq_refl). lra.
  - pose proof (nearestDouble_nonneg (- (Z.neg n # d)) eq_refl).
    pose proof (nearestDouble_nonneg (Z.pos m # e) eq_refl). lra.
  - assert (H' : - (Z.neg m # e) <= - (Z.neg n # d)) by lra.
    pose proof (nearestDouble_le (- (Z.neg m # e)) (- (Z.neg n # d))
                  eq_refl H'). lra.
Qed.

(** The double nearest to 0.7 lies below 7/10. *)
Example float8_of_seven_tenths :
  float8 (7 # 10) == 6305039478318694 # 9007199254740992.
Proof. vm_compute. reflexivity. Qed.

(** A tie: 1 minus the double nearest to 0.3 lies half-way between two
    doubles and rounds to the even one, the double nearest to 0.7, as
    [1 - 0.3 === 0.7] holds in JavaScript. *)
Example float8_tie :
  float8 (1 - (5404319552844595 # 18014398509481984))
  == float8 (7 # 10).
Proof. vm_compute. reflexivity. Qed.

End FloatFacts.

(* ===================================================================== *)
(** * Nearest first: what the similarity query finds *)
(* ===================================================================== *)

Section NearestFirst.

Variable Row : Type.
Variable leb : Row -> Row -> bool.
Hypothesis leb_total : forall a b, leb a b = true \/ leb b a = true.
Hypothesis leb_trans :
  forall a b c, leb a b = true -> leb b c = true -> leb a c = true.

Let le (a b : Row) : Prop := leb a b = true.

Lemma insertSorted_In (x y : Row) (l : list Row) :
  In y (insertSorted leb x l) <-> y = x \/ In y l.
Proof.
  induction l as [|z l IH]; simpl.
  - intuition.
  - destruct (leb x z); simpl; [intuition|]. rewrite IH. intuition.
Qed.

Lemma orderBy_In (y : Row) (l : list Row) :
  In y (orderBy leb l) <-> In y l.
Proof.
  induction l as [|x l IH]; simpl; [reflexivity|].
  rewrite insertSorted_In, IH. intuition.
Qed.

Lemma insertSorted_sorted (x : Row) (l : list Row) :
  StronglySorted le l -> StronglySorted le (insertSorted leb x l).
Proof.
  induction l as [|z l IH]; intros Hs; simpl.
  - constructor; [constructor | constructor].
  - apply StronglySorted_inv in Hs. destruct Hs as [Hs Hz].
    destruct (leb x z) eqn:E.
    + constructor; [constructor; assumption|].
      constructor; [exact E|].
      rewrite Forall_forall in *. intros y Hy.
      exact (leb_trans x z y E (Hz y Hy)).
    + constructor; [apply IH; exact Hs|].
      rewrite Forall_forall in *. intros y Hy.
      apply insertSorted_In in Hy. destruct Hy as [-> | Hy].
      * destruct (leb_total z x) as [H|H]; [exact H | congruence].
      * exact (Hz y Hy).
Qed.

Lemma orderBy_sorted (l : list Row) : StronglySorted le (orderBy leb l).
Proof.
  induction l as [|x l IH]; simpl.
  - constructor.
  - apply insertSorted_sorted. exact IH.
Qed.

(** The first row of an ordered result is below every row of the table. *)
Lemma orderBy_head (l : list Row) (h : Row) (t : list Row) :
  orderBy leb l = h :: t -> forall y, In y l -> leb h y = true.
Proof.
  intros Ho y Hy. pose proof (orderBy_sorted l) as Hs. rewrite Ho in Hs.
  apply StronglySorted_inv in Hs. destruct Hs as [_ Hh].
  apply orderBy_In in Hy. rewrite Ho in Hy. destruct Hy as [<- | Hy].
  - destruct (leb_total h h); assumption.
  - rewrite Forall_forall in Hh. exact (Hh y Hy).
Qed.

End NearestFirst.

Section SearchAtTheStore.

Lemma In_firstn (A : Type) (n : nat) (l : list A) (x : A) :
  In x (firstn n l) -> In x l.
Proof.
  revert l. induction n as [|n IH]; intros [|y l]; simpl; try contradiction.
  intros [H|H]; [left; exact H | right; apply IH; exact H].
Qed.

Lemma distance_leb_total (a b : option JsNumber) :
  distance_leb a b = true \/ distance_leb b a = true.
Proof.
  destruct a as [[|x]|], b as [[|y]|]; simpl; auto.
  destruct (Qlt_le_dec x y) as [H|H].
  - left. apply Qle_bool_iff. apply Qlt_le_weak. exact H.
  - right. apply Qle_bool_iff. exact H.
Qed.

Lemma distance_leb_trans (a b c : option JsNumber) :
  distance_leb a b = true -> distance_leb b c = true ->
  distance_leb a c = true.
Proof.
  destruct a as [[|x]|], b as [[|y]|], c as [[|z]|]; simpl; auto;
    try discriminate.
  rewrite !Qle_bool_iff. apply Qle_trans.
Qed.

(** A stored memory that passes the filter has a distance, and whatever
    is at most as far passes as well. *)
Lemma nearer_passes (dist : Vec -> Vec -> JsNumber) (v : Vec)
      (near far : MemoryEmbedding) :
  distance_leb (distanceTo dist v near) (distanceTo dist v far) = true ->
  (7 # 10 < relevance dist v far)%Q ->
  (7 # 10 < relevance dist v near)%Q.
Proof.
  unfold relevance.
  destruct (distanceTo dist v far) as [[|y]|]; cbn [oneMinus orZero];
    intros Hle Hfar;
    try (exfalso; revert Hfar; apply Qle_not_lt; discriminate).
  destruct (distanceTo dist v near) as [[|x]|];
    cbn [oneMinus orZero distance_leb] in *; try discriminate.
  apply Qle_bool_iff in Hle.
  assert (Hxy : (1 - y <= 1 - x)%Q) by lra.
  pose proof (float8_le (1 - y)%Q (1 - x)%Q Hxy). lra.
Qed.

Lemma surfaced_nil_iff (date : Time) (rows : list SimilarityRow) :
  surfaced date rows = []
  <-> forall r, In r rows -> ~ (7 # 10 < orZero (row_similarity r))%Q.
Proof.
  unfold surfaced. induction rows as [|r rows IH]; simpl.
  - split; [intros _ r [] | reflexivity].
  - destruct (Qgtb (orZero (row_similarity r)) (7 # 10)) eqn:E.
    + split; [discriminate|]. intros H. exfalso.
      apply (H r); [left; reflexivity|]. apply Qgtb_lt. exact E.
    + rewrite IH. split.
      * intros H x [<- | Hx]; [|exact (H x Hx)].
        intros Hlt. apply Qgtb_lt in Hlt. congruence.
      * intros H x Hx. apply H. right. exact Hx.
Qed.

(** With a limit of at least one row, the similarity query surfaces
    nothing exactly when no stored memory of the user (and of the app,
    when one is given) that the scan of the index reaches passes the
    relevance filter. *)
Lemma similarityQuery_surfaces_nothing (dist : Vec -> Vec -> JsNumber)
      (scan : Vec -> list MemoryEmbedding -> MemoryEmbedding -> bool)
      (userId : jsstring) (appId : option jsstring) (v : Vec) (limit : nat)
      (d : Db) (date : Time) :
  0 < limit ->
  surfaced date (similarityQuery dist scan userId appId v limit d) = []
  <-> forall m, In m (memoryEmbeddings d) ->
                scan v (memoryEmbeddings d) m = true ->
                whereClause userId appId m = true ->
                ~ (7 # 10 < relevance dist v m)%Q.
Proof.
  intros Hlimit. rewrite surfaced_nil_iff. unfold similarityQuery.
  set (leb := fun a b => distance_leb (distanceTo dist v a) (distanceTo dist v b)).
  set (candidates := filter (whereClause userId appId)
                       (filter (scan v (memoryEmbeddings d))
                               (memoryEmbeddings d))).
  split.
  - intros H m Hm Hr Hw Hpass.
    assert (Hc : In m candidates)
      by (apply filter_In; split; [apply filter_In; split|]; assumption).
    destruct (orderBy leb candidates) as [|h t] eqn:Eo.
    + apply <- (orderBy_In _ leb) in Hc. rewrite Eo in Hc. contradiction.
    + assert (Hle : leb h m = true).
      { apply (orderBy_head _ leb) with (l := candidates) (t := t).
        - intros a b. apply distance_leb_total.
        - intros a b c. apply distance_leb_trans.
        - exact Eo.
        - exact Hc. }
      destruct limit as [|limit]; [lia|]. simpl in H.
      apply (H {| row_content := mem_content h;
                  row_metadata := mem_metadata h;
                  row_timestamp := mem_timestamp h;
                  row_similarity := oneMinus (distanceTo dist v h) |}).
      * left. reflexivity.
      * simpl. exact (nearer_passes dist v h m Hle Hpass).
  - intros H r Hr. apply in_map_iff in Hr. destruct Hr as [m [<- Hm]].
    simpl. apply In_firstn in Hm. apply -> (orderBy_In _ leb) in Hm.
    apply filter_In in Hm. destruct Hm as [Hm Hw].
    apply filter_In in Hm. destruct Hm as [Hm Hr]. exact (H m Hm Hr Hw).
Qed.

(** With the store enabled, an API key and no call failing,
    [searchMemories] with a limit of at least one returns the empty list
    exactly when no stored memory of the user (and app) that the scan of
    the index reaches passes the relevance filter against the embedding
    of the query, which is the answer to the first call. *)
Lemma searchMemories_nothing_relevant (userId query : jsstring)
        (appId : option jsstring) (limit : nat) (w : World) :
  connected w = true -> apiKey w = true -> smooth w -> 0 < limit ->
  exists results w',
    searchMemories userId query appId limit w = (Ok results, w')
    /\ db w' = db w
    /\ (results = []
        <-> forall m, In m (memoryEmbeddings (db w)) ->
                      reached w (vector (nextEvent w))
                              (memoryEmbeddings (db w)) m = true ->
                      whereClause userId appId m = true ->
                      ~ (7 # 10 < relevance (cosineDistance w)
                                            (vector (nextEvent w)) m)%Q).
Proof.
  intros Hc Hk Hs Hlimit.
  unfold searchMemories, ifDb, tryCatch, bind, createEmbedding,
    newDate, distanceOperator, indexScan, ret.
  cbv zeta. rewrite Hc, Hk, (smooth_next w Hs).
  rewrite statement_runs
    by (apply smooth_next, smooth_arrive, smooth_consume, Hs).
  cbn [fst snd]. do 2 eexists. split; [reflexivity|].
  split; [reflexivity|].
  apply similarityQuery_surfaces_nothing. exact Hlimit.
Qed.

End SearchAtTheStore.

(* ===================================================================== *)
(** * The personalized context *)
(* ===================================================================== *)

Section ContextFacts.

(** [getPersistentMemory] never throws. *)
Lemma getPersistentMemory_returns (userId : jsstring) (w : World) :
  exists persistentMemory w',
    getPersistentMemory userId w = (Ok persistentMemory, w').
Proof.
  unfold getPersistentMemory, ifDb, tryCatch, bind, ret.
  destruct (connected w); [|do 2 eexists; reflexivity].
  destruct (fails (nextEvent w)) eqn:E.
  - rewrite statement_throws by exact E. do 2 eexists; reflexivity.
  - rewrite statement_runs by exact E. do 2 eexists; reflexivity.
Qed.

Lemma searchMemories_at_most (userId query : jsstring)
      (appId : option jsstring) (limit : nat) (w w' : World)
      (results : list MemorySearchResult) :
  searchMemories userId query appId limit w = (Ok results, w') ->
  length results <= limit
  /\ Forall (fun m => (7 # 10 < similarity m)%Q) results.
Proof.
  intros Hrun.
  destruct (searchMemories_outcome userId query appId limit w)
    as [r [w2 [Hr Hres]]].
  rewrite Hrun in Hr. injection Hr as <- <-.
  destruct Hres as [-> | [date [v [d ->]]]].
  - split; [simpl; lia | constructor].
  - split; [|apply surfaced_threshold].
    etransitivity; [apply surfaced_length | apply similarityQuery_length].
Qed.

(** How [getPersonalizedContext] puts its result together, in every
    world, from what its two calls return: [getPersistentMemory], then
    [searchMemories] with a limit of 3. It never throws. *)
Lemma getPersonalizedContext_shape (userId query : jsstring)
        (appId : option jsstring) (w : World) :
  exists persistentMemory memories context w1 w2,
    getPersistentMemory userId w = (Ok persistentMemory, w1)
    /\ searchMemories userId query appId 3 w1 = (Ok memories, w2)
    /\ getPersonalizedContext userId query appId w = (Ok context, w2)
    /\ length memories <= 3
    /\ Forall (fun m => (7 # 10 < similarity m)%Q) memories
    /\ (context = [] <->
        (persistentMemory = None \/ persistentMemory = Some [])
        /\ memories = [])
    /\ (context <> [] ->
        context
        = [nl]
            ++ match persistentMemory with
               | Some ((_ :: _) as pm) =>
                   u "## Persistent User Context" ++ [nl] ++ pm ++ [nl; nl]
               | _ => []
               end
            ++ match memories with
               | [] => []
               | _ :: _ =>
                   u "## Recent Relevant Context" ++ [nl]
                     ++ u "Based on previous interactions:" ++ [nl]
                     ++ join [nl]
                          (map (fun m =>
                                  u "- " ++ content m ++ u " (similarity: "
                                    ++ toFixed2 (similarity m) ++ u ")")
                               memories)
                     ++ [nl]
               end
            ++ [nl]).
Proof.
  destruct (getPersistentMemory_returns userId w) as [pm [w1 Hpm]].
  destruct (searchMemories_outcome userId query appId 3 w1)
    as [memories [w2 [Hsearch _]]].
  destruct (searchMemories_at_most userId query appId 3 w1 w2 memories Hsearch)
    as [Hlen Hall].
  exists pm, memories. eexists. exists w1, w2.
  split; [exact Hpm|]. split; [exact Hsearch|].
  split.
  { unfold getPersonalizedContext, bind, ret. rewrite Hpm, Hsearch.
    reflexivity. }
  split; [exact Hlen|]. split; [exact Hall|].
  destruct pm as [[|c pm]|]; destruct memories as [|m memories];
    simpl truthyOpt; cbv iota beta.
  all: split;
    [split;
     [intros H;
      first [discriminate H | (simpl in H; discriminate H) | (split; auto)]
     |intros [[H|H] H'];
      first [discriminate H | discriminate H' | reflexivity]]
    |intros Hne;
     first [exfalso; apply Hne; reflexivity
           |simpl; rewrite <- ?app_assoc; reflexivity
           |match goal with
            | |- (if ?b then _ else _) = _ => replace b with true by reflexivity
            end;
            unfold recentHeading, persistentHeading, contextPart;
            rewrite <- ?app_assoc; reflexivity]].
Qed.

End ContextFacts.

Section ContextOfTheStore.

(** What the search returns, with the store enabled, an API key and no
    call failing: the rows of its query, filtered. *)
Lemma searchMemories_steady (userId query : jsstring)
      (appId : option jsstring) (limit : nat) (w : World) :
  connected w = true -> apiKey w = true -> smooth w ->
  exists date w',
    searchMemories userId query appId limit w
    = (Ok (surfaced date
             (similarityQuery (cosineDistance w) (reached w) userId appId
                              (vector (nextEvent w)) limit (db w))), w').
Proof.
  intros Hc Hk Hs.
  unfold searchMemories, ifDb, tryCatch, bind, createEmbedding,
    newDate, distanceOperator, indexScan, ret.
  cbv zeta. rewrite Hc, Hk, (smooth_next w Hs).
  rewrite statement_runs
    by (apply smooth_next, smooth_arrive, smooth_consume, Hs).
  cbn [fst snd]. do 2 eexists. reflexivity.
Qed.

(** A surfaced result is made of a stored memory of the user, and of the
    app when one is given, whose similarity is above 0.7. *)
Lemma surfaced_member (dist : Vec -> Vec -> JsNumber)
      (scan : Vec -> list MemoryEmbedding -> MemoryEmbedding -> bool)
      (userId : jsstring) (appId : option jsstring) (v : Vec) (limit : nat)
      (d : Db) (date : Time) (r : MemorySearchResult) :
  In r (surfaced date (similarityQuery dist scan userId appId v limit d)) ->
  exists m,
    In m (memoryEmbeddings d)
    /\ whereClause userId appId m = true
    /\ (7 # 10 < relevance dist v m)%Q
    /\ content r = mem_content m
    /\ similarity r = relevance dist v m.
Proof.
  unfold surfaced, similarityQuery. intros Hr.
  apply filter_In in Hr. destruct Hr as [Hr Hpass].
  apply in_map_iff in Hr. destruct Hr as [row [<- Hrow]].
  apply in_map_iff in Hrow. destruct Hrow as [m [<- Hm]].
  apply In_firstn in Hm. apply -> orderBy_In in Hm.
  apply filter_In in Hm. destruct Hm as [Hm Hw].
  apply filter_In in Hm. destruct Hm as [Hm _].
  exists m. cbn [content similarity row_content row_similarity] in *.
  apply Qgtb_lt in Hpass.
  split; [exact Hm|]. split; [exact Hw|]. split; [exact Hpass|].
  split; reflexivity.
Qed.

(** C1, as amended. With the store enabled, an API key, no call failing
    and a store that ranks exactly, [getPersonalizedContext] returns the
    empty string exactly when the user has no persistent memory stored,
    or an empty one, and no stored memory of the user (and of the app,
    when one is given) has a similarity to the query above 0.7, the
    similarity being what the store computes against the embedding of
    the query. Otherwise the result is, between two line feeds, the
    stored persistent memory verbatim under its fixed heading (when there
    is one), followed, when a stored memory passes, by the heading of the
    retrieved context and at most 3 bullet lines, each
    [- content (similarity: score)] for a stored memory that passes, with
    its similarity printed with two decimals. *)
Theorem personalized_context_of_the_store (userId query : jsstring)
        (appId : option jsstring) (w : World) :
  connected w = true -> apiKey w = true -> smooth w -> exactScan w ->
  let persistentMemory := stored userId (userPersistentMemory (db w)) in
  let queryVector := vector (nextEvent (consume w)) in
  let relevant := fun m =>
    whereClause userId appId m = true
    /\ (7 # 10 < relevance (cosineDistance w) queryVector m)%Q in
  exists memories context w',
    getPersonalizedContext userId query appId w = (Ok context, w')
    /\ (context = [] <->
        (persistentMemory = None \/ persistentMemory = Some [])
        /\ forall m, In m (memoryEmbeddings (db w)) -> ~ relevant m)
    /\ (memories = [] <->
        forall m, In m (memoryEmbeddings (db w)) -> ~ relevant m)
    /\ length memories <= 3
    /\ (forall r, In r memories ->
          exists m, In m (memoryEmbeddings (db w))
                    /\ relevant m
                    /\ content r = mem_content m
                    /\ similarity r
                       = relevance (cosineDistance w) queryVector m)
    /\ (context <> [] ->
        context
        = [nl]
            ++ match persistentMemory with
               | Some ((_ :: _) as pm) =>
                   u "## Persistent User Context" ++ [nl] ++ pm ++ [nl; nl]
               | _ => []
               end
            ++ match memories with
               | [] => []
               | _ :: _ =>
                   u "## Recent Relevant Context" ++ [nl]
                     ++ u "Based on previous interactions:" ++ [nl]
                     ++ join [nl]
                          (map (fun m =>
                                  u "- " ++ content m ++ u " (similarity: "
                                    ++ toFixed2 (similarity m) ++ u ")")
                               memories)
                     ++ [nl]
               end
            ++ [nl]).
Proof.
  intros Hc Hk Hs Hexact persistentMemory queryVector relevant.
  set (w1 := arrive (nextEvent w) (commit (db w) (consume w))).
  assert (Hget : getPersistentMemory userId w = (Ok persistentMemory, w1)).
  { unfold getPersistentMemory, ifDb, tryCatch, bind, ret. rewrite Hc.
    rewrite statement_runs by (apply smooth_next; exact Hs).
    cbn [fst snd]. unfold persistentMemory, stored, ownedBy.
    destruct (filter _ (userPersistentMemory (db w))); reflexivity. }
  assert (Hs1 : smooth w1)
    by (apply smooth_arrive, smooth_commit, smooth_consume, Hs).
  destruct (searchMemories_steady userId query appId 3 w1 Hc Hk Hs1)
    as [date [w2 Hsearch]].
  change (cosineDistance w1) with (cosineDistance w) in Hsearch.
  change (reached w1) with (reached w) in Hsearch.
  change (db w1) with (db w) in Hsearch.
  change (vector (nextEvent w1)) with queryVector in Hsearch.
  set (rows := similarityQuery (cosineDistance w) (reached w) userId appId
                               queryVector 3 (db w)) in Hsearch.
  assert (Hnone : surfaced date rows = []
                  <-> forall m, In m (memoryEmbeddings (db w)) ->
                                ~ relevant m).
  { unfold rows. rewrite similarityQuery_surfaces_nothing by lia.
    unfold relevant. split.
    - intros H m Hm [Hw Hpass]. exact (H m Hm (Hexact _ _ _) Hw Hpass).
    - intros H m Hm _ Hw Hpass. exact (H m Hm (conj Hw Hpass)). }
  destruct (getPersonalizedContext_shape userId query appId w)
    as [pm [memories [context [w1' [w2' [Hg [Hsr [Hrun [Hlen [_ [Hiff
        Hshape]]]]]]]]]]].
  rewrite Hget in Hg. injection Hg as <- <-.
  rewrite Hsearch in Hsr. injection Hsr as <- <-.
  exists (surfaced date rows), context, w2.
  split; [exact Hrun|].
  split; [rewrite Hiff, Hnone; reflexivity|].
  split; [exact Hnone|].
  split; [exact Hlen|].
  split; [|exact Hshape].
  intros r Hr. unfold rows in Hr. apply surfaced_member in Hr.
  destruct Hr as [m [Hm [Hw [Hpass [Hcontent Hsim]]]]].
  exists m. unfold relevant. auto.
Qed.

(** A user with a persistent memory and two stored memories, one of them
    near the query. *)
Lemma personalized_context_of_the_store_witness :
  let near := [(1 # 1)%Q] in
  let far := [(0 # 1)%Q] in
  let w :=
    {| connected := true; apiKey := true;
       cosineDistance :=
         fun a b => if Qeq_bool (hd 0%Q a) (hd 0%Q b)
                    then Num (1 # 10) else Num (9 # 10);
       db :=
         set_userPersistentMemory
           (fun _ => [ {| pm_id := 0%N; pm_userId := u "ann";
                          pm_content := u "likes tea";
                          pm_createdAt := Some 1%N;
                          pm_updatedAt := Some 1%N |} ])
           (set_memoryEmbeddings
              (fun _ => [ {| mem_id := 1%N; mem_userId := u "ann";
                             mem_appId := None;
                             mem_content := u "asked for a kettle";
                             mem_embedding := Some near;
                             mem_metadata := MetaUndefined;
                             mem_timestamp := Some 2%N |};
                          {| mem_id := 2%N; mem_userId := u "ann";
                             mem_appId := None;
                             mem_content := u "fixed a bug";
                             mem_embedding := Some far;
                             mem_metadata := MetaUndefined;
                             mem_timestamp := Some 3%N |} ])
              emptyDb);
       now := 10%N;
       script := [ quiet;
                   {| outbound := 0; inbound := 0; fails := false;
                      vector := near |} ];
       nextId := 3%N; history := [];
       storeClock := fun t => t; reached := fun _ _ _ => true;
       requests := [] |} in
  fst (getPersonalizedContext (u "ann") (u "tea") None w)
  = Ok ([nl] ++ u "## Persistent User Context" ++ [nl] ++ u "likes tea"
          ++ [nl; nl]
          ++ u "## Recent Relevant Context" ++ [nl]
          ++ u "Based on previous interactions:" ++ [nl]
          ++ u "- asked for a kettle (similarity: 0.90)" ++ [nl]
          ++ [nl]).
Proof.
  intros near far w.
  destruct (personalized_context_of_the_store (u "ann") (u "tea") None w)
    as [memories [context [w' [Hrun _]]]].
  - reflexivity.
  - reflexivity.
  - repeat constructor.
  - intros v table m. reflexivity.
  - rewrite Hrun. vm_compute in Hrun. injection Hrun as <- _.
    reflexivity.
Defined.

(** C1 as stated fails: the result is the empty string although a
    persistent memory and a memory of similarity 1 are stored for the
    user. First, with the store enabled and an API key, when the two
    calls throw. Second, with no call failing, when the scan of the
    approximate index does not reach the stored memory. *)
Lemma getPersonalizedContext_empty_despite_memory :
  let memory :=
    {| mem_id := 1%N; mem_userId := u "ann"; mem_appId := None;
       mem_content := u "asked for a kettle";
       mem_embedding := Some [(1 # 1)%Q];
       mem_metadata := MetaUndefined; mem_timestamp := Some 2%N |} in
  let world := fun (calls : list Event) (persistent : list UserPersistentMemory)
                   (scan : bool) =>
    {| connected := true; apiKey := true;
       cosineDistance := fun _ _ => Num 0;
       db := set_userPersistentMemory (fun _ => persistent)
               (set_memoryEmbeddings (fun _ => [memory]) emptyDb);
       now := 10%N; script := calls; nextId := 3%N; history := [];
       storeClock := fun t => t; reached := fun _ _ _ => scan;
       requests := [] |} in
  let throws := {| outbound := 0; inbound := 0; fails := true;
                   vector := [] |} in
  let row := {| pm_id := 0%N; pm_userId := u "ann";
                pm_content := u "likes tea";
                pm_createdAt := Some 1%N; pm_updatedAt := Some 1%N |} in
  let failing := world [throws; throws] [row] true in
  let approximate := world [] [] false in
  In memory (memoryEmbeddings (db failing))
  /\ In memory (memoryEmbeddings (db approximate))
  /\ whereClause (u "ann") None memory = true
  /\ (forall v, (relevance (cosineDistance failing) v memory == 1)%Q)
  /\ (forall v, (relevance (cosineDistance approximate) v memory == 1)%Q)
  /\ stored (u "ann") (userPersistentMemory (db failing))
     = Some (u "likes tea")
  /\ fst (getPersonalizedContext (u "ann") (u "tea") None failing) = Ok []
  /\ fst (getPersonalizedContext (u "ann") (u "tea") None approximate)
     = Ok [].
Proof.
  cbv zeta.
  split; [left; reflexivity|]. split; [left; reflexivity|].
  split; [reflexivity|].
  split; [intros v; vm_compute; reflexivity|].
  split; [intros v; vm_compute; reflexivity|].
  split; [reflexivity|].
  split; vm_compute; reflexivity.
Qed.

End ContextOfTheStore.

(* ===================================================================== *)
(** * Chat sessions: ownership and the result of update and delete *)
(* ===================================================================== *)

Section SessionFacts.

Lemma sessionIs_iff (chatSessionId userId : jsstring) (s : ChatSession) :
  sessionIs chatSessionId userId s = true
  <-> session_id s = chatSessionId /\ session_userId s = userId.
Proof. unfold sessionIs. rewrite andb_true_iff, !eqb_eq. reflexivity. Qed.

Lemma filter_none (A : Type) (p : A -> bool) (l : list A) :
  (forall x, In x l -> p x = false) -> filter p l = [].
Proof.
  induction l as [|x l IH]; intros H; simpl.
  - reflexivity.
  - rewrite (H x) by (left; reflexivity).
    apply IH. intros y Hy. apply H. right. exact Hy.
Qed.

Lemma filter_all (A : Type) (p : A -> bool) (l : list A) :
  (forall x, In x l -> p x = true) -> filter p l = l.
Proof.
  induction l as [|x l IH]; intros H; simpl.
  - reflexivity.
  - rewrite (H x) by (left; reflexivity). f_equal.
    apply IH. intros y Hy. apply H. right. exact Hy.
Qed.

Lemma updateWhere_none (A : Type) (p : A -> bool) (f : A -> A) (l : list A) :
  (forall x, In x l -> p x = false) -> updateWhere p f l = l.
Proof.
  induction l as [|x l IH]; intros H; simpl.
  - reflexivity.
  - rewrite (H x) by (left; reflexivity). f_equal.
    apply IH. intros y Hy. apply H. right. exact Hy.
Qed.

(** An update that keeps a column keeps the column of the table. *)
Lemma map_updateWhere (A B : Type) (column : A -> B) (p : A -> bool)
      (f : A -> A) (l : list A) :
  (forall x, column (f x) = column x) ->
  map column (updateWhere p f l) = map column l.
Proof.
  intros H. unfold updateWhere. rewrite map_map. apply map_ext.
  intros x. destruct (p x); [apply H | reflexivity].
Qed.

Lemma deleteWhere_none (A : Type) (p : A -> bool) (l : list A) :
  (forall x, In x l -> p x = false) -> deleteWhere p l = l.
Proof.
  intros H. unfold deleteWhere. apply filter_all.
  intros x Hx. rewrite (H x Hx). reflexivity.
Qed.

(** Under a primary key, two rows with the same key are the same row. *)
Lemma primary_key (A K : Type) (key : A -> K) (l : list A) (a b : A) :
  NoDup (map key l) -> In a l -> In b l -> key a = key b -> a = b.
Proof.
  induction l as [|x l IH]; intros Hnd Ha Hb Hk; [contradiction|].
  simpl in Hnd. inversion Hnd as [|k ks Hnot Hnd']; subst.
  destruct Ha as [<-|Ha]; destruct Hb as [<-|Hb].
  - reflexivity.
  - exfalso. apply Hnot. rewrite Hk. apply in_map. exact Hb.
  - exfalso. apply Hnot. rewrite <- Hk. apply in_map. exact Ha.
  - apply IH; assumption.
Qed.

(** C4. With [session_id] the primary key of [chat_sessions]: when a
    session with the identifier [chatSessionId] exists and belongs to a
    user other than [userId], [getChatSession userId chatSessionId]
    returns null, whatever the calls do. *)
Theorem getChatSession_fails_closed (userId chatSessionId : jsstring)
        (w : World) (s : ChatSession) :
  NoDup (map session_id (chatSessions (db w))) ->
  In s (chatSessions (db w)) ->
  session_id s = chatSessionId ->
  session_userId s <> userId ->
  fst (getChatSession userId chatSessionId w) = Ok None.
Proof.
  intros Hpk Hin Hid Howner.
  assert (Hnone : filter (sessionIs chatSessionId userId)
                         (chatSessions (db w)) = []).
  { apply filter_none. intros x Hx.
    destruct (sessionIs chatSessionId userId x) eqn:E; [|reflexivity].
    apply sessionIs_iff in E. destruct E as [Exid Exu].
    assert (x = s) by (apply (primary_key _ _ session_id _ x s Hpk Hx Hin);
                       congruence).
    subst x. contradiction. }
  unfold getChatSession, ifDb, tryCatch, bind, ret.
  destruct (connected w); [|reflexivity].
  destruct (fails (nextEvent w)) eqn:E.
  - rewrite statement_throws by exact E. reflexivity.
  - rewrite statement_runs by exact E. simpl. rewrite Hnone. reflexivity.
Qed.

Lemma getChatSession_fails_closed_witness :
  let other :=
    {| session_id := u "s1"; session_userId := u "bob";
       session_title := Some (u "Trip"); session_createdAt := Some 1%N;
       session_updatedAt := Some 1%N; session_lastMessageAt := Some 1%N |} in
  let w :=
    {| connected := true; apiKey := true;
       cosineDistance := fun _ _ => NaN;
       db := set_chatSessions (fun _ => [other]) emptyDb;
       now := 5%N; script := []; nextId := 0%N; history := [];
       storeClock := fun t => t; reached := fun _ _ _ => true;
       requests := [] |} in
  fst (getChatSession (u "alice") (u "s1") w) = Ok None.
Proof.
  cbv zeta.
  eapply getChatSession_fails_closed.
  - simpl. constructor; [intros H; exact H | constructor].
  - simpl. left. reflexivity.
  - reflexivity.
  - intros H. vm_compute in H. discriminate.
Defined.

Lemma set_chatSessions_same (d : Db) (f : list ChatSession -> list ChatSession) :
  f (chatSessions d) = chatSessions d -> set_chatSessions f d = d.
Proof. intros H. destruct d. unfold set_chatSessions. simpl in *. rewrite H. reflexivity. Qed.

Lemma set_chatMessages_same (d : Db) (f : list ChatMessage -> list ChatMessage) :
  f (chatMessages d) = chatMessages d -> set_chatMessages f d = d.
Proof. intros H. destruct d. unfold set_chatMessages. simpl in *. rewrite H. reflexivity. Qed.

(** C10. With the store enabled and a statement that does not throw,
    [updateChatSessionTitle] and [deleteChatSession] return true although
    no session has the given identifier and the given owner: the tables
    are left as they were, and the caller is told of a success. *)
Theorem update_and_delete_report_success (userId chatSessionId title : jsstring)
        (w : World) :
  connected w = true ->
  fails (nextEvent w) = false ->
  (forall s, In s (chatSessions (db w)) ->
             ~ (session_id s = chatSessionId /\ session_userId s = userId)) ->
  (fst (updateChatSessionTitle userId chatSessionId title w) = Ok true
   /\ db (snd (updateChatSessionTitle userId chatSessionId title w)) = db w)
  /\ (fst (deleteChatSession userId chatSessionId w) = Ok true
      /\ db (snd (deleteChatSession userId chatSessionId w)) = db w).
Proof.
  intros Hc Hf Hnone.
  assert (Hp : forall s, In s (chatSessions (db w)) ->
                         sessionIs chatSessionId userId s = false).
  { intros s Hs. destruct (sessionIs chatSessionId userId s) eqn:E; [|reflexivity].
    apply sessionIs_iff in E. exfalso. exact (Hnone s Hs E). }
  split.
  - unfold updateChatSessionTitle, ifDb, tryCatch, bind, ret, newDate.
    rewrite Hc, statement_runs by exact Hf. simpl.
    split; [reflexivity|].
    apply set_chatSessions_same. apply updateWhere_none. exact Hp.
  - unfold deleteChatSession, ifDb, tryCatch, bind, ret.
    rewrite Hc, statement_runs by exact Hf. simpl.
    split; [reflexivity|].
    unfold deleteSessions. rewrite (filter_none _ _ _ Hp). simpl.
    rewrite set_chatSessions_same by (apply deleteWhere_none; exact Hp).
    apply set_chatMessages_same. apply deleteWhere_none. reflexivity.
Qed.

Lemma update_and_delete_report_success_witness :
  let other :=
    {| session_id := u "s1"; session_userId := u "bob";
       session_title := Some (u "Trip"); session_createdAt := Some 1%N;
       session_updatedAt := Some 1%N; session_lastMessageAt := Some 1%N |} in
  let w :=
    {| connected := true; apiKey := true;
       cosineDistance := fun _ _ => NaN;
       db := set_chatSessions (fun _ => [other]) emptyDb;
       now := 5%N; script := []; nextId := 0%N; history := [];
       storeClock := fun t => t; reached := fun _ _ _ => true;
       requests := [] |} in
  (fst (updateChatSessionTitle (u "alice") (u "s1") (u "Mine") w) = Ok true
   /\ db (snd (updateChatSessionTitle (u "alice") (u "s1") (u "Mine") w)) = db w)
  /\ (fst (deleteChatSession (u "alice") (u "s1") w) = Ok true
      /\ db (snd (deleteChatSession (u "alice") (u "s1") w)) = db w).
Proof.
  cbv zeta.
  apply update_and_delete_report_success.
  - reflexivity.
  - reflexivity.
  - simpl. intros s [<-|[]] [_ H]. vm_compute in H. discriminate.
Defined.

End SessionFacts.

(* ===================================================================== *)
(** * Tool executions and their derived memory *)
(* ===================================================================== *)

Section ToolExecutionFacts.





End ToolExecutionFacts.

(* ===================================================================== *)
(** * Saving a chat message *)
(* ===================================================================== *)

Section MessageFacts.

Lemma In_updateWhere (A : Type) (p : A -> bool) (f : A -> A) (l : list A)
      (x : A) :
  In x (updateWhere p f l) ->
  exists x0, In x0 l /\ x = (if p x0 then f x0 else x0).
Proof.
  unfold updateWhere. intros H. apply in_map_iff in H.
  destruct H as [x0 [Hx Hin]]. exists x0. split; [exact Hin | symmetry; exact Hx].
Qed.

(** A successful [saveChatMessage], statement by statement. *)
Lemma saveChatMessage_success (userId chatSessionId role content
                               messageIndex : jsstring) (metadata : Metadata)
      (w w' : World) (m : ChatMessage) :
  saveChatMessage userId chatSessionId role content messageIndex metadata w
  = (Ok (Some m), w') ->
  let e1 := nextEvent w in
  let inserted :=
    {| msg_id := nextId w; msg_chatSessionId := chatSessionId;
       msg_userId := userId; msg_role := role; msg_content := content;
       msg_messageIndex := messageIndex;
       msg_timestamp := Some (storeTime w);
       msg_metadata := metadata |} in
  let d1 := set_chatMessages (fun l => l ++ [inserted]) (db w) in
  let w1 := arrive e1 (commit d1 (consume w)) in
  let e2 := nextEvent w1 in
  let d2 :=
    set_chatSessions
      (updateWhere (fun s => eqb (session_id s) chatSessionId)
         (fun s =>
            {| session_id := session_id s;
               session_userId := session_userId s;
               session_title := session_title s;
               session_createdAt := session_createdAt s;
               session_updatedAt := Some (now w1);
               session_lastMessageAt := Some (now w1) |})) d1 in
  connected w = true
  /\ fails e1 = false /\ fails e2 = false
  /\ m = inserted
  /\ w' = arrive e2 (commit d2 (consume w1)).
Proof.
  unfold saveChatMessage, ifDb, tryCatch, bind, ret, newDate,
    insertChatMessage, touchChatSession.
  destruct (connected w); [|discriminate].
  destruct (fails (nextEvent w)) eqn:E1.
  - rewrite statement_throws by exact E1. discriminate.
  - rewrite statement_runs by exact E1. simpl fst. simpl snd. cbv iota beta.
    match goal with
    | |- context [statement ?run ?x] =>
        destruct (fails (nextEvent x)) eqn:E2;
        [rewrite (statement_throws _ run x E2)
        |rewrite (statement_runs _ run x E2)]
    end.
    + discriminate.
    + simpl fst. simpl snd. cbv iota beta.
      intros H. injection H as Hm Hw. cbv zeta.
      repeat split; try assumption; try reflexivity; symmetry; assumption.
Qed.

(** C5, as amended. After a successful [saveChatMessage] the message is
    stored and the sessions are the ones there were. The timestamp of the
    message is read from the clock of the store when it inserts the row,
    the [lastMessageAt] of the session from the clock of the service
    after the insert has returned: when the clock of the store is not
    ahead of the clock of the service, every session with the identifier
    of the message has a [lastMessageAt] that is not before the timestamp
    of the message. The insert and the update of the session are two
    statements that commit one after the other: the state in between,
    with the new message and the sessions as they were, is part of the
    history a reader can observe. *)
Theorem saveChatMessage_bumps_session (userId chatSessionId role content
                                       messageIndex : jsstring)
        (metadata : Metadata) (w w' : World) (m : ChatMessage) :
  saveChatMessage userId chatSessionId role content messageIndex metadata w
  = (Ok (Some m), w') ->
  msg_chatSessionId m = chatSessionId
  /\ In m (chatMessages (db w'))
  /\ map session_id (chatSessions (db w'))
     = map session_id (chatSessions (db w))
  /\ ((forall t, (storeClock w t <= t)%N) -> reflects (db w') m)
  /\ exists between,
       history w' = history w ++ [between; db w']
       /\ In m (chatMessages between)
       /\ chatSessions between = chatSessions (db w).
Proof.
  intros Hrun. apply saveChatMessage_success in Hrun. cbv zeta in Hrun.
  destruct Hrun as [Hc [He1 [He2 [Hm Hw]]]].
  split; [rewrite Hm; reflexivity|].
  split.
  { rewrite Hw, Hm. simpl. apply in_or_app. right. left. reflexivity. }
  split.
  { rewrite Hw. simpl. apply map_updateWhere. reflexivity. }
  split.
  { intros Hclock s Hs Hid. rewrite Hw in Hs. simpl in Hs.
    apply In_updateWhere in Hs. destruct Hs as [s0 [Hs0 Hs]].
    rewrite Hm in Hid. simpl in Hid.
    destruct (eqb (session_id s0) chatSessionId) eqn:E.
    - exists (storeTime w),
             (now w + outbound (nextEvent w) + inbound (nextEvent w))%N.
      rewrite Hm, Hs. simpl. split; [reflexivity|]. split; [reflexivity|].
      unfold storeTime.
      pose proof (Hclock (now w + outbound (nextEvent w))%N). lia.
    - exfalso. apply eqb_neq in E. apply E. rewrite <- Hid, Hs. reflexivity. }
  eexists. rewrite Hw. simpl. rewrite <- app_assoc. simpl.
  split; [reflexivity|]. split; [|reflexivity].
  rewrite Hm. simpl. apply in_or_app. right. left. reflexivity.
Qed.

(** One session, one message, and a store whose clock is two
    milliseconds behind the clock of the service: the call succeeds, and
    the properties of the theorem hold of its outcome. *)
Lemma saveChatMessage_bumps_session_witness :
  let session :=
    {| session_id := u "s1"; session_userId := u "alice";
       session_title := None; session_createdAt := Some 10%N;
       session_updatedAt := Some 10%N; session_lastMessageAt := Some 10%N |} in
  let w :=
    {| connected := true; apiKey := true;
       cosineDistance := fun _ _ => NaN;
       db := set_chatSessions (fun _ => [session]) emptyDb;
       now := 100%N;
       script := [ {| outbound := 5; inbound := 5; fails := false;
                      vector := [] |} ];
       nextId := 0%N; history := [];
       storeClock := fun t => (t - 2)%N; reached := fun _ _ _ => true;
       requests := [] |} in
  let m :=
    {| msg_id := 0%N; msg_chatSessionId := u "s1"; msg_userId := u "alice";
       msg_role := u "user"; msg_content := u "hello";
       msg_messageIndex := u "0"; msg_timestamp := Some 103%N;
       msg_metadata := MetaUndefined |} in
  let w' :=
    snd (saveChatMessage (u "alice") (u "s1") (u "user") (u "hello") (u "0")
                         MetaUndefined w) in
  msg_chatSessionId m = u "s1"
  /\ In m (chatMessages (db w'))
  /\ map session_id (chatSessions (db w'))
     = map session_id (chatSessions (db w))
  /\ reflects (db w') m
  /\ exists between,
       history w' = history w ++ [between; db w']
       /\ In m (chatMessages between)
       /\ chatSessions between = chatSessions (db w).
Proof.
  intros session w m w'.
  destruct (saveChatMessage_bumps_session (u "alice") (u "s1") (u "user")
              (u "hello") (u "0") MetaUndefined w w' m)
    as [H1 [H2 [H3 [H4 H5]]]].
  - vm_compute. reflexivity.
  - split; [exact H1|]. split; [exact H2|]. split; [exact H3|].
    split; [|exact H5].
    apply H4. intros t. unfold w. simpl. lia.
Defined.

(** C5 as stated fails, on both counts. With a store whose clock is one
    second ahead of the clock of the service, a successful
    [saveChatMessage] leaves a message with the timestamp 1105 in a
    session whose [lastMessageAt] is 110. And with one clock for both,
    between the two statements the store holds the new message
    (timestamp 105) while its session still has its old [lastMessageAt]
    (10). *)
Lemma saveChatMessage_neither_ordered_nor_atomic :
  let session :=
    {| session_id := u "s1"; session_userId := u "alice";
       session_title := None; session_createdAt := Some 10%N;
       session_updatedAt := Some 10%N; session_lastMessageAt := Some 10%N |} in
  let world := fun ahead : N =>
    {| connected := true; apiKey := true;
       cosineDistance := fun _ _ => NaN;
       db := set_chatSessions (fun _ => [session]) emptyDb;
       now := 100%N;
       script := [ {| outbound := 5; inbound := 5; fails := false;
                      vector := [] |} ];
       nextId := 0%N; history := [];
       storeClock := fun t => (t + ahead)%N;
       reached := fun _ _ _ => true;
       requests := [] |} in
  (exists m w',
      saveChatMessage (u "alice") (u "s1") (u "user") (u "hello") (u "0")
                      MetaUndefined (world 1000%N)
      = (Ok (Some m), w')
      /\ ~ reflects (db w') m)
  /\ (exists m w' observed,
        saveChatMessage (u "alice") (u "s1") (u "user") (u "hello") (u "0")
                        MetaUndefined (world 0%N)
        = (Ok (Some m), w')
        /\ In observed (history w')
        /\ In m (chatMessages observed)
        /\ ~ reflects observed m).
Proof.
  cbv zeta. split.
  - do 2 eexists. split; [vm_compute; reflexivity|].
    intros H.
    destruct (H _ (or_introl eq_refl) eq_refl) as [t [t' [Ht [Ht' Hle]]]].
    simpl in Ht, Ht'. injection Ht as <-. injection Ht' as <-.
    vm_compute in Hle. apply Hle. reflexivity.
  - do 3 eexists.
    split; [vm_compute; reflexivity|].
    split; [left; reflexivity|].
    split; [left; reflexivity|].
    intros H.
    destruct (H _ (or_introl eq_refl) eq_refl) as [t [t' [Ht [Ht' Hle]]]].
    simpl in Ht, Ht'. injection Ht as <-. injection Ht' as <-.
    vm_compute in Hle. apply Hle. reflexivity.
Qed.

End MessageFacts.

(* ===================================================================== *)
(** * Persistent memory: set, append, get *)
(* ===================================================================== *)

Section PersistentMemoryFacts.

Lemma steady_statement (A : Type) (run : Time -> N -> Db -> A * Db)
      (w : World) :
  connected w = true -> smooth w ->
  exists w',
    statement run w
    = (Ok (fst (run (storeTime w) (nextId w) (db w))), w')
    /\ connected w' = true /\ smooth w'
    /\ db w' = snd (run (storeTime w) (nextId w) (db w)).
Proof.
  intros Hc Hs. eexists. split; [apply statement_runs, smooth_next, Hs|].
  split; [exact Hc|]. split; [|reflexivity].
  apply smooth_arrive, smooth_commit, smooth_consume, Hs.
Qed.

Lemma getPersistentMemory_steady (userId : jsstring) (w : World) :
  connected w = true -> smooth w ->
  exists w',
    getPersistentMemory userId w
    = (Ok (stored userId (userPersistentMemory (db w))), w')
    /\ connected w' = true /\ smooth w' /\ db w' = db w.
Proof.
  intros Hc Hs. unfold getPersistentMemory, ifDb, tryCatch, bind, ret.
  rewrite Hc.
  match goal with
  | |- context [statement ?run w] =>
      destruct (steady_statement _ run w Hc Hs) as [w' [Hrun [Hc' [Hs' Hdb]]]];
      rewrite Hrun
  end.
  exists w'. simpl in *. split; [|auto].
  unfold stored, ownedBy.
  destruct (filter _ (userPersistentMemory (db w))); reflexivity.
Qed.

Lemma setPersistentMemory_steady (userId content : jsstring) (w : World) :
  connected w = true -> smooth w ->
  exists w',
    setPersistentMemory userId content w = (Ok tt, w')
    /\ connected w' = true /\ smooth w'
    /\ stored userId (userPersistentMemory (db w')) = Some content.
Proof.
  intros Hc Hs. unfold setPersistentMemory, ifDb, tryCatch, bind, ret.
  rewrite Hc.
  match goal with
  | |- context [statement ?run w] =>
      destruct (steady_statement _ run w Hc Hs) as [w1 [Hrun [Hc1 [Hs1 Hdb1]]]];
      rewrite Hrun
  end.
  match goal with
  | |- context [statement ?run w1] =>
      destruct (steady_statement _ run w1 Hc1 Hs1)
        as [w2 [Hrun2 [Hc2 [Hs2 Hdb2]]]];
      rewrite Hrun2
  end.
  exists w2. simpl in *. split; [reflexivity|]. split; [exact Hc2|].
  split; [exact Hs2|].
  rewrite Hdb2, Hdb1. simpl. unfold stored.
  rewrite filter_app.
  rewrite (filter_none _ (ownedBy userId)
             (deleteWhere (fun r => eqb (pm_userId r) userId)
                          (userPersistentMemory (db w)))).
  - simpl. unfold ownedBy. simpl. rewrite eqb_refl. reflexivity.
  - intros x Hx. unfold deleteWhere in Hx. apply filter_In in Hx.
    destruct Hx as [_ Hx]. unfold ownedBy.
    destruct (eqb (pm_userId x) userId); [discriminate | reflexivity].
Qed.

Lemma ensureUser_steady (userId : jsstring) (email name : option jsstring)
      (w : World) :
  connected w = true -> smooth w ->
  exists r w',
    ensureUser userId email name w = (Ok r, w')
    /\ connected w' = true /\ smooth w'
    /\ userPersistentMemory (db w') = userPersistentMemory (db w).
Proof.
  intros Hc Hs. unfold ensureUser, ifDb, tryCatch, bind, ret, newDate.
  rewrite Hc.
  match goal with
  | |- context [statement ?run w] =>
      destruct (steady_statement _ run w Hc Hs) as [w1 [Hrun [Hc1 [Hs1 Hdb1]]]];
      rewrite Hrun
  end.
  cbn [fst snd] in *. cbv beta iota.
  destruct (firstn 1 (filter (fun r => eqb (user_id r) userId) (users (db w))))
    as [|existing rest].
  - match goal with
    | |- context [statement ?run w1] =>
        destruct (steady_statement _ run w1 Hc1 Hs1)
          as [w2 [Hrun2 [Hc2 [Hs2 Hdb2]]]];
        rewrite Hrun2
    end.
    do 2 eexists. split; [reflexivity|]. split; [exact Hc2|].
    split; [exact Hs2|]. rewrite Hdb2, Hdb1. reflexivity.
  - destruct (truthyOpt email || truthyOpt name); cbv beta iota.
    + match goal with
      | |- context [statement ?run w1] =>
          destruct (steady_statement _ run w1 Hc1 Hs1)
            as [w2 [Hrun2 [Hc2 [Hs2 Hdb2]]]];
          rewrite Hrun2
      end.
      do 2 eexists. split; [reflexivity|]. split; [exact Hc2|].
      split; [exact Hs2|]. rewrite Hdb2, Hdb1. reflexivity.
    + do 2 eexists. split; [reflexivity|]. split; [exact Hc1|].
      split; [exact Hs1|]. rewrite Hdb1. reflexivity.
Qed.

(** C3, as amended. With the store enabled, no call failing and a
    non-empty user identifier: [setPersistentMemory userId content1], then
    the append action with [content2], then [getPersistentMemory userId]
    yields [content1], a blank line and [content2] when [content1] is not
    empty, and [content2] alone when [content1] is the empty string. *)
Theorem append_after_set (userId content1 content2 : jsstring)
        (email name : option jsstring) (w : World) :
  connected w = true ->
  smooth w ->
  userId <> [] ->
  let request :=
    {| Routes.userId := Some userId;
       Routes.action := Some (u "append");
       Routes.content := Some content2;
       Routes.userInfo_email := email;
       Routes.userInfo_name := name |} in
  exists w1 w2 w3,
    setPersistentMemory userId content1 w = (Ok tt, w1)
    /\ Routes.persistentMemoryAction request w1
       = (Ok Routes.MemorySuccess, w2)
    /\ getPersistentMemory userId w2
       = (Ok (Some (match content1 with
                    | [] => content2
                    | _ :: _ => content1 ++ [nl; nl] ++ content2
                    end)), w3).
Proof.
  intros Hc Hs Hu request.
  destruct (setPersistentMemory_steady userId content1 w Hc Hs)
    as [w1 [Hset [Hc1 [Hs1 Hst1]]]].
  destruct (ensureUser_steady userId email name w1 Hc1 Hs1)
    as [r [wa [Hens [Hca [Hsa Hpa]]]]].
  destruct (getPersistentMemory_steady userId wa Hca Hsa)
    as [wb [Hget [Hcb [Hsb Hdbb]]]].
  rewrite Hpa, Hst1 in Hget.
  set (updated := match content1 with
                  | [] => content2
                  | _ :: _ => content1 ++ [nl; nl] ++ content2
                  end).
  destruct (setPersistentMemory_steady userId updated wb Hcb Hsb)
    as [w2 [Hset2 [Hc2 [Hs2 Hst2]]]].
  destruct (getPersistentMemory_steady userId w2 Hc2 Hs2)
    as [w3 [Hget2 _]].
  rewrite Hst2 in Hget2.
  exists w1, w2, w3. split; [exact Hset|]. split; [|exact Hget2].
  unfold Routes.persistentMemoryAction, tryCatch, ifDb, bind, ret.
  unfold request. cbn [Routes.userId Routes.action Routes.content
                       Routes.userInfo_email Routes.userInfo_name].
  destruct userId as [|c userId]; [contradiction|].
  cbn [truthy negb]. rewrite Hc1, Hens.
  replace (Routes.actionIs (Some (u "append")) (u "get")) with false
    by reflexivity.
  replace (Routes.actionIs (Some (u "append")) (u "set")) with false
    by reflexivity.
  replace (Routes.actionIs (Some (u "append")) (u "append")) with true
    by reflexivity.
  cbv iota. rewrite Hget.
  replace (if truthyOpt (Some content1)
           then content1 ++ [nl; nl] ++ content2 else content2)
    with updated by (unfold updated; destruct content1; reflexivity).
  rewrite Hset2. reflexivity.
Qed.

Lemma append_after_set_witness :
  let w :=
    {| connected := true; apiKey := false;
       cosineDistance := fun _ _ => NaN;
       db := emptyDb; now := 0%N; script := []; nextId := 0%N;
       history := [];
       storeClock := fun t => t; reached := fun _ _ _ => true;
       requests := [] |} in
  let request :=
    {| Routes.userId := Some (u "u1");
       Routes.action := Some (u "append");
       Routes.content := Some (u "likes tabs");
       Routes.userInfo_email := None;
       Routes.userInfo_name := None |} in
  exists w1 w2 w3,
    setPersistentMemory (u "u1") (u "uses TypeScript") w = (Ok tt, w1)
    /\ Routes.persistentMemoryAction request w1
       = (Ok Routes.MemorySuccess, w2)
    /\ getPersistentMemory (u "u1") w2
       = (Ok (Some (u "uses TypeScript" ++ [nl; nl] ++ u "likes tabs")), w3).
Proof.
  intros w request.
  apply (append_after_set (u "u1") (u "uses TypeScript") (u "likes tabs")
           None None w).
  - reflexivity.
  - constructor.
  - discriminate.
Defined.

(** C3 as stated fails for an empty [content1]: the append action takes
    the empty string for no memory at all and stores [content2] alone,
    without the blank line in front. *)
Lemma append_after_empty_set :
  let w :=
    {| connected := true; apiKey := false;
       cosineDistance := fun _ _ => NaN;
       db := emptyDb; now := 0%N; script := []; nextId := 0%N;
       history := [];
       storeClock := fun t => t; reached := fun _ _ _ => true;
       requests := [] |} in
  let request :=
    {| Routes.userId := Some (u "u1");
       Routes.action := Some (u "append");
       Routes.content := Some (u "likes tabs");
       Routes.userInfo_email := None;
       Routes.userInfo_name := None |} in
  let w1 := snd (setPersistentMemory (u "u1") [] w) in
  let w2 := snd (Routes.persistentMemoryAction request w1) in
  fst (getPersistentMemory (u "u1") w2) = Ok (Some (u "likes tabs"))
  /\ fst (getPersistentMemory (u "u1") w2)
     <> Ok (Some ([] ++ [nl; nl] ++ u "likes tabs")).
Proof.
  cbv zeta. split.
  - vm_compute. reflexivity.
  - vm_compute. intros H. discriminate H.
Qed.

End PersistentMemoryFacts.

(* ===================================================================== *)
(** * The title of a chat *)
(* ===================================================================== *)

Section TitleFacts.

Lemma deriveTitle_eq (content : jsstring) :
  deriveTitle content
  = firstn 50 (trim content)
      ++ (if Nat.ltb 50 (length content) then u "..." else []).
Proof.
  unfold deriveTitle. rewrite substring_0.
  destruct (Nat.ltb 50 (length content)); [reflexivity|].
  rewrite app_nil_r. reflexivity.
Qed.

(** [getChatSession] never throws, leaves the store as it is, and only
    returns a session with the given identifier and owner. *)
Lemma getChatSession_outcome (userId chatSessionId : jsstring) (w : World) :
  exists found w',
    getChatSession userId chatSessionId w = (Ok found, w')
    /\ db w' = db w
    /\ forall s, found = Some s ->
                 In s (chatSessions (db w))
                 /\ session_id s = chatSessionId
                 /\ session_userId s = userId.
Proof.
  unfold getChatSession, ifDb, tryCatch, bind, ret.
  destruct (connected w);
    [|do 2 eexists; split; [reflexivity | split; [reflexivity | discriminate]]].
  destruct (fails (nextEvent w)) eqn:E.
  - rewrite statement_throws by exact E.
    do 2 eexists; split; [reflexivity | split; [reflexivity | discriminate]].
  - rewrite statement_runs by exact E. cbn [fst snd].
    do 2 eexists; split; [reflexivity | split; [reflexivity|]].
    intros s Hs.
    destruct (filter (sessionIs chatSessionId userId) (chatSessions (db w)))
      as [|x rest] eqn:Ef; [discriminate|].
    simpl in Hs. injection Hs as <-.
    assert (Hin : In x (filter (sessionIs chatSessionId userId)
                               (chatSessions (db w))))
      by (rewrite Ef; left; reflexivity).
    apply filter_In in Hin. destruct Hin as [Hin Hp].
    apply sessionIs_iff in Hp. tauto.
Qed.

(** [saveChatMessage] never throws and never changes a title. *)
Lemma saveChatMessage_outcome (userId chatSessionId role content
                               messageIndex : jsstring) (metadata : Metadata)
      (w : World) :
  exists saved w',
    saveChatMessage userId chatSessionId role content messageIndex metadata w
    = (Ok saved, w')
    /\ titles (db w') = titles (db w).
Proof.
  unfold saveChatMessage, ifDb, tryCatch, bind, ret, newDate,
    insertChatMessage, touchChatSession, raise.
  destruct (connected w); [|do 2 eexists; split; reflexivity].
  destruct (fails (nextEvent w)) eqn:E1.
  - rewrite statement_throws by exact E1. do 2 eexists; split; reflexivity.
  - rewrite statement_runs by exact E1. cbn [fst snd]. cbv iota beta.
    match goal with
    | |- context [statement ?run ?x] =>
        destruct (fails (nextEvent x)) eqn:E2;
        [rewrite (statement_throws _ run x E2)
        |rewrite (statement_runs _ run x E2)]
    end.
    + do 2 eexists; split; reflexivity.
    + cbn [fst snd]. cbv iota beta.
      do 2 eexists; split; [reflexivity|].
      unfold titles. simpl. apply map_updateWhere. reflexivity.
Qed.

Lemma updateChatSessionTitle_steady (userId chatSessionId title : jsstring)
      (w : World) :
  connected w = true -> smooth w ->
  exists w',
    updateChatSessionTitle userId chatSessionId title w = (Ok true, w')
    /\ connected w' = true /\ smooth w'
    /\ titles (db w')
       = map (fun s => if sessionIs chatSessionId userId s
                       then Some title else session_title s)
             (chatSessions (db w)).
Proof.
  intros Hc Hs. unfold updateChatSessionTitle, ifDb, tryCatch, bind, ret, newDate.
  rewrite Hc.
  match goal with
  | |- context [statement ?run w] =>
      destruct (steady_statement _ run w Hc Hs) as [w' [Hrun [Hc' [Hs' Hdb]]]];
      rewrite Hrun
  end.
  exists w'. split; [reflexivity|]. split; [exact Hc'|]. split; [exact Hs'|].
  unfold titles. rewrite Hdb. simpl. unfold updateWhere. rewrite map_map.
  apply map_ext. intros s. destruct (sessionIs chatSessionId userId s); reflexivity.
Qed.

(** [generateChatTitle] with the store enabled and no call failing. *)
Lemma generateChatTitle_steady (userId chatSessionId : jsstring) (w : World) :
  connected w = true -> smooth w ->
  exists w',
    match find isUserMessage (earliestMessages chatSessionId userId 3 (db w))
    with
    | Some m =>
        generateChatTitle userId chatSessionId w
        = (Ok (Some (deriveTitle (msg_content m))), w')
        /\ titles (db w')
           = map (fun s => if sessionIs chatSessionId userId s
                           then Some (deriveTitle (msg_content m))
                           else session_title s)
                 (chatSessions (db w))
    | None =>
        generateChatTitle userId chatSessionId w = (Ok None, w')
        /\ titles (db w') = titles (db w)
    end.
Proof.
  intros Hc Hs. unfold generateChatTitle, ifDb, tryCatch, bind, ret.
  rewrite Hc.
  match goal with
  | |- context [statement ?run w] =>
      destruct (steady_statement _ run w Hc Hs) as [w1 [Hrun [Hc1 [Hs1 Hdb1]]]];
      rewrite Hrun
  end.
  cbn [fst snd] in *. cbv beta iota.
  fold isUserMessage.
  destruct (earliestMessages chatSessionId userId 3 (db w)) as [|m0 ms] eqn:Em.
  - simpl. exists w1. split; [reflexivity|]. unfold titles. rewrite Hdb1. reflexivity.
  - destruct (find isUserMessage (m0 :: ms)) as [m|] eqn:Ef.
    + destruct (updateChatSessionTitle_steady userId chatSessionId
                  (deriveTitle (msg_content m)) w1 Hc1 Hs1)
        as [w2 [Hup [_ [_ Ht]]]].
      exists w2. rewrite Hup. split; [reflexivity|]. rewrite Ht, Hdb1. reflexivity.
    + exists w1. split; [reflexivity|]. unfold titles. rewrite Hdb1. reflexivity.
Qed.

End TitleFacts.

Section TitleTheorem.

(** The POST handler of the messages changes no title when the message is
    not a user message, or when the sessions with the identifier of the
    request already have a non-empty title. *)
Lemma messagesAction_keeps_titles (req : Routes.MessageRequest) (w : World) :
  (Routes.body_role req <> Some (u "user")
   \/ forall s, In s (chatSessions (db w)) ->
                Some (session_id s) = Routes.params_id req ->
                truthyOpt (session_title s) = true) ->
  titles (db (snd (Routes.messagesAction req w))) = titles (db w).
Proof.
  intros H.
  unfold Routes.messagesAction, tryCatch, ifDb, bind, ret.
  destruct (Routes.params_id req) as [sid|] eqn:Esid; [|reflexivity].
  destruct (truthy sid); [|reflexivity]. cbn [negb].
  destruct (connected w); [|reflexivity].
  destruct (Routes.body_userId req) as [uid|]; [|reflexivity].
  destruct (Routes.body_role req) as [role|];
    [|destruct (truthy uid); reflexivity].
  destruct (Routes.body_content req) as [content|];
    [|destruct (truthy uid); reflexivity].
  destruct (Routes.body_messageIndex req) as [messageIndex|];
    [|destruct (truthy uid); reflexivity].
  destruct (truthy uid); [|reflexivity]. cbn [negb].
  destruct (negb (truthy role) || negb (truthy content)
            || negb (truthy messageIndex)); [reflexivity|].
  destruct (getChatSession_outcome uid sid w) as [found [w1 [Hget [Hdb1 Hfound]]]].
  rewrite Hget.
  destruct found as [chatSession|]; [|simpl; rewrite Hdb1; reflexivity].
  destruct (saveChatMessage_outcome uid sid role content messageIndex
              (Routes.body_metadata req) w1) as [saved [w2 [Hsave Ht2]]].
  rewrite Hsave.
  destruct saved as [message|];
    [|simpl; rewrite Ht2; unfold titles; rewrite Hdb1; reflexivity].
  assert (Hskip : eqb role (u "user")
                  && negb (truthyOpt (session_title chatSession)) = false).
  { destruct H as [H|H].
    - destruct (eqb role (u "user")) eqn:E; [|reflexivity].
      apply eqb_eq in E. subst role. contradiction.
    - destruct (Hfound chatSession eq_refl) as [Hin [Hid _]].
      rewrite (H chatSession Hin) by (rewrite Hid; reflexivity).
      apply andb_false_r. }
  rewrite Hskip. simpl. rewrite Ht2. unfold titles. rewrite Hdb1. reflexivity.
Qed.

(** C7, as amended. The title [generateChatTitle] derives is the first 50
    code units of the content of a message with its surrounding white
    space trimmed, followed by an ellipsis exactly when the content as
    stored is longer than 50 code units. With the store enabled and no
    call failing, the message it uses is the first user message among the
    three earliest messages of the session; it returns the title and
    stores it in the sessions with that identifier and owner, and returns
    null without changing a title when there is no such message. The
    handler of new messages leaves every title as it is unless the message
    is a user message and the session has no title or an empty one: a
    session with a non-empty title keeps it, whatever is posted. *)
Theorem chat_title_derivation :
  (forall content,
      deriveTitle content
      = firstn 50 (trim content)
          ++ (if Nat.ltb 50 (length content) then u "..." else []))
  /\ (forall userId chatSessionId w,
         connected w = true -> smooth w ->
         exists w',
           match find isUserMessage
                      (earliestMessages chatSessionId userId 3 (db w)) with
           | Some m =>
               generateChatTitle userId chatSessionId w
               = (Ok (Some (deriveTitle (msg_content m))), w')
               /\ titles (db w')
                  = map (fun s => if sessionIs chatSessionId userId s
                                  then Some (deriveTitle (msg_content m))
                                  else session_title s)
                        (chatSessions (db w))
           | None =>
               generateChatTitle userId chatSessionId w = (Ok None, w')
               /\ titles (db w') = titles (db w)
           end)
  /\ (forall req w,
         (Routes.body_role req <> Some (u "user")
          \/ forall s, In s (chatSessions (db w)) ->
                       Some (session_id s) = Routes.params_id req ->
                       truthyOpt (session_title s) = true) ->
         titles (db (snd (Routes.messagesAction req w))) = titles (db w)).
Proof.
  split; [exact deriveTitle_eq|].
  split; [exact generateChatTitle_steady|].
  exact messagesAction_keeps_titles.
Qed.

(** A session without title whose first message is a user message. *)
Lemma chat_title_derivation_witness :
  let session :=
    {| session_id := u "s1"; session_userId := u "alice";
       session_title := None; session_createdAt := Some 10%N;
       session_updatedAt := Some 10%N; session_lastMessageAt := Some 20%N |} in
  let message :=
    {| msg_id := 0%N; msg_chatSessionId := u "s1"; msg_userId := u "alice";
       msg_role := u "user"; msg_content := u "hello there";
       msg_messageIndex := u "0"; msg_timestamp := Some 20%N;
       msg_metadata := MetaUndefined |} in
  let w :=
    {| connected := true; apiKey := false;
       cosineDistance := fun _ _ => NaN;
       db := set_chatMessages (fun _ => [message])
               (set_chatSessions (fun _ => [session]) emptyDb);
       now := 30%N; script := []; nextId := 1%N; history := [];
       storeClock := fun t => t; reached := fun _ _ _ => true;
       requests := [] |} in
  exists w',
    generateChatTitle (u "alice") (u "s1") w
    = (Ok (Some (u "hello there")), w')
    /\ titles (db w') = [Some (u "hello there")].
Proof.
  intros session message w.
  destruct (proj1 (proj2 chat_title_derivation) (u "alice") (u "s1") w
              eq_refl (Forall_nil _)) as [w' H].
  exists w'. exact H.
Defined.

(** C7 as stated fails: the title is cut out of the trimmed content. Here
    the content has three code units, nothing is truncated, and yet the
    title is not the content. *)
Lemma generateChatTitle_trims_content :
  let session :=
    {| session_id := u "s1"; session_userId := u "alice";
       session_title := None; session_createdAt := Some 10%N;
       session_updatedAt := Some 10%N; session_lastMessageAt := Some 20%N |} in
  let message :=
    {| msg_id := 0%N; msg_chatSessionId := u "s1"; msg_userId := u "alice";
       msg_role := u "user"; msg_content := u " hi";
       msg_messageIndex := u "0"; msg_timestamp := Some 20%N;
       msg_metadata := MetaUndefined |} in
  let w :=
    {| connected := true; apiKey := false;
       cosineDistance := fun _ _ => NaN;
       db := set_chatMessages (fun _ => [message])
               (set_chatSessions (fun _ => [session]) emptyDb);
       now := 30%N; script := []; nextId := 1%N; history := [];
       storeClock := fun t => t; reached := fun _ _ _ => true;
       requests := [] |} in
  fst (generateChatTitle (u "alice") (u "s1") w) = Ok (Some (u "hi"))
  /\ length (msg_content message) <= 50
  /\ u "hi" <> firstn 50 (msg_content message).
Proof.
  cbv zeta. split; [vm_compute; reflexivity|].
  split; [simpl; lia|].
  intros H. vm_compute in H. discriminate H.
Qed.

End TitleTheorem.

(* ===================================================================== *)
(** * Worked examples *)
(* ===================================================================== *)

Section Examples.

Example toFixed2_rounds_half_up :
  toFixed2 (3 # 4) = u "0.75"
  /\ toFixed2 (141 # 200) = u "0.71"
  /\ toFixed2 (999 # 1000) = u "1.00"
  /\ toFixed2 (7 # 100) = u "0.07".
Proof. repeat split; vm_compute; reflexivity. Qed.

(** A user with a persistent memory and two stored memories, one near the
    query (distance 1/4) and one far from it (distance 1/2): the far one
    is filtered out. *)
Example personalized_context_of_a_user :
  let near :=
    {| mem_id := 0%N; mem_userId := u "u1"; mem_appId := None;
       mem_content := u "I use TypeScript"; mem_embedding := Some [1%Q];
       mem_metadata := MetaUndefined; mem_timestamp := Some 3%N |} in
  let far :=
    {| mem_id := 1%N; mem_userId := u "u1"; mem_appId := None;
       mem_content := u "I prefer tabs"; mem_embedding := Some [2%Q];
       mem_metadata := MetaUndefined; mem_timestamp := Some 4%N |} in
  let memory :=
    {| pm_id := 2%N; pm_userId := u "u1"; pm_content := u "Senior engineer";
       pm_createdAt := Some 1%N; pm_updatedAt := Some 1%N |} in
  let w :=
    {| connected := true; apiKey := true;
       cosineDistance :=
         fun stored _ =>
           match stored with
           | [q] => Num (q / 4)
           | _ => NaN
           end;
       db := set_userPersistentMemory (fun _ => [memory])
               (set_memoryEmbeddings (fun _ => [far; near]) emptyDb);
       now := 10%N; script := []; nextId := 3%N; history := [];
       storeClock := fun t => t; reached := fun _ _ _ => true;
       requests := [] |} in
  fst (getPersonalizedContext (u "u1") (u "what language do I use") None w)
  = Ok ([nl] ++ u "## Persistent User Context" ++ [nl]
          ++ u "Senior engineer" ++ [nl; nl]
          ++ u "## Recent Relevant Context" ++ [nl]
          ++ u "Based on previous interactions:" ++ [nl]
          ++ u "- I use TypeScript (similarity: 0.75)" ++ [nl]
          ++ [nl]).
Proof. vm_compute. reflexivity. Qed.

(** The plan of the planning prompt, cut down to two sections. *)
Example parse_a_small_plan :
  let text :=
    PlanParser.marker ++ [nl] ++ u "# Project Plan: Chat" ++ [nl; nl]
      ++ u "## Project Overview" ++ [nl]
      ++ u "- **Vision**: talk to a model" ++ [nl; nl]
      ++ u "## Requirements" ++ [nl]
      ++ u "### Functional Requirements" ++ [nl]
      ++ u "- send a message" ++ [nl]
      ++ u "- keep the history" ++ [nl] in
  option_map
    (fun plan =>
       (PlanParser.title plan,
        PlanParser.vision (PlanParser.overview plan),
        PlanParser.functional (PlanParser.requirements plan)))
    (PlanParser.parseStructuredPlan text)
  = Some (u "Chat", Some (u "talk to a model"),
          Some [u "send a message"; u "keep the history"]).
Proof. vm_compute. reflexivity. Qed.

End Examples.

(* ===================================================================== *)
(** * Further properties: persistent memory *)
(* ===================================================================== *)

Section PersistentMemoryMore.

Lemma filter_deleteWhere_same (A : Type) (p : A -> bool) (l : list A) :
  filter p (deleteWhere p l) = [].
Proof.
  apply filter_none. intros x Hx. unfold deleteWhere in Hx.
  apply filter_In in Hx. destruct Hx as [_ Hx].
  destruct (p x); [discriminate | reflexivity].
Qed.

Lemma filter_filter_same (A : Type) (p : A -> bool) (l : list A) :
  filter p (filter p l) = filter p l.
Proof.
  apply filter_all. intros x Hx. apply filter_In in Hx. tauto.
Qed.

(** The two statements of [setPersistentMemory], both succeeding. *)
Lemma setPersistentMemory_rows (userId content : jsstring) (w : World) :
  connected w = true -> smooth w ->
  exists w' row,
    setPersistentMemory userId content w = (Ok tt, w')
    /\ connected w' = true /\ smooth w'
    /\ pm_userId row = userId /\ pm_content row = content
    /\ userPersistentMemory (db w')
       = deleteWhere (ownedBy userId) (userPersistentMemory (db w)) ++ [row].
Proof.
  intros Hc Hs. unfold setPersistentMemory, ifDb, tryCatch, bind, ret.
  rewrite Hc.
  match goal with
  | |- context [statement ?run w] =>
      destruct (steady_statement _ run w Hc Hs) as [w1 [Hrun [Hc1 [Hs1 Hdb1]]]];
      rewrite Hrun
  end.
  match goal with
  | |- context [statement ?run w1] =>
      destruct (steady_statement _ run w1 Hc1 Hs1)
        as [w2 [Hrun2 [Hc2 [Hs2 Hdb2]]]];
      rewrite Hrun2
  end.
  exists w2,
    {| pm_id := nextId w1; pm_userId := userId; pm_content := content;
       pm_createdAt := Some (storeTime w1);
       pm_updatedAt := Some (storeTime w1) |}.
  cbn [fst snd] in *.
  split; [reflexivity|]. split; [exact Hc2|]. split; [exact Hs2|].
  split; [reflexivity|]. split; [reflexivity|].
  rewrite Hdb2, Hdb1. reflexivity.
Qed.

(** X1. With the store enabled and no call failing, what
    [setPersistentMemory] stores is what [getPersistentMemory] returns
    next, whatever the user had stored before. *)
Theorem persistent_memory_round_trip (userId content : jsstring) (w : World) :
  connected w = true ->
  smooth w ->
  exists w1 w2,
    setPersistentMemory userId content w = (Ok tt, w1)
    /\ getPersistentMemory userId w1 = (Ok (Some content), w2).
Proof.
  intros Hc Hs.
  destruct (setPersistentMemory_steady userId content w Hc Hs)
    as [w1 [Hset [Hc1 [Hs1 Hst]]]].
  destruct (getPersistentMemory_steady userId w1 Hc1 Hs1) as [w2 [Hget _]].
  exists w1, w2. split; [exact Hset|]. rewrite Hget, Hst. reflexivity.
Qed.

Lemma persistent_memory_round_trip_witness :
  let old :=
    {| pm_id := 0%N; pm_userId := u "u1"; pm_content := u "old notes";
       pm_createdAt := Some 1%N; pm_updatedAt := Some 1%N |} in
  let w :=
    {| connected := true; apiKey := false;
       cosineDistance := fun _ _ => NaN;
       db := set_userPersistentMemory (fun _ => [old]) emptyDb;
       now := 5%N; script := []; nextId := 1%N; history := [];
       storeClock := fun t => t; reached := fun _ _ _ => true;
       requests := [] |} in
  exists w1 w2,
    setPersistentMemory (u "u1") (u "new notes") w = (Ok tt, w1)
    /\ getPersistentMemory (u "u1") w1 = (Ok (Some (u "new notes")), w2).
Proof.
  intros old w.
  apply (persistent_memory_round_trip (u "u1") (u "new notes") w).
  - reflexivity.
  - constructor.
Defined.

(** X2. After a successful [setPersistentMemory] the user has exactly one
    row of persistent memory, the new one, however many there were, and
    the rows of the other users are the ones there were, in their
    order. *)
Theorem setPersistentMemory_one_row (userId content : jsstring) (w : World) :
  connected w = true ->
  smooth w ->
  exists w' row,
    setPersistentMemory userId content w = (Ok tt, w')
    /\ pm_userId row = userId /\ pm_content row = content
    /\ filter (ownedBy userId) (userPersistentMemory (db w')) = [row]
    /\ filter (fun r => negb (ownedBy userId r)) (userPersistentMemory (db w'))
       = filter (fun r => negb (ownedBy userId r))
                (userPersistentMemory (db w)).
Proof.
  intros Hc Hs.
  destruct (setPersistentMemory_rows userId content w Hc Hs)
    as [w' [row [Hset [_ [_ [Hu [Hcontent Hrows]]]]]]].
  exists w', row. split; [exact Hset|]. split; [exact Hu|].
  split; [exact Hcontent|].
  assert (Hown : ownedBy userId row = true)
    by (unfold ownedBy; rewrite Hu; apply eqb_refl).
  rewrite Hrows, !filter_app. split.
  - rewrite filter_deleteWhere_same. simpl. rewrite Hown. reflexivity.
  - simpl. rewrite Hown. simpl. rewrite app_nil_r.
    unfold deleteWhere. apply filter_filter_same.
Qed.

Lemma setPersistentMemory_one_row_witness :
  let row (id : N) (user text : jsstring) :=
    {| pm_id := id; pm_userId := user; pm_content := text;
       pm_createdAt := Some 1%N; pm_updatedAt := Some 1%N |} in
  let w :=
    {| connected := true; apiKey := false;
       cosineDistance := fun _ _ => NaN;
       db := set_userPersistentMemory
               (fun _ => [row 0%N (u "u1") (u "a"); row 1%N (u "u2") (u "b");
                          row 2%N (u "u1") (u "c")]) emptyDb;
       now := 5%N; script := []; nextId := 3%N; history := [];
       storeClock := fun t => t; reached := fun _ _ _ => true;
       requests := [] |} in
  exists w' new,
    setPersistentMemory (u "u1") (u "d") w = (Ok tt, w')
    /\ pm_userId new = u "u1" /\ pm_content new = u "d"
    /\ filter (ownedBy (u "u1")) (userPersistentMemory (db w')) = [new]
    /\ filter (fun r => negb (ownedBy (u "u1") r))
              (userPersistentMemory (db w'))
       = filter (fun r => negb (ownedBy (u "u1") r))
                (userPersistentMemory (db w)).
Proof.
  intros row w.
  apply (setPersistentMemory_one_row (u "u1") (u "d") w).
  - reflexivity.
  - constructor.
Defined.

(** X3. [setPersistentMemory] deletes and inserts in two statements. When
    the delete succeeds and the insert throws, the call still returns
    normally, and the user is left without any persistent memory: what
    was stored before is gone. *)
Theorem setPersistentMemory_can_lose_memory (userId content : jsstring)
        (w : World) (first second : Event) (rest : list Event) :
  connected w = true ->
  script w = first :: second :: rest ->
  fails first = false ->
  fails second = true ->
  exists w',
    setPersistentMemory userId content w = (Ok tt, w')
    /\ userPersistentMemory (db w')
       = deleteWhere (ownedBy userId) (userPersistentMemory (db w))
    /\ stored userId (userPersistentMemory (db w')) = None.
Proof.
  intros Hc Hscript H1 H2.
  unfold setPersistentMemory, ifDb, tryCatch, bind, ret. rewrite Hc.
  assert (E1 : fails (nextEvent w) = false)
    by (unfold nextEvent; rewrite Hscript; exact H1).
  rewrite statement_runs by exact E1. cbn [fst snd].
  match goal with
  | |- context [statement ?run ?x] =>
      assert (E2 : fails (nextEvent x) = true)
        by (unfold nextEvent; simpl; rewrite Hscript; exact H2);
      rewrite (statement_throws _ run x E2)
  end.
  eexists. split; [reflexivity|]. simpl. split; [reflexivity|].
  unfold stored. rewrite filter_deleteWhere_same. reflexivity.
Qed.

Lemma setPersistentMemory_can_lose_memory_witness :
  let old :=
    {| pm_id := 0%N; pm_userId := u "u1"; pm_content := u "old notes";
       pm_createdAt := Some 1%N; pm_updatedAt := Some 1%N |} in
  let ok := {| outbound := 1; inbound := 1; fails := false; vector := [] |} in
  let ko := {| outbound := 1; inbound := 1; fails := true; vector := [] |} in
  let w :=
    {| connected := true; apiKey := false;
       cosineDistance := fun _ _ => NaN;
       db := set_userPersistentMemory (fun _ => [old]) emptyDb;
       now := 5%N; script := [ok; ko]; nextId := 1%N; history := [];
       storeClock := fun t => t; reached := fun _ _ _ => true;
       requests := [] |} in
  exists w',
    setPersistentMemory (u "u1") (u "new notes") w = (Ok tt, w')
    /\ userPersistentMemory (db w')
       = deleteWhere (ownedBy (u "u1")) (userPersistentMemory (db w))
    /\ stored (u "u1") (userPersistentMemory (db w')) = None.
Proof.
  intros old ok ko w.
  apply (setPersistentMemory_can_lose_memory (u "u1") (u "new notes") w
           ok ko []); reflexivity.
Defined.

End PersistentMemoryMore.

(* ===================================================================== *)
(** * Further properties: the similarity search *)
(* ===================================================================== *)

Section SearchMore.

(** [searchMemories] runs its query on the store as it is. *)
Lemma searchMemories_reads (userId query : jsstring)
      (appId : option jsstring) (limit : nat) (w : World) :
  exists results w',
    searchMemories userId query appId limit w = (Ok results, w')
    /\ db w' = db w
    /\ (results = []
        \/ exists date queryVector,
             results = surfaced date
                         (similarityQuery (cosineDistance w) (reached w)
                                          userId appId queryVector limit
                                          (db w))).
Proof.
  unfold searchMemories, ifDb, tryCatch, bind, createEmbedding,
    newDate, distanceOperator, indexScan, ret.
  cbv zeta.
  destruct (connected w);
    [|do 2 eexists; split; [reflexivity | split; [reflexivity | left; reflexivity]]].
  destruct (apiKey w);
    [|do 2 eexists; split; [reflexivity | split; [reflexivity | left; reflexivity]]].
  destruct (fails (nextEvent w));
    [do 2 eexists; split; [reflexivity | split; [reflexivity | left; reflexivity]]|].
  destruct (fails (nextEvent (arrive (nextEvent w) (consume w)))) eqn:E.
  - rewrite statement_throws by exact E.
    do 2 eexists; split; [reflexivity | split; [reflexivity | left; reflexivity]].
  - rewrite statement_runs by exact E. cbn [fst snd].
    do 2 eexists; split; [reflexivity|]. split; [reflexivity|].
    right. do 2 eexists. reflexivity.
Qed.

Lemma whereClause_scope (userId : jsstring) (appId : option jsstring)
      (r : MemoryEmbedding) :
  whereClause userId appId r = true ->
  mem_userId r = userId
  /\ (truthyOpt appId = true -> mem_appId r = appId).
Proof.
  unfold whereClause. rewrite andb_true_iff, eqb_eq. intros [Hu Ha].
  split; [exact Hu|]. intros Ht. rewrite Ht in Ha.
  destruct (mem_appId r) as [a|], appId as [b|]; try discriminate.
  apply eqb_eq in Ha. rewrite Ha. reflexivity.
Qed.

(** X4. In every world, [searchMemories] returns at most [limit] results,
    and each of them is a stored memory of the given user, and of the
    given app when one is given: the memories of another user, or of
    another app, are never returned. *)
Theorem searchMemories_scoped (userId query : jsstring)
        (appId : option jsstring) (limit : nat) (w : World) :
  exists results,
    fst (searchMemories userId query appId limit w) = Ok results
    /\ length results <= limit
    /\ forall m, In m results ->
         exists r, In r (memoryEmbeddings (db w))
                   /\ mem_userId r = userId
                   /\ (truthyOpt appId = true -> mem_appId r = appId)
                   /\ content m = mem_content r
                   /\ metadata m = mem_metadata r.
Proof.
  destruct (searchMemories_reads userId query appId limit w)
    as [results [w' [Hrun [_ Hres]]]].
  exists results. rewrite Hrun. split; [reflexivity|].
  destruct Hres as [-> | [date [v ->]]].
  - split; [simpl; lia | intros m []].
  - split.
    + etransitivity; [apply surfaced_length | apply similarityQuery_length].
    + intros m Hm. unfold surfaced in Hm. apply filter_In in Hm.
      destruct Hm as [Hm _]. apply in_map_iff in Hm.
      destruct Hm as [row [<- Hrow]].
      unfold similarityQuery in Hrow. apply in_map_iff in Hrow.
      destruct Hrow as [r [<- Hr]]. apply In_firstn in Hr.
      apply -> orderBy_In in Hr. apply filter_In in Hr.
      destruct Hr as [Hr Hw]. apply filter_In in Hr.
      destruct Hr as [Hr _]. apply whereClause_scope in Hw.
      destruct Hw as [Hu Ha]. exists r. simpl. auto.
Qed.

Lemma StronglySorted_firstn (A : Type) (R : A -> A -> Prop) (n : nat)
      (l : list A) :
  StronglySorted R l -> StronglySorted R (firstn n l).
Proof.
  revert l. induction n as [|n IH]; intros [|x l] Hs; simpl;
    try constructor.
  - apply IH. apply StronglySorted_inv in Hs. tauto.
  - apply StronglySorted_inv in Hs. destruct Hs as [_ Hx].
    rewrite Forall_forall in *. intros y Hy. apply Hx.
    apply In_firstn in Hy. exact Hy.
Qed.

(** Of two stored memories, the nearer one is at least as similar, when
    the farther one passes the filter. *)
Lemma nearer_is_more_similar (dist : Vec -> Vec -> JsNumber) (v : Vec)
      (near far : MemoryEmbedding) :
  distance_leb (distanceTo dist v near) (distanceTo dist v far) = true ->
  (7 # 10 < relevance dist v far)%Q ->
  (relevance dist v far <= relevance dist v near)%Q.
Proof.
  unfold relevance.
  destruct (distanceTo dist v far) as [[|y]|]; cbn [oneMinus orZero];
    intros Hle Hfar;
    try (exfalso; revert Hfar; apply Qle_not_lt; discriminate).
  destruct (distanceTo dist v near) as [[|x]|];
    cbn [oneMinus orZero distance_leb] in *; try discriminate.
  apply Qle_bool_iff in Hle.
  assert (Hxy : (1 - y <= 1 - x)%Q) by lra.
  pose proof (float8_le (1 - y)%Q (1 - x)%Q Hxy). lra.
Qed.

Lemma surfaced_sorted (dist : Vec -> Vec -> JsNumber) (v : Vec) (date : Time)
      (l : list MemoryEmbedding) :
  StronglySorted
    (fun a b => distance_leb (distanceTo dist v a) (distanceTo dist v b) = true)
    l ->
  StronglySorted (fun a b => (similarity b <= similarity a)%Q)
    (surfaced date
       (map (fun r =>
               {| row_content := mem_content r; row_metadata := mem_metadata r;
                  row_timestamp := mem_timestamp r;
                  row_similarity := oneMinus (distanceTo dist v r) |}) l)).
Proof.
  induction l as [|a l IH]; intros Hs; [constructor|].
  apply StronglySorted_inv in Hs. destruct Hs as [Hs Ha].
  specialize (IH Hs). unfold surfaced in *. simpl.
  destruct (Qgtb (orZero (oneMinus (distanceTo dist v a))) (7 # 10)) eqn:E;
    [|exact IH].
  constructor; [exact IH|].
  apply Forall_forall. intros m Hm. apply filter_In in Hm.
  destruct Hm as [Hm Hpass]. apply Qgtb_lt in Hpass.
  apply in_map_iff in Hm. destruct Hm as [row [<- Hrow]].
  apply in_map_iff in Hrow. destruct Hrow as [b [<- Hb]].
  simpl in *. rewrite Forall_forall in Ha.
  exact (nearer_is_more_similar dist v a b (Ha b Hb) Hpass).
Qed.

(** X5. In every world, the results of [searchMemories] come most similar
    first: no result is more similar to the query than a result before
    it. *)
Theorem searchMemories_most_similar_first (userId query : jsstring)
        (appId : option jsstring) (limit : nat) (w : World) :
  exists results,
    fst (searchMemories userId query appId limit w) = Ok results
    /\ StronglySorted (fun a b => (similarity b <= similarity a)%Q) results.
Proof.
  destruct (searchMemories_reads userId query appId limit w)
    as [results [w' [Hrun [_ Hres]]]].
  exists results. rewrite Hrun. split; [reflexivity|].
  destruct Hres as [-> | [date [v ->]]]; [constructor|].
  unfold similarityQuery. apply surfaced_sorted.
  apply StronglySorted_firstn.
  apply (orderBy_sorted _
           (fun a b => distance_leb (distanceTo (cosineDistance w) v a)
                                    (distanceTo (cosineDistance w) v b))).
  - intros a b. apply distance_leb_total.
  - intros a b c. apply distance_leb_trans.
Qed.

End SearchMore.

Section StoreThenSearch.

(** X6. With the store enabled, an API key, no call failing and a store
    that ranks exactly: when the similarity the store computes between
    the vector of a memory stored by [storeMemory] and the vector of a
    later query is above 0.7, the memory is not lost to a search of the
    same user and app. The search that follows, with a limit of one or
    more, returns a result. *)
Theorem stored_memory_is_found (userId content query : jsstring)
        (appId : option jsstring) (meta : Metadata) (limit : nat) (w : World)
        (e1 e2 e3 : Event) (rest : list Event) :
  connected w = true -> apiKey w = true -> smooth w -> 0 < limit ->
  script w = e1 :: e2 :: e3 :: rest ->
  exactScan w ->
  (7 # 10 < similarityOf w (vector e1) (vector e3))%Q ->
  exists w1 results,
    storeMemory userId content appId meta w = (Ok tt, w1)
    /\ fst (searchMemories userId query appId limit w1) = Ok results
    /\ results <> [].
Proof.
  intros Hc Hk Hs Hlimit Hscript Hexact Hnear.
  assert (Hf : fails e1 = false /\ fails e2 = false
               /\ Forall (fun e => fails e = false) (e3 :: rest)).
  { unfold smooth in *. rewrite Hscript in Hs.
    inversion Hs as [|? ? H1 Hs1]; subst.
    inversion Hs1 as [|? ? H2 Hs2]; subst. auto. }
  destruct Hf as [Hf1 [Hf2 Hs3]].
  unfold storeMemory, ifDb, tryCatch, bind, createEmbedding, ret.
  rewrite Hc, Hk.
  assert (He1 : nextEvent w = e1) by (unfold nextEvent; rewrite Hscript; reflexivity).
  rewrite He1, Hf1.
  set (w0 := request content (arrive e1 (consume w))).
  assert (He2 : nextEvent w0 = e2)
    by (unfold nextEvent, w0; simpl; rewrite Hscript; reflexivity).
  rewrite statement_runs by (rewrite He2; exact Hf2).
  cbn [fst snd]. rewrite He2.
  match goal with
  | |- exists w1 results, (_, ?w') = _ /\ _ => set (w1 := w')
  end.
  assert (Hc1 : connected w1 = true) by exact Hc.
  assert (Hk1 : apiKey w1 = true) by exact Hk.
  assert (Hscript1 : script w1 = e3 :: rest)
    by (unfold w1, w0; simpl; rewrite Hscript; reflexivity).
  assert (Hs1 : smooth w1) by (unfold smooth; rewrite Hscript1; exact Hs3).
  destruct (searchMemories_nothing_relevant userId query appId limit w1
              Hc1 Hk1 Hs1 Hlimit) as [results [w2 [Hrun [_ Hiff]]]].
  exists w1, results. split; [reflexivity|].
  split; [rewrite Hrun; reflexivity|].
  intros Hnil. destruct Hiff as [Hiff _]. specialize (Hiff Hnil).
  clear Hnil; rename Hiff into Hnil.
  set (row := {| mem_id := nextId w0; mem_userId := userId;
                 mem_appId := orNull appId; mem_content := content;
                 mem_embedding := Some (vector e1); mem_metadata := meta;
                 mem_timestamp := Some (storeTime w0) |}).
  apply (Hnil row).
  - unfold w1. simpl. apply in_or_app. right. left. reflexivity.
  - change (reached w1) with (reached w). apply Hexact.
  - unfold whereClause, row. simpl. rewrite eqb_refl. simpl.
    unfold orNull. destruct (truthyOpt appId) eqn:Ht; [|reflexivity].
    destruct appId as [a|]; [apply eqb_refl | discriminate].
  - assert (He3 : nextEvent w1 = e3)
      by (unfold nextEvent; rewrite Hscript1; reflexivity).
    rewrite He3. exact Hnear.
Qed.

Lemma stored_memory_is_found_witness :
  let w := {| connected := true; apiKey := true;
              cosineDistance := fun _ _ => Num (1 # 10);
              db := emptyDb; now := 0%N;
              script := [quiet; quiet; quiet]; nextId := 0%N;
              history := [];
              storeClock := fun t => t; reached := fun _ _ _ => true;
              requests := [] |} in
  exists w1 results,
    storeMemory (u "ann") (u "likes tea") None MetaUndefined w = (Ok tt, w1)
    /\ fst (searchMemories (u "ann") (u "tea") None 3 w1) = Ok results
    /\ results <> [].
Proof.
  intros w.
  apply (stored_memory_is_found (u "ann") (u "likes tea") (u "tea") None
           MetaUndefined 3 w quiet quiet quiet []).
  - reflexivity.
  - reflexivity.
  - repeat constructor.
  - lia.
  - reflexivity.
  - intros v table m. reflexivity.
  - vm_compute. reflexivity.
Defined.

End StoreThenSearch.

(* ===================================================================== *)
(** * Further properties: users *)
(* ===================================================================== *)

Section UserFacts.

Lemma users_set_users (f : list User -> list User) (d : Db) :
  users (set_users f d) = f (users d).
Proof. reflexivity. Qed.

Lemma filter_updateWhere_kept (A : Type) (p q : A -> bool) (f : A -> A)
      (l : list A) :
  (forall x, p x = true -> q x = false /\ q (f x) = false) ->
  filter q (updateWhere p f l) = filter q l.
Proof.
  intros H. induction l as [|x l IH]; simpl; [reflexivity|].
  destruct (p x) eqn:E.
  - destruct (H x E) as [H1 H2]. rewrite H1, H2. exact IH.
  - rewrite IH. reflexivity.
Qed.

Lemma filter_updateWhere_same (A : Type) (p : A -> bool) (f : A -> A)
      (l : list A) :
  (forall x, p (f x) = p x) ->
  filter p (updateWhere p f l) = map f (filter p l).
Proof.
  intros H. induction l as [|x l IH]; simpl; [reflexivity|].
  destruct (p x) eqn:E.
  - rewrite H, E. simpl. rewrite IH. reflexivity.
  - rewrite E. exact IH.
Qed.

(** What a call of [ensureUser] can do to the table of users. *)
Lemma ensureUser_outcome (userId : jsstring) (email name : option jsstring)
      (w : World) :
  exists r w',
    ensureUser userId email name w = (Ok r, w')
    /\ (users (db w') = users (db w)
        \/ (exists f,
              (forall x, user_id (f x) = user_id x)
              /\ users (db w')
                 = updateWhere (fun r => eqb (user_id r) userId) f
                               (users (db w)))
        \/ (filter (fun r => eqb (user_id r) userId) (users (db w)) = []
            /\ exists new,
                 user_id new = userId
                 /\ users (db w') = users (db w) ++ [new])).
Proof.
  unfold ensureUser, ifDb, tryCatch, bind, ret, newDate.
  destruct (connected w);
    [|do 2 eexists; split; [reflexivity | left; reflexivity]].
  destruct (fails (nextEvent w)) eqn:E1.
  { rewrite statement_throws by exact E1.
    do 2 eexists; split; [reflexivity | left; reflexivity]. }
  rewrite statement_runs by exact E1. cbn [fst snd]. cbv beta iota.
  set (w1 := arrive (nextEvent w) (commit (db w) (consume w))).
  destruct (filter (fun r => eqb (user_id r) userId) (users (db w)))
    as [|existing others] eqn:Ef; cbn [firstn]; cbv beta iota.
  - destruct (fails (nextEvent w1)) eqn:E2.
    + rewrite statement_throws by exact E2.
      do 2 eexists; split; [reflexivity | left; reflexivity].
    + rewrite statement_runs by exact E2. cbn [fst snd].
      do 2 eexists; split; [reflexivity|]. right. right.
      split; [reflexivity|]. eexists. split; [|reflexivity]. reflexivity.
  - destruct (truthyOpt email || truthyOpt name); cbv beta iota.
    + destruct (fails (nextEvent w1)) eqn:E2.
      * rewrite statement_throws by exact E2.
        do 2 eexists; split; [reflexivity | left; reflexivity].
      * rewrite statement_runs by exact E2. cbn [fst snd].
        do 2 eexists; split; [reflexivity|]. right. left.
        eexists. split; [|reflexivity]. intros x. reflexivity.
    + do 2 eexists; split; [reflexivity | left; reflexivity].
Qed.

(** X7. In every world, [ensureUser] returns without throwing, keeps the
    identifiers of the table of users distinct when they were, and leaves
    the rows of every other user as they were. *)
Theorem ensureUser_keeps_primary_key (userId : jsstring)
        (email name : option jsstring) (w : World) :
  NoDup (map user_id (users (db w))) ->
  exists r w',
    ensureUser userId email name w = (Ok r, w')
    /\ NoDup (map user_id (users (db w')))
    /\ filter (fun r => negb (eqb (user_id r) userId)) (users (db w'))
       = filter (fun r => negb (eqb (user_id r) userId)) (users (db w)).
Proof.
  intros Hnd.
  destruct (ensureUser_outcome userId email name w)
    as [r [w' [Hrun [Hsame | [[f [Hid Hupd]] | [Hnone [new [Hnew Happ]]]]]]]];
    exists r, w'; (split; [exact Hrun|]).
  - rewrite Hsame. split; [exact Hnd | reflexivity].
  - rewrite Hupd. split.
    + rewrite map_updateWhere by exact Hid. exact Hnd.
    + apply filter_updateWhere_kept. intros x Hx.
      rewrite Hid, Hx. split; reflexivity.
  - rewrite Happ. split.
    + rewrite map_app. simpl. rewrite Hnew.
      apply NoDup_app; [exact Hnd | constructor; [intros [] | constructor] |].
      intros x Hx [<- | []]. apply in_map_iff in Hx.
      destruct Hx as [r0 [Hr0 Hin]].
      assert (Hin' : In r0 (filter (fun r => eqb (user_id r) userId)
                                   (users (db w)))).
      { apply filter_In. split; [exact Hin|]. apply eqb_eq. exact Hr0. }
      rewrite Hnone in Hin'. exact Hin'.
    + rewrite filter_app. simpl. rewrite Hnew, eqb_refl. simpl.
      apply app_nil_r.
Qed.

Lemma ensureUser_keeps_primary_key_witness :
  let ann := {| user_id := u "ann"; user_email := None; user_name := None;
                user_isGoogleUser := false; user_createdAt := Some 1%N;
                user_updatedAt := Some 1%N |} in
  let w := {| connected := true; apiKey := false;
              cosineDistance := fun _ _ => NaN;
              db := set_users (fun _ => [ann]) emptyDb; now := 5%N;
              script := []; nextId := 0%N; history := [];
              storeClock := fun t => t; reached := fun _ _ _ => true;
              requests := [] |} in
  exists r w',
    ensureUser (u "bob") (Some (u "bob@example.org")) None w = (Ok r, w')
    /\ NoDup (map user_id (users (db w')))
    /\ filter (fun r => negb (eqb (user_id r) (u "bob"))) (users (db w'))
       = filter (fun r => negb (eqb (user_id r) (u "bob"))) (users (db w)).
Proof.
  intros ann w.
  apply (ensureUser_keeps_primary_key (u "bob") (Some (u "bob@example.org"))
           None w).
  simpl. constructor; [intros [] | constructor].
Defined.

(** X8. With the store enabled and no call failing, for a user that
    exists: [ensureUser] returns the user with the given email and name
    where they are given and not empty, and with the stored ones
    otherwise. An email or a name that is absent or empty never erases
    the stored one, and the identifier, the Google flag and the creation
    time are kept; the returned row is the one the table holds
    afterwards. *)
Theorem ensureUser_merges_profile (userId : jsstring)
        (email name : option jsstring) (w : World) (existing : User) :
  connected w = true -> smooth w ->
  NoDup (map user_id (users (db w))) ->
  In existing (users (db w)) -> user_id existing = userId ->
  exists r w',
    ensureUser userId email name w = (Ok (Some r), w')
    /\ merged email name existing r
    /\ In r (users (db w'))
    /\ length (users (db w')) = length (users (db w)).
Proof.
  intros Hc Hs Hnd Hin Hid.
  unfold ensureUser, ifDb, tryCatch, bind, ret, newDate.
  rewrite Hc.
  rewrite statement_runs by (apply smooth_next; exact Hs).
  cbn [fst snd]. cbv beta iota.
  set (w1 := arrive (nextEvent w) (commit (db w) (consume w))).
  assert (Hs1 : smooth w1)
    by (apply smooth_arrive, smooth_commit, smooth_consume, Hs).
  set (p := fun r => eqb (user_id r) userId).
  assert (Hfilter : In existing (filter p (users (db w)))).
  { apply filter_In. split; [exact Hin|]. apply eqb_eq. exact Hid. }
  destruct (filter p (users (db w))) as [|first others] eqn:Ef;
    [contradiction|].
  assert (Hfirst : first = existing).
  { assert (Hf : In first (filter p (users (db w))))
      by (rewrite Ef; left; reflexivity).
    apply filter_In in Hf. destruct Hf as [Hf1 Hf2]. apply eqb_eq in Hf2.
    apply (primary_key _ _ user_id (users (db w)) first existing Hnd Hf1 Hin).
    rewrite Hf2, Hid. reflexivity. }
  subst first. cbn [firstn]. cbv beta iota.
  destruct (truthyOpt email || truthyOpt name) eqn:Et; cbv beta iota.
  - rewrite statement_runs by (apply smooth_next; exact Hs1).
    cbn [fst snd]. change (db w1) with (db w). fold p. rewrite Ef.
    simpl map. simpl hd_error.
    do 2 eexists. split; [reflexivity|]. split; [|split].
    + unfold merged. simpl. repeat split; reflexivity.
    + simpl. unfold updateWhere. apply in_map_iff. exists existing.
      split; [|exact Hin].
      replace (p existing) with true; [reflexivity|].
      symmetry. apply eqb_eq. exact Hid.
    + simpl. unfold updateWhere. apply length_map.
  - apply orb_false_iff in Et. destruct Et as [Et1 Et2].
    do 2 eexists. split; [reflexivity|]. split; [|split].
    + unfold merged. rewrite Et1, Et2. repeat split; reflexivity.
    + exact Hin.
    + reflexivity.
Qed.

Lemma ensureUser_merges_profile_witness :
  let ann := {| user_id := u "ann"; user_email := Some (u "ann@example.org");
                user_name := Some (u "Ann"); user_isGoogleUser := false;
                user_createdAt := Some 1%N; user_updatedAt := Some 1%N |} in
  let w := {| connected := true; apiKey := false;
              cosineDistance := fun _ _ => NaN;
              db := set_users (fun _ => [ann]) emptyDb; now := 5%N;
              script := []; nextId := 0%N; history := [];
              storeClock := fun t => t; reached := fun _ _ _ => true;
              requests := [] |} in
  exists r w',
    ensureUser (u "ann") (Some []) (Some (u "Ann B.")) w = (Ok (Some r), w')
    /\ merged (Some []) (Some (u "Ann B.")) ann r
    /\ In r (users (db w'))
    /\ length (users (db w')) = length (users (db w)).
Proof.
  intros ann w.
  apply (ensureUser_merges_profile (u "ann") (Some []) (Some (u "Ann B.")) w
           ann).
  - reflexivity.
  - constructor.
  - simpl. constructor; [intros [] | constructor].
  - left. reflexivity.
  - reflexivity.
Defined.

(** X9. With the store enabled and no call failing, [ensureUser] returns
    a user, new or not, and calling it again for the same identifier
    without email and name returns the same user and leaves the store as
    it is: no second row is created. *)
Theorem ensureUser_idempotent (userId : jsstring)
        (email name : option jsstring) (w : World) :
  connected w = true -> smooth w ->
  exists r w1 w2,
    ensureUser userId email name w = (Ok (Some r), w1)
    /\ user_id r = userId
    /\ ensureUser userId None None w1 = (Ok (Some r), w2)
    /\ db w2 = db w1.
Proof.
  intros Hc Hs.
  set (p := fun r => eqb (user_id r) userId).
  assert (Hagain : forall (r : User) (others : list User) (w1 : World),
             connected w1 = true -> smooth w1 ->
             filter p (users (db w1)) = r :: others ->
             exists w2, ensureUser userId None None w1 = (Ok (Some r), w2)
                        /\ db w2 = db w1).
  { intros r others w1 Hc1 Hs1 Hf.
    unfold ensureUser, ifDb, tryCatch, bind, ret, newDate.
    rewrite Hc1.
    rewrite statement_runs by (apply smooth_next; exact Hs1).
    cbn [fst snd]. cbv beta iota. fold p. rewrite Hf. simpl.
    eexists. split; reflexivity. }
  unfold ensureUser at 1. unfold ifDb, tryCatch, bind, ret, newDate.
  rewrite Hc.
  rewrite statement_runs by (apply smooth_next; exact Hs).
  cbn [fst snd]. cbv beta iota.
  set (w1 := arrive (nextEvent w) (commit (db w) (consume w))).
  assert (Hc1 : connected w1 = true) by exact Hc.
  assert (Hs1 : smooth w1)
    by (apply smooth_arrive, smooth_commit, smooth_consume, Hs).
  fold p.
  destruct (filter p (users (db w))) as [|existing others] eqn:Ef;
    cbn [firstn]; cbv beta iota.
  - rewrite statement_runs by (apply smooth_next; exact Hs1).
    cbn [fst snd]. simpl hd_error.
    match goal with
    | |- exists r w1 w2, (Ok (Some ?r0), ?w') = _ /\ _ =>
        set (new := r0); set (w2 := w')
    end.
    destruct (Hagain new [] w2) as [w3 [Hrun Hdb]].
    + exact Hc.
    + apply smooth_arrive, smooth_commit, smooth_consume, Hs1.
    + unfold w2. simpl. change (db w1) with (db w).
      rewrite filter_app, Ef. simpl. unfold p at 1. simpl.
      rewrite eqb_refl. reflexivity.
    + exists new, w2, w3. split; [reflexivity|]. split; [reflexivity|].
      split; assumption.
  - assert (Hex : user_id existing = userId).
    { assert (Hf : In existing (filter p (users (db w))))
        by (rewrite Ef; left; reflexivity).
      apply filter_In in Hf. destruct Hf as [_ Hf]. apply eqb_eq. exact Hf. }
    destruct (truthyOpt email || truthyOpt name); cbv beta iota.
    + rewrite statement_runs by (apply smooth_next; exact Hs1).
      cbn [fst snd]. change (db w1) with (db w). fold p. rewrite Ef.
      simpl map. simpl hd_error.
      match goal with
      | |- exists r w1 w2, (Ok (Some ?r0), ?w') = _ /\ _ =>
          set (updated := r0); set (w2 := w')
      end.
      match goal with
      | _ := arrive _ (commit (set_users (updateWhere p ?f0) _) _) |- _ =>
          set (f := f0) in *
      end.
      destruct (Hagain updated (map f others) w2) as [w3 [Hrun Hdb]].
      * exact Hc.
      * apply smooth_arrive, smooth_commit, smooth_consume, Hs1.
      * unfold w2. simpl. change (db w1) with (db w).
        rewrite filter_updateWhere_same by (intros x; reflexivity).
        rewrite Ef. reflexivity.
      * exists updated, w2, w3. split; [reflexivity|].
        split; [exact Hex|]. split; assumption.
    + destruct (Hagain existing others w1 Hc1 Hs1) as [w3 [Hrun Hdb]].
      * change (db w1) with (db w). exact Ef.
      * exists existing, w1, w3. split; [reflexivity|].
        split; [exact Hex|]. split; assumption.
Qed.

Lemma ensureUser_idempotent_witness :
  let w := {| connected := true; apiKey := false;
              cosineDistance := fun _ _ => NaN;
              db := emptyDb; now := 5%N;
              script := []; nextId := 0%N; history := [];
              storeClock := fun t => t; reached := fun _ _ _ => true;
              requests := [] |} in
  exists r w1 w2,
    ensureUser (u "google_42") (Some (u "ann@example.org")) None w
    = (Ok (Some r), w1)
    /\ user_id r = u "google_42"
    /\ ensureUser (u "google_42") None None w1 = (Ok (Some r), w2)
    /\ db w2 = db w1.
Proof.
  intros w.
  apply (ensureUser_idempotent (u "google_42") (Some (u "ann@example.org"))
           None w).
  - reflexivity.
  - constructor.
Defined.

End UserFacts.

(* ===================================================================== *)
(** * Further properties: the chat sessions *)
(* ===================================================================== *)

Section SessionMore.

Lemma time_leb_total (a b : option Time) :
  time_leb a b = true \/ time_leb b a = true.
Proof.
  destruct a as [x|], b as [y|]; simpl; auto.
  rewrite !N.leb_le. lia.
Qed.

Lemma time_leb_trans (a b c : option Time) :
  time_leb a b = true -> time_leb b c = true -> time_leb a c = true.
Proof.
  destruct a as [x|], b as [y|], c as [z|]; simpl; try discriminate; auto.
  rewrite !N.leb_le. lia.
Qed.

Lemma rest_of_store_kept (d : Db) (f : list ChatSession -> list ChatSession) :
  set_chatSessions (fun _ => chatSessions d) (set_chatSessions f d) = d.
Proof. destruct d. reflexivity. Qed.

Lemma rest_of_store_same (d : Db) :
  set_chatSessions (fun _ => chatSessions d) d = d.
Proof. destruct d. reflexivity. Qed.

(** X10. In every world, [updateChatSessionTitle] returns without
    throwing and changes nothing but the title and the update time of the
    sessions with the given identifier and owner: every other session,
    every other column and every other table is as it was. When it
    returns true the sessions with that identifier and owner carry the
    new title; when it returns false the store is as it was. *)
Theorem updateChatSessionTitle_scope (userId chatSessionId title : jsstring)
        (w : World) :
  exists b w',
    updateChatSessionTitle userId chatSessionId title w = (Ok b, w')
    /\ set_chatSessions (fun _ => chatSessions (db w)) (db w') = db w
    /\ filter (fun s => negb (sessionIs chatSessionId userId s))
              (chatSessions (db w'))
       = filter (fun s => negb (sessionIs chatSessionId userId s))
                (chatSessions (db w))
    /\ map (fun s => (session_id s, session_userId s, session_createdAt s,
                      session_lastMessageAt s)) (chatSessions (db w'))
       = map (fun s => (session_id s, session_userId s, session_createdAt s,
                        session_lastMessageAt s)) (chatSessions (db w))
    /\ (b = true ->
        forall s, In s (chatSessions (db w')) ->
                  sessionIs chatSessionId userId s = true ->
                  session_title s = Some title)
    /\ (b = false -> db w' = db w).
Proof.
  unfold updateChatSessionTitle, ifDb, tryCatch, bind, ret, newDate.
  destruct (connected w).
  2:{ do 2 eexists. split; [reflexivity|].
      split; [apply rest_of_store_same|].
      split; [reflexivity|]. split; [reflexivity|].
      split; [discriminate | reflexivity]. }
  destruct (fails (nextEvent w)) eqn:E.
  - rewrite statement_throws by exact E.
    do 2 eexists. split; [reflexivity|].
    split; [apply rest_of_store_same|].
    split; [reflexivity|]. split; [reflexivity|].
    split; [discriminate | reflexivity].
  - rewrite statement_runs by exact E. cbn [fst snd].
    do 2 eexists. split; [reflexivity|].
    split; [apply rest_of_store_kept|].
    split.
    { simpl. apply filter_updateWhere_kept. intros x Hx.
      unfold sessionIs in *. simpl. rewrite Hx. split; reflexivity. }
    split.
    { simpl. apply map_updateWhere. reflexivity. }
    split; [|discriminate].
    intros _ s Hin Hs. simpl in Hin. apply In_updateWhere in Hin.
    destruct Hin as [s0 [Hin0 Heq]].
    destruct (sessionIs chatSessionId userId s0) eqn:E0.
    + rewrite Heq. reflexivity.
    + subst s. congruence.
Qed.

(** X11. In every world, [deleteChatSession] returns without throwing.
    When it returns true, the sessions left are the ones that do not have
    both the given identifier and the given owner, the messages left are
    the ones whose session was not deleted, and [getChatSession] no
    longer finds the session; when it returns false the store is as it
    was. *)
Theorem deleteChatSession_effect (userId chatSessionId : jsstring)
        (w : World) :
  exists b w',
    deleteChatSession userId chatSessionId w = (Ok b, w')
    /\ (b = false -> db w' = db w)
    /\ (b = true ->
        (forall s, In s (chatSessions (db w'))
                   <-> In s (chatSessions (db w))
                       /\ ~ (session_id s = chatSessionId
                             /\ session_userId s = userId))
        /\ (forall m, In m (chatMessages (db w'))
                      <-> In m (chatMessages (db w))
                          /\ ~ (msg_chatSessionId m = chatSessionId
                                /\ exists s, In s (chatSessions (db w))
                                             /\ session_id s = chatSessionId
                                             /\ session_userId s = userId))
        /\ fst (getChatSession userId chatSessionId w') = Ok None).
Proof.
  unfold deleteChatSession, ifDb, tryCatch, bind, ret.
  destruct (connected w) eqn:Hc.
  2:{ do 2 eexists. split; [reflexivity|].
      split; [reflexivity | discriminate]. }
  destruct (fails (nextEvent w)) eqn:E.
  { rewrite statement_throws by exact E.
    do 2 eexists. split; [reflexivity|].
    split; [reflexivity | discriminate]. }
  rewrite statement_runs by exact E. cbn [fst snd].
  do 2 eexists. split; [reflexivity|]. split; [discriminate|].
  intros _. split; [|split].
  - intros s. simpl. unfold deleteWhere. rewrite filter_In.
    rewrite negb_true_iff, <- not_true_iff_false, sessionIs_iff.
    reflexivity.
  - intros m. simpl. unfold deleteWhere. rewrite filter_In.
    rewrite negb_true_iff, <- not_true_iff_false, existsb_exists.
    split; intros [Hin Hnot]; (split; [exact Hin|]).
    + intros [Hm [s [Hs [Hid Hown]]]]. apply Hnot. exists s. split.
      * apply filter_In. split; [exact Hs|]. apply sessionIs_iff. auto.
      * apply eqb_eq. congruence.
    + intros [s [Hs Heq]]. apply filter_In in Hs. destruct Hs as [Hs Hp].
      apply sessionIs_iff in Hp. destruct Hp as [Hid Hown].
      apply eqb_eq in Heq. apply Hnot. split; [congruence|].
      exists s. auto.
  - unfold getChatSession, ifDb, tryCatch, bind, ret. simpl connected.
    rewrite Hc.
    match goal with
    | |- context [statement ?run ?w1] =>
        destruct (fails (nextEvent w1)) eqn:E1;
        [rewrite (statement_throws _ run w1 E1); reflexivity
        |rewrite (statement_runs _ run w1 E1)]
    end.
    cbn [fst snd]. simpl db. simpl chatSessions. unfold deleteWhere.
    rewrite filter_none; [reflexivity|].
    intros s Hs. apply filter_In in Hs. destruct Hs as [_ Hs].
    apply negb_true_iff. exact Hs.
Qed.

(** X12. With the store enabled, no call failing and a generated
    identifier that no session has yet: [createChatSession] returns a
    session of the user whose title is the given one, or none when it is
    absent or empty; [getChatSession] then returns this session to its
    owner, and nothing to any other user. *)
Theorem createChatSession_round_trip (userId : jsstring)
        (title : option jsstring) (w : World) :
  connected w = true -> smooth w ->
  (forall s, In s (chatSessions (db w)) ->
             session_id s <> generatedId (nextId w)) ->
  exists s w1 w2,
    createChatSession userId title w = (Ok (Some s), w1)
    /\ session_userId s = userId
    /\ session_title s = orNull title
    /\ getChatSession userId (session_id s) w1 = (Ok (Some s), w2)
    /\ forall other, other <> userId ->
                     fst (getChatSession other (session_id s) w1) = Ok None.
Proof.
  intros Hc Hs Hfresh.
  unfold createChatSession, ifDb, tryCatch, bind, ret.
  rewrite Hc.
  rewrite statement_runs by (apply smooth_next; exact Hs).
  cbn [fst snd].
  match goal with
  | |- exists s w1 w2, (Ok (Some ?s0), ?w') = _ /\ _ =>
      set (new := s0); set (w1 := w')
  end.
  assert (Hs1 : smooth w1)
    by (apply smooth_arrive, smooth_commit, smooth_consume, Hs).
  assert (Hold : forall who,
             filter (sessionIs (session_id new) who) (chatSessions (db w))
             = []).
  { intros who. apply filter_none. intros s Hin.
    apply not_true_iff_false. intros H. apply sessionIs_iff in H.
    destruct H as [H _]. exact (Hfresh s Hin H). }
  assert (Hget : forall who,
             getChatSession who (session_id new) w1
             = (Ok (if eqb userId who then Some new else None),
                arrive (nextEvent w1) (commit (db w1) (consume w1)))).
  { intros who. unfold getChatSession, ifDb, tryCatch, bind, ret.
    change (connected w1) with (connected w). rewrite Hc.
    rewrite statement_runs by (apply smooth_next; exact Hs1).
    cbn [fst snd]. unfold w1 at 1. simpl db. simpl chatSessions.
    rewrite filter_app, Hold. simpl.
    unfold sessionIs at 1. simpl. rewrite eqb_refl. simpl.
    destruct (eqb userId who); reflexivity. }
  exists new, w1. eexists. split; [reflexivity|].
  split; [reflexivity|]. split; [reflexivity|]. split.
  - rewrite Hget, eqb_refl. reflexivity.
  - intros other Hother. rewrite Hget.
    replace (eqb userId other) with false; [reflexivity|].
    symmetry. apply eqb_neq. congruence.
Qed.

Lemma createChatSession_round_trip_witness :
  let w := {| connected := true; apiKey := false;
              cosineDistance := fun _ _ => NaN;
              db := emptyDb; now := 5%N;
              script := []; nextId := 3%N; history := [];
              storeClock := fun t => t; reached := fun _ _ _ => true;
              requests := [] |} in
  exists s w1 w2,
    createChatSession (u "ann") (Some []) w = (Ok (Some s), w1)
    /\ session_userId s = u "ann"
    /\ session_title s = orNull (Some [])
    /\ getChatSession (u "ann") (session_id s) w1 = (Ok (Some s), w2)
    /\ forall other, other <> u "ann" ->
                     fst (getChatSession other (session_id s) w1) = Ok None.
Proof.
  intros w.
  apply (createChatSession_round_trip (u "ann") (Some []) w).
  - reflexivity.
  - constructor.
  - intros s [].
Defined.

(** X13. In every world, [getChatSessions] returns without throwing and
    leaves the store as it is; it returns at most [limit] sessions, all of
    them stored sessions of the given user, the one with the latest
    message first. *)
Theorem getChatSessions_listing (userId : jsstring) (limit : nat)
        (w : World) :
  exists l w',
    getChatSessions userId limit w = (Ok l, w')
    /\ db w' = db w
    /\ length l <= limit
    /\ (forall s, In s l ->
                  In s (chatSessions (db w)) /\ session_userId s = userId)
    /\ StronglySorted
         (fun a b => time_leb (session_lastMessageAt b)
                              (session_lastMessageAt a) = true) l.
Proof.
  unfold getChatSessions, ifDb, tryCatch, ret.
  destruct (connected w).
  2:{ do 2 eexists. split; [reflexivity|]. split; [reflexivity|].
      split; [simpl; lia|]. split; [intros s [] | constructor]. }
  destruct (fails (nextEvent w)) eqn:E.
  { rewrite statement_throws by exact E.
    do 2 eexists. split; [reflexivity|]. split; [reflexivity|].
    split; [simpl; lia|]. split; [intros s [] | constructor]. }
  rewrite statement_runs by exact E. cbn [fst snd].
  do 2 eexists. split; [reflexivity|]. split; [reflexivity|].
  unfold recentSessions. split; [apply firstn_le_length|]. split.
  - intros s Hin. apply In_firstn in Hin. apply -> orderBy_In in Hin.
    apply filter_In in Hin. destruct Hin as [Hin Hu].
    apply eqb_eq in Hu. auto.
  - apply StronglySorted_firstn.
    apply (orderBy_sorted _ lastMessage_geb).
    + intros a b. unfold lastMessage_geb. apply time_leb_total.
    + intros a b c. unfold lastMessage_geb. intros H1 H2.
      exact (time_leb_trans _ _ _ H2 H1).
Qed.

(** X14. In every world, [getChatMessages] returns without throwing and
    leaves the store as it is; it returns only stored messages of the
    given session and user, the oldest first. When the store is enabled
    and the statement does not throw, it returns every one of them. *)
Theorem getChatMessages_listing (userId chatSessionId : jsstring)
        (w : World) :
  exists l w',
    getChatMessages userId chatSessionId w = (Ok l, w')
    /\ db w' = db w
    /\ (forall m, In m l ->
                  In m (chatMessages (db w))
                  /\ msg_chatSessionId m = chatSessionId
                  /\ msg_userId m = userId)
    /\ StronglySorted
         (fun a b => time_leb (msg_timestamp a) (msg_timestamp b) = true) l
    /\ (connected w = true -> fails (nextEvent w) = false ->
        forall m, In m (chatMessages (db w)) ->
                  msg_chatSessionId m = chatSessionId ->
                  msg_userId m = userId -> In m l).
Proof.
  unfold getChatMessages, ifDb, tryCatch, ret.
  destruct (connected w).
  2:{ do 2 eexists. split; [reflexivity|]. split; [reflexivity|].
      split; [intros s []|]. split; [constructor | discriminate]. }
  destruct (fails (nextEvent w)) eqn:E.
  { rewrite statement_throws by exact E.
    do 2 eexists. split; [reflexivity|]. split; [reflexivity|].
    split; [intros s []|]. split; [constructor | discriminate]. }
  rewrite statement_runs by exact E. cbn [fst snd].
  do 2 eexists. split; [reflexivity|]. split; [reflexivity|].
  unfold sessionMessages. split; [|split].
  - intros m Hin. apply -> orderBy_In in Hin.
    apply filter_In in Hin. destruct Hin as [Hin Hm].
    unfold messageIs in Hm. apply andb_true_iff in Hm.
    rewrite !eqb_eq in Hm. tauto.
  - apply (orderBy_sorted _
             (fun a b => time_leb (msg_timestamp a) (msg_timestamp b))).
    + intros a b. apply time_leb_total.
    + intros a b c. apply time_leb_trans.
  - intros _ _ m Hin Hc Hu. apply <- orderBy_In. apply filter_In.
    split; [exact Hin|]. unfold messageIs. apply andb_true_iff.
    rewrite !eqb_eq. auto.
Qed.

End SessionMore.

(* ===================================================================== *)
(** * Further properties: the chat messages and the handlers *)
(* ===================================================================== *)

Section MessageMore.

(** X15. With the store enabled, when the insert of [saveChatMessage]
    succeeds and the update of the session throws, [saveChatMessage]
    returns null although the message is stored: the caller is told of a
    failure, the message stays in the table and the sessions are as they
    were. *)
Theorem saveChatMessage_keeps_message_on_failure
        (userId chatSessionId role content messageIndex : jsstring)
        (metadata : Metadata) (w : World) (first second : Event)
        (rest : list Event) :
  connected w = true ->
  script w = first :: second :: rest ->
  fails first = false -> fails second = true ->
  exists m w',
    saveChatMessage userId chatSessionId role content messageIndex metadata w
    = (Ok None, w')
    /\ chatMessages (db w') = chatMessages (db w) ++ [m]
    /\ msg_chatSessionId m = chatSessionId
    /\ msg_userId m = userId
    /\ msg_content m = content
    /\ chatSessions (db w') = chatSessions (db w).
Proof.
  intros Hc Hscript H1 H2.
  unfold saveChatMessage, ifDb, tryCatch, bind, ret, newDate,
    insertChatMessage, touchChatSession.
  rewrite Hc.
  assert (He1 : nextEvent w = first)
    by (unfold nextEvent; rewrite Hscript; reflexivity).
  rewrite statement_runs by (rewrite He1; exact H1).
  cbn [fst snd]. cbv beta iota.
  match goal with
  | |- context [statement ?run ?w1] =>
      assert (He2 : fails (nextEvent w1) = true)
        by (unfold nextEvent; simpl; rewrite Hscript; exact H2);
      rewrite (statement_throws _ run w1 He2)
  end.
  do 2 eexists. split; [reflexivity|]. simpl.
  split; [reflexivity|]. repeat split; reflexivity.
Qed.

Lemma saveChatMessage_keeps_message_on_failure_witness :
  let w := {| connected := true; apiKey := false;
              cosineDistance := fun _ _ => NaN;
              db := emptyDb; now := 5%N;
              script := [ quiet;
                          {| outbound := 1; inbound := 1; fails := true;
                             vector := [] |} ];
              nextId := 0%N; history := [];
              storeClock := fun t => t; reached := fun _ _ _ => true;
              requests := [] |} in
  exists m w',
    saveChatMessage (u "ann") (u "s1") (u "user") (u "hello") (u "0")
                    MetaUndefined w
    = (Ok None, w')
    /\ chatMessages (db w') = chatMessages (db w) ++ [m]
    /\ msg_chatSessionId m = u "s1"
    /\ msg_userId m = u "ann"
    /\ msg_content m = u "hello"
    /\ chatSessions (db w') = chatSessions (db w).
Proof.
  intros w.
  apply (saveChatMessage_keeps_message_on_failure (u "ann") (u "s1")
           (u "user") (u "hello") (u "0") MetaUndefined w quiet
           {| outbound := 1; inbound := 1; fails := true; vector := [] |} []);
    reflexivity.
Defined.

Lemma In_updateWhere_other (A : Type) (p : A -> bool) (f : A -> A)
      (l : list A) (x : A) :
  (forall y, p (f y) = p y) -> p x = false ->
  In x (updateWhere p f l) <-> In x l.
Proof.
  intros Hf Hx. split.
  - intros H. apply In_updateWhere in H. destruct H as [x0 [Hin Heq]].
    destruct (p x0) eqn:E; [|subst; exact Hin].
    subst x. rewrite Hf in Hx. congruence.
  - intros H. unfold updateWhere. apply in_map_iff. exists x.
    rewrite Hx. auto.
Qed.

(** A session that does not have both the given identifier and the given
    owner is out of reach of [updateChatSessionTitle] and of
    [deleteChatSession]. *)
Lemma updateChatSessionTitle_others (userId chatSessionId title : jsstring)
      (w : World) :
  exists b w',
    updateChatSessionTitle userId chatSessionId title w = (Ok b, w')
    /\ chatMessages (db w') = chatMessages (db w)
    /\ forall s, sessionIs chatSessionId userId s = false ->
                 (In s (chatSessions (db w')) <-> In s (chatSessions (db w))).
Proof.
  unfold updateChatSessionTitle, ifDb, tryCatch, bind, ret, newDate.
  destruct (connected w);
    [|do 2 eexists; split; [reflexivity | split; reflexivity]].
  destruct (fails (nextEvent w)) eqn:E.
  - rewrite statement_throws by exact E.
    do 2 eexists; split; [reflexivity | split; reflexivity].
  - rewrite statement_runs by exact E. cbn [fst snd].
    do 2 eexists. split; [reflexivity|]. split; [reflexivity|].
    intros s Hs. simpl. apply In_updateWhere_other; [|exact Hs].
    intros y. reflexivity.
Qed.

Lemma deleteChatSession_others (userId chatSessionId : jsstring) (w : World) :
  exists b w',
    deleteChatSession userId chatSessionId w = (Ok b, w')
    /\ forall s, sessionIs chatSessionId userId s = false ->
                 (In s (chatSessions (db w')) <-> In s (chatSessions (db w))).
Proof.
  unfold deleteChatSession, ifDb, tryCatch, bind, ret.
  destruct (connected w);
    [|do 2 eexists; split; [reflexivity | reflexivity]].
  destruct (fails (nextEvent w)) eqn:E.
  - rewrite statement_throws by exact E.
    do 2 eexists; split; reflexivity.
  - rewrite statement_runs by exact E. cbn [fst snd].
    do 2 eexists. split; [reflexivity|].
    intros s Hs. simpl. unfold deleteWhere. rewrite filter_In, Hs.
    simpl. tauto.
Qed.

Lemma generateChatTitle_outcome (userId chatSessionId : jsstring) (w : World) :
  exists r w',
    generateChatTitle userId chatSessionId w = (Ok r, w')
    /\ chatMessages (db w') = chatMessages (db w).
Proof.
  unfold generateChatTitle, ifDb, tryCatch, bind, ret.
  destruct (connected w); [|do 2 eexists; split; reflexivity].
  destruct (fails (nextEvent w)) eqn:E.
  { rewrite statement_throws by exact E. do 2 eexists; split; reflexivity. }
  rewrite statement_runs by exact E. cbn [fst snd].
  destruct (earliestMessages chatSessionId userId 3 (db w)) as [|m ms];
    [do 2 eexists; split; reflexivity|].
  destruct (find _ (m :: ms)) as [firstUserMessage|];
    [|do 2 eexists; split; reflexivity].
  match goal with
  | |- context [updateChatSessionTitle ?a ?b ?c ?w1] =>
      destruct (updateChatSessionTitle_others a b c w1)
        as [ok [w2 [Hrun [Hm _]]]];
      rewrite Hrun
  end.
  do 2 eexists. split; [reflexivity|]. rewrite Hm. reflexivity.
Qed.

Lemma getChatSession_finds_none (userId chatSessionId : jsstring) (w : World) :
  (forall s, In s (chatSessions (db w)) ->
             ~ (session_id s = chatSessionId /\ session_userId s = userId)) ->
  exists w', getChatSession userId chatSessionId w = (Ok None, w')
             /\ db w' = db w.
Proof.
  intros Hnone.
  destruct (getChatSession_outcome userId chatSessionId w)
    as [found [w' [Hrun [Hdb Hfound]]]].
  destruct found as [s|].
  - exfalso. destruct (Hfound s eq_refl) as [Hin [Hid Hown]].
    exact (Hnone s Hin (conj Hid Hown)).
  - exists w'. auto.
Qed.

(** X16. In every world, the POST handler of a chat answers without
    throwing, and it guards the session: when it answers with a saved
    message, the store held a session with the identifier of the request
    that belongs to the user of the request, and the message is stored
    under that session and that user; when the store holds no such
    session, it answers with an error and leaves the store as it was. *)
Theorem messagesAction_guards_session (req : Routes.MessageRequest)
        (w : World) :
  exists resp w',
    Routes.messagesAction req w = (Ok resp, w')
    /\ (forall m, resp = Routes.MessageSaved m ->
          exists s, In s (chatSessions (db w))
                    /\ Routes.params_id req = Some (session_id s)
                    /\ Routes.body_userId req = Some (session_userId s)
                    /\ In m (chatMessages (db w'))
                    /\ msg_chatSessionId m = session_id s
                    /\ msg_userId m = session_userId s)
    /\ ((forall s, In s (chatSessions (db w)) ->
                   ~ (Routes.params_id req = Some (session_id s)
                      /\ Routes.body_userId req = Some (session_userId s))) ->
        (exists status error, resp = Routes.MessageError status error)
        /\ db w' = db w).
Proof.
  set (Post := fun (resp : Routes.MessageResponse) (w' : World) =>
         (forall m, resp = Routes.MessageSaved m ->
            exists s, In s (chatSessions (db w))
                      /\ Routes.params_id req = Some (session_id s)
                      /\ Routes.body_userId req = Some (session_userId s)
                      /\ In m (chatMessages (db w'))
                      /\ msg_chatSessionId m = session_id s
                      /\ msg_userId m = session_userId s)
         /\ ((forall s, In s (chatSessions (db w)) ->
                ~ (Routes.params_id req = Some (session_id s)
                   /\ Routes.body_userId req = Some (session_userId s))) ->
             (exists status error, resp = Routes.MessageError status error)
             /\ db w' = db w)).
  change (exists resp w',
            Routes.messagesAction req w = (Ok resp, w') /\ Post resp w').
  assert (Herr : forall (status : nat) (error : jsstring) (w0 : World),
             db w0 = db w ->
             exists resp w',
               (Ok (Routes.MessageError status error), w0) = (Ok resp, w')
               /\ Post resp w').
  { intros status error w0 Hdb. do 2 eexists. split; [reflexivity|].
    split; [intros m H; discriminate|].
    intros _. split; [do 2 eexists; reflexivity | exact Hdb]. }
  unfold Routes.messagesAction, tryCatch, ifDb, bind, ret.
  destruct (Routes.params_id req) as [cid|] eqn:Ecid;
    [|apply Herr; reflexivity].
  destruct (truthy cid); cbn [negb]; [|apply Herr; reflexivity].
  destruct (connected w); [|apply Herr; reflexivity].
  destruct (Routes.body_userId req) as [uid|] eqn:Euid;
    [|apply Herr; reflexivity].
  destruct (Routes.body_role req) as [role|];
    [|destruct (truthy uid); cbn [negb]; apply Herr; reflexivity].
  destruct (Routes.body_content req) as [content|];
    [|destruct (truthy uid); cbn [negb]; apply Herr; reflexivity].
  destruct (Routes.body_messageIndex req) as [messageIndex|];
    [|destruct (truthy uid); cbn [negb]; apply Herr; reflexivity].
  destruct (truthy uid); cbn [negb]; [|apply Herr; reflexivity].
  destruct (negb (truthy role) || negb (truthy content)
            || negb (truthy messageIndex));
    [apply Herr; reflexivity|].
  destruct (getChatSession_outcome uid cid w)
    as [found [w1 [Hget [Hdb1 Hfound]]]].
  rewrite Hget.
  destruct found as [chatSession|]; [|apply Herr; exact Hdb1].
  destruct (Hfound chatSession eq_refl) as [Hin [Hid Hown]].
  assert (Howned : ~ (forall s, In s (chatSessions (db w)) ->
                        ~ (Some cid = Some (session_id s)
                           /\ Some uid = Some (session_userId s)))).
  { intros Hnone. apply (Hnone chatSession Hin).
    rewrite Hid, Hown. split; reflexivity. }
  destruct (saveChatMessage_outcome uid cid role content messageIndex
              (Routes.body_metadata req) w1) as [saved [w2 [Hsave _]]].
  rewrite Hsave.
  destruct saved as [m|].
  - apply saveChatMessage_success in Hsave. cbv zeta in Hsave.
    destruct Hsave as [_ [_ [_ [Hm Hw2]]]].
    assert (Hstored : In m (chatMessages (db w2))).
    { rewrite Hw2, Hm. simpl. apply in_or_app. right. left. reflexivity. }
    assert (Hdone : forall w3, chatMessages (db w3) = chatMessages (db w2) ->
              exists resp w',
                (Ok (Routes.MessageSaved m), w3) = (Ok resp, w')
                /\ Post resp w').
    { intros w3 Hw3. do 2 eexists. split; [reflexivity|]. split.
      - intros m0 H0. injection H0 as <-. exists chatSession.
        split; [exact Hin|].
        split; [rewrite Hid; reflexivity|].
        split; [rewrite Hown; reflexivity|].
        split; [rewrite Hw3; exact Hstored|].
        rewrite Hm. simpl. split; congruence.
      - intros Hnone. exfalso. exact (Howned Hnone). }
    destruct (eqb role (u "user")
              && negb (truthyOpt (session_title chatSession))).
    + destruct (generateChatTitle_outcome uid cid w2)
        as [t [w3 [Hgen Hkeep]]].
      rewrite Hgen. apply Hdone. exact Hkeep.
    + apply Hdone. reflexivity.
  - do 2 eexists. split; [reflexivity|].
    split; [intros m0 H0; discriminate|].
    intros Hnone. exfalso. exact (Howned Hnone).
Qed.

End MessageMore.

(* ===================================================================== *)
(** * Further properties: the handlers of the chat routes *)
(* ===================================================================== *)

Section HandlerFacts.

Lemma getChatMessages_outcome (userId chatSessionId : jsstring) (w : World) :
  exists l w',
    getChatMessages userId chatSessionId w = (Ok l, w')
    /\ db w' = db w
    /\ forall m, In m l ->
                 In m (chatMessages (db w))
                 /\ msg_chatSessionId m = chatSessionId
                 /\ msg_userId m = userId.
Proof.
  unfold getChatMessages, ifDb, tryCatch, ret.
  destruct (connected w).
  2:{ do 2 eexists. split; [reflexivity|]. split; [reflexivity|].
      intros s []. }
  destruct (fails (nextEvent w)) eqn:E.
  { rewrite statement_throws by exact E.
    do 2 eexists. split; [reflexivity|]. split; [reflexivity|].
    intros s []. }
  rewrite statement_runs by exact E. cbn [fst snd].
  do 2 eexists. split; [reflexivity|]. split; [reflexivity|].
  unfold sessionMessages. intros m Hin. apply -> orderBy_In in Hin.
  apply filter_In in Hin. destruct Hin as [Hin Hm].
  unfold messageIs in Hm. apply andb_true_iff in Hm.
  rewrite !eqb_eq in Hm. tauto.
Qed.

Lemma getChatSessions_outcome (userId : jsstring) (limit : nat) (w : World) :
  exists l w',
    getChatSessions userId limit w = (Ok l, w')
    /\ db w' = db w
    /\ length l <= limit
    /\ forall s, In s l ->
                 In s (chatSessions (db w)) /\ session_userId s = userId.
Proof.
  unfold getChatSessions, ifDb, tryCatch, ret.
  destruct (connected w).
  2:{ do 2 eexists. split; [reflexivity|]. split; [reflexivity|].
      split; [simpl; lia | intros s []]. }
  destruct (fails (nextEvent w)) eqn:E.
  { rewrite statement_throws by exact E.
    do 2 eexists. split; [reflexivity|]. split; [reflexivity|].
    split; [simpl; lia | intros s []]. }
  rewrite statement_runs by exact E. cbn [fst snd].
  do 2 eexists. split; [reflexivity|]. split; [reflexivity|].
  unfold recentSessions. split; [apply firstn_le_length|].
  intros s Hin. apply In_firstn in Hin. apply -> orderBy_In in Hin.
  apply filter_In in Hin. destruct Hin as [Hin Hu].
  apply eqb_eq in Hu. auto.
Qed.

(** X17. In every world, the GET handler of a chat answers without
    throwing and leaves the store as it is. When it answers with a chat,
    the session is a stored session with the identifier of the request
    that belongs to the user of the request, and every message sent is a
    stored message of that session and that user. *)
Theorem chatLoader_serves_owner (req : ChatRoutes.ChatQuery) (w : World) :
  exists resp w',
    ChatRoutes.chatLoader req w = (Ok resp, w')
    /\ db w' = db w
    /\ forall view messages,
         resp = ChatRoutes.ChatLoaded view messages ->
         exists s,
           In s (chatSessions (db w))
           /\ ChatRoutes.query_id req = Some (session_id s)
           /\ ChatRoutes.query_userId req = Some (session_userId s)
           /\ view = ChatRoutes.sessionView s
           /\ forall v, In v messages ->
                exists m, In m (chatMessages (db w))
                          /\ v = ChatRoutes.messageView m
                          /\ msg_chatSessionId m = session_id s
                          /\ msg_userId m = session_userId s.
Proof.
  unfold ChatRoutes.chatLoader, tryCatch, ifDb, bind, ret.
  destruct (ChatRoutes.query_id req) as [cid|].
  2:{ do 2 eexists. split; [reflexivity|]. split; [reflexivity|].
      intros ? ? H; discriminate. }
  destruct (truthy cid); cbn [negb].
  2:{ do 2 eexists. split; [reflexivity|]. split; [reflexivity|].
      intros ? ? H; discriminate. }
  destruct (connected w).
  2:{ do 2 eexists. split; [reflexivity|]. split; [reflexivity|].
      intros ? ? H; discriminate. }
  destruct (ChatRoutes.query_userId req) as [uid|].
  2:{ do 2 eexists. split; [reflexivity|]. split; [reflexivity|].
      intros ? ? H; discriminate. }
  destruct (truthy uid); cbn [negb].
  2:{ do 2 eexists. split; [reflexivity|]. split; [reflexivity|].
      intros ? ? H; discriminate. }
  destruct (getChatSession_outcome uid cid w)
    as [found [w1 [Hget [Hdb1 Hfound]]]].
  rewrite Hget.
  destruct found as [chatSession|].
  2:{ do 2 eexists. split; [reflexivity|]. split; [exact Hdb1|].
      intros ? ? H; discriminate. }
  destruct (Hfound chatSession eq_refl) as [Hin [Hid Hown]].
  destruct (getChatMessages_outcome uid cid w1)
    as [l [w2 [Hmsgs [Hdb2 Hl]]]].
  rewrite Hmsgs.
  do 2 eexists. split; [reflexivity|].
  split; [rewrite Hdb2; exact Hdb1|].
  intros view messages H. injection H as <- <-.
  exists chatSession. split; [exact Hin|].
  split; [rewrite Hid; reflexivity|]. split; [rewrite Hown; reflexivity|].
  split; [reflexivity|].
  intros v Hv. apply in_map_iff in Hv. destruct Hv as [m [<- Hm]].
  destruct (Hl m Hm) as [Hm1 [Hm2 Hm3]]. exists m.
  rewrite Hdb1 in Hm1. split; [exact Hm1|]. split; [reflexivity|].
  split; congruence.
Qed.

(** X18. In every world, the GET handler of the messages of a chat
    answers without throwing and leaves the store as it is. When it
    answers with messages, the store holds a session with the identifier
    of the request that belongs to the user of the request, and every
    message sent is a stored message of that session and that user. *)
Theorem messagesLoader_serves_owner (req : ChatRoutes.ChatQuery)
        (w : World) :
  exists resp w',
    ChatRoutes.messagesLoader req w = (Ok resp, w')
    /\ db w' = db w
    /\ forall messages,
         resp = ChatRoutes.MessagesLoaded messages ->
         exists s,
           In s (chatSessions (db w))
           /\ ChatRoutes.query_id req = Some (session_id s)
           /\ ChatRoutes.query_userId req = Some (session_userId s)
           /\ forall v, In v messages ->
                exists m, In m (chatMessages (db w))
                          /\ v = ChatRoutes.messageView m
                          /\ msg_chatSessionId m = session_id s
                          /\ msg_userId m = session_userId s.
Proof.
  unfold ChatRoutes.messagesLoader, tryCatch, ifDb, bind, ret.
  destruct (ChatRoutes.query_id req) as [cid|].
  2:{ do 2 eexists. split; [reflexivity|]. split; [reflexivity|].
      intros ? H; discriminate. }
  destruct (truthy cid); cbn [negb].
  2:{ do 2 eexists. split; [reflexivity|]. split; [reflexivity|].
      intros ? H; discriminate. }
  destruct (connected w).
  2:{ do 2 eexists. split; [reflexivity|]. split; [reflexivity|].
      intros ? H; discriminate. }
  destruct (ChatRoutes.query_userId req) as [uid|].
  2:{ do 2 eexists. split; [reflexivity|]. split; [reflexivity|].
      intros ? H; discriminate. }
  destruct (truthy uid); cbn [negb].
  2:{ do 2 eexists. split; [reflexivity|]. split; [reflexivity|].
      intros ? H; discriminate. }
  destruct (getChatSession_outcome uid cid w)
    as [found [w1 [Hget [Hdb1 Hfound]]]].
  rewrite Hget.
  destruct found as [chatSession|].
  2:{ do 2 eexists. split; [reflexivity|]. split; [exact Hdb1|].
      intros ? H; discriminate. }
  destruct (Hfound chatSession eq_refl) as [Hin [Hid Hown]].
  destruct (getChatMessages_outcome uid cid w1)
    as [l [w2 [Hmsgs [Hdb2 Hl]]]].
  rewrite Hmsgs.
  do 2 eexists. split; [reflexivity|].
  split; [rewrite Hdb2; exact Hdb1|].
  intros messages H. injection H as <-.
  exists chatSession. split; [exact Hin|].
  split; [rewrite Hid; reflexivity|]. split; [rewrite Hown; reflexivity|].
  intros v Hv. apply in_map_iff in Hv. destruct Hv as [m [<- Hm]].
  destruct (Hl m Hm) as [Hm1 [Hm2 Hm3]]. exists m.
  rewrite Hdb1 in Hm1. split; [exact Hm1|]. split; [reflexivity|].
  split; congruence.
Qed.

(** X19. In every world, the GET handler of the list of chats answers
    without throwing and leaves the store as it is; when it answers with
    a list, the list has at most 50 sessions, each a stored session of
    the user of the request. *)
Theorem chatsLoader_serves_owner (userId : option jsstring) (w : World) :
  exists resp w',
    ChatRoutes.chatsLoader userId w = (Ok resp, w')
    /\ db w' = db w
    /\ forall views,
         resp = ChatRoutes.ListLoaded views ->
         length views <= 50
         /\ forall v, In v views ->
              exists s, In s (chatSessions (db w))
                        /\ v = ChatRoutes.sessionView s
                        /\ userId = Some (session_userId s).
Proof.
  unfold ChatRoutes.chatsLoader, tryCatch, ifDb, bind, ret.
  destruct (connected w).
  2:{ do 2 eexists. split; [reflexivity|]. split; [reflexivity|].
      intros ? H; discriminate. }
  destruct userId as [uid|].
  2:{ do 2 eexists. split; [reflexivity|]. split; [reflexivity|].
      intros ? H; discriminate. }
  destruct (truthy uid); cbn [negb].
  2:{ do 2 eexists. split; [reflexivity|]. split; [reflexivity|].
      intros ? H; discriminate. }
  destruct (getChatSessions_outcome uid 50 w)
    as [l [w1 [Hrun [Hdb1 [Hlen Hl]]]]].
  rewrite Hrun.
  do 2 eexists. split; [reflexivity|]. split; [exact Hdb1|].
  intros views H. injection H as <-.
  split; [rewrite length_map; exact Hlen|].
  intros v Hv. apply in_map_iff in Hv. destruct Hv as [s [<- Hs]].
  destruct (Hl s Hs) as [Hin Hown]. exists s.
  split; [exact Hin|]. split; [reflexivity|]. rewrite Hown. reflexivity.
Qed.

(** X20. In every world, the PUT handler of a chat answers without
    throwing, and whatever the request asks for, a session that does not
    have both the identifier and the user of the request is left in the
    store as it was, and the messages are left as they were unless the
    request is a deletion. *)
Theorem chatAction_scope (req : ChatRoutes.ChatUpdate) (w : World) :
  exists resp w',
    ChatRoutes.chatAction req w = (Ok resp, w')
    /\ (forall s,
          ~ (ChatRoutes.update_id req = Some (session_id s)
             /\ ChatRoutes.update_userId req = Some (session_userId s)) ->
          (In s (chatSessions (db w')) <-> In s (chatSessions (db w))))
    /\ (Routes.actionIs (ChatRoutes.update_action req) (u "delete") = false ->
        chatMessages (db w') = chatMessages (db w)).
Proof.
  unfold ChatRoutes.chatAction, tryCatch, ifDb, bind, ret.
  destruct (ChatRoutes.update_id req) as [cid|].
  2:{ do 2 eexists. split; [reflexivity|]. split; reflexivity. }
  destruct (truthy cid); cbn [negb].
  2:{ do 2 eexists. split; [reflexivity|]. split; reflexivity. }
  destruct (connected w).
  2:{ do 2 eexists. split; [reflexivity|]. split; reflexivity. }
  destruct (ChatRoutes.update_userId req) as [uid|].
  2:{ do 2 eexists. split; [reflexivity|]. split; reflexivity. }
  destruct (truthy uid); cbn [negb].
  2:{ do 2 eexists. split; [reflexivity|]. split; reflexivity. }
  assert (Hother : forall s,
             ~ (Some cid = Some (session_id s)
                /\ Some uid = Some (session_userId s)) ->
             sessionIs cid uid s = false).
  { intros s Hs. apply not_true_iff_false. intros H.
    apply sessionIs_iff in H. destruct H as [<- <-]. apply Hs.
    split; reflexivity. }
  destruct (Routes.actionIs (ChatRoutes.update_action req) (u "delete")).
  - destruct (deleteChatSession_others uid cid w) as [b [w1 [Hrun Hkeep]]].
    rewrite Hrun.
    destruct b; cbn [negb]; do 2 eexists;
      (split; [reflexivity|]);
      (split; [intros s Hs; apply Hkeep, Hother, Hs | discriminate]).
  - destruct (ChatRoutes.update_title req) as [title|].
    2:{ do 2 eexists. split; [reflexivity|]. split; reflexivity. }
    destruct (Routes.actionIs (ChatRoutes.update_action req) (u "updateTitle")
              && truthy title).
    2:{ do 2 eexists. split; [reflexivity|]. split; reflexivity. }
    destruct (updateChatSessionTitle_others uid cid title w)
      as [b [w1 [Hrun [Hmsgs Hkeep]]]].
    rewrite Hrun.
    destruct b; cbn [negb]; do 2 eexists;
      (split; [reflexivity|]);
      (split; [intros s Hs; apply Hkeep, Hother, Hs | intros _; exact Hmsgs]).
Qed.

Lemma ensureUser_rest (userId : jsstring) (email name : option jsstring)
      (w : World) :
  exists r w',
    ensureUser userId email name w = (Ok r, w')
    /\ connected w' = connected w
    /\ set_users (fun _ => users (db w)) (db w') = db w.
Proof.
  assert (Hsame : forall d : Db, set_users (fun _ => users d) d = d)
    by (intros d; destruct d; reflexivity).
  assert (Hset : forall (d : Db) f,
             set_users (fun _ => users d) (set_users f d) = d)
    by (intros d f; destruct d; reflexivity).
  unfold ensureUser, ifDb, tryCatch, bind, ret, newDate.
  destruct (connected w) eqn:Hc;
    [|do 2 eexists; split; [reflexivity | split; [exact Hc | apply Hsame]]].
  destruct (fails (nextEvent w)) eqn:E1.
  { rewrite statement_throws by exact E1.
    do 2 eexists; split; [reflexivity | split; [exact Hc | apply Hsame]]. }
  rewrite statement_runs by exact E1. cbn [fst snd]. cbv beta iota.
  set (w1 := arrive (nextEvent w) (commit (db w) (consume w))).
  destruct (filter (fun r => eqb (user_id r) userId) (users (db w)))
    as [|existing others] eqn:Ef; cbn [firstn]; cbv beta iota.
  - destruct (fails (nextEvent w1)) eqn:E2.
    + rewrite statement_throws by exact E2.
      do 2 eexists; split; [reflexivity | split; [exact Hc | apply Hsame]].
    + rewrite statement_runs by exact E2. cbn [fst snd].
      do 2 eexists; split; [reflexivity | split; [exact Hc | apply Hset]].
  - destruct (truthyOpt email || truthyOpt name); cbv beta iota.
    + destruct (fails (nextEvent w1)) eqn:E2.
      * rewrite statement_throws by exact E2.
        do 2 eexists; split; [reflexivity | split; [exact Hc | apply Hsame]].
      * rewrite statement_runs by exact E2. cbn [fst snd].
        do 2 eexists; split; [reflexivity | split; [exact Hc | apply Hset]].
    + do 2 eexists; split; [reflexivity | split; [exact Hc | apply Hsame]].
Qed.

(** X21. In every world, the POST handler of the list of chats answers
    without throwing and keeps the sessions there were: either it answers
    with an error and the sessions are as they were, or it answers with a
    new session of the user of the request, whose title is the title of
    the request, or none when that is absent or empty, and this session
    is the one added to the store. *)
Theorem chatsAction_only_adds (userId title : option jsstring) (w : World) :
  exists resp w',
    ChatRoutes.chatsAction userId title w = (Ok resp, w')
    /\ (((exists status error, resp = ChatRoutes.CreateError status error)
         /\ chatSessions (db w') = chatSessions (db w))
        \/ exists s,
             resp = ChatRoutes.Created (ChatRoutes.sessionView s)
             /\ userId = Some (session_userId s)
             /\ session_title s = orNull title
             /\ chatSessions (db w') = chatSessions (db w) ++ [s]).
Proof.
  unfold ChatRoutes.chatsAction, tryCatch, ifDb, bind, ret.
  destruct (connected w) eqn:Hc.
  2:{ do 2 eexists. split; [reflexivity|]. left.
      split; [do 2 eexists; reflexivity | reflexivity]. }
  destruct userId as [uid|].
  2:{ do 2 eexists. split; [reflexivity|]. left.
      split; [do 2 eexists; reflexivity | reflexivity]. }
  destruct (truthy uid); cbn [negb].
  2:{ do 2 eexists. split; [reflexivity|]. left.
      split; [do 2 eexists; reflexivity | reflexivity]. }
  destruct (ensureUser_rest uid None None w) as [r [w1 [Hrun [Hc1 Hrest]]]].
  rewrite Hrun.
  assert (Hsessions : chatSessions (db w1) = chatSessions (db w))
    by (rewrite <- Hrest; reflexivity).
  unfold createChatSession, ifDb, tryCatch, bind, ret.
  rewrite Hc1, Hc.
  destruct (fails (nextEvent w1)) eqn:E.
  - rewrite statement_throws by exact E.
    do 2 eexists. split; [reflexivity|]. left.
    split; [do 2 eexists; reflexivity | exact Hsessions].
  - rewrite statement_runs by exact E. cbn [fst snd].
    do 2 eexists. split; [reflexivity|]. right.
    eexists. split; [reflexivity|]. split; [reflexivity|].
    split; [reflexivity|]. simpl. rewrite Hsessions. reflexivity.
Qed.

End HandlerFacts.

(* ===================================================================== *)
(** * Further properties: the handler of the persistent memory *)
(* ===================================================================== *)

Section MemoryHandlerFacts.

Lemma filter_deleteWhere_other (A : Type) (p q : A -> bool) (l : list A) :
  (forall x, q x = true -> p x = false) ->
  filter q (deleteWhere p l) = filter q l.
Proof.
  intros H. unfold deleteWhere. induction l as [|x l IH]; simpl;
    [reflexivity|].
  destruct (q x) eqn:Eq.
  - rewrite (H x Eq). simpl. rewrite Eq, IH. reflexivity.
  - destruct (p x); simpl; [exact IH | rewrite Eq; exact IH].
Qed.

Lemma ownedBy_other (userId other : jsstring) (r : UserPersistentMemory) :
  other <> userId -> ownedBy other r = true -> ownedBy userId r = false.
Proof.
  unfold ownedBy. intros Hne H. apply eqb_eq in H. apply eqb_neq.
  congruence.
Qed.

(** In every world, [setPersistentMemory] returns without throwing and
    leaves the rows of every other user as they were. *)
Lemma setPersistentMemory_others (userId content : jsstring) (w : World) :
  exists w',
    setPersistentMemory userId content w = (Ok tt, w')
    /\ connected w' = connected w
    /\ forall other, other <> userId ->
         filter (ownedBy other) (userPersistentMemory (db w'))
         = filter (ownedBy other) (userPersistentMemory (db w)).
Proof.
  unfold setPersistentMemory, ifDb, tryCatch, bind, ret.
  destruct (connected w) eqn:Hc;
    [|eexists; split; [reflexivity | split; [exact Hc | reflexivity]]].
  destruct (fails (nextEvent w)) eqn:E1.
  { rewrite statement_throws by exact E1.
    eexists; split; [reflexivity | split; [exact Hc | reflexivity]]. }
  rewrite statement_runs by exact E1. cbn [fst snd].
  match goal with
  | |- context [statement ?run ?w1] =>
      destruct (fails (nextEvent w1)) eqn:E2;
      [rewrite (statement_throws _ run w1 E2)
      |rewrite (statement_runs _ run w1 E2)]
  end.
  - eexists. split; [reflexivity|]. split; [exact Hc|].
    intros other Hne. simpl.
    apply (filter_deleteWhere_other _ (ownedBy userId) (ownedBy other)).
    intros x. apply ownedBy_other. exact Hne.
  - cbn [fst snd]. eexists. split; [reflexivity|]. split; [exact Hc|].
    intros other Hne. simpl. rewrite filter_app. simpl.
    replace (ownedBy other _) with false.
    + rewrite app_nil_r.
      apply (filter_deleteWhere_other _ (ownedBy userId) (ownedBy other)).
      intros x. apply ownedBy_other. exact Hne.
    + symmetry. unfold ownedBy. simpl. apply eqb_neq. congruence.
Qed.

Lemma getPersistentMemory_reads (userId : jsstring) (w : World) :
  exists persistentMemory w',
    getPersistentMemory userId w = (Ok persistentMemory, w')
    /\ connected w' = connected w /\ db w' = db w.
Proof.
  unfold getPersistentMemory, ifDb, tryCatch, bind, ret.
  destruct (connected w) eqn:Hc; [|do 2 eexists; split; [reflexivity | auto]].
  destruct (fails (nextEvent w)) eqn:E.
  - rewrite statement_throws by exact E.
    do 2 eexists; split; [reflexivity | auto].
  - rewrite statement_runs by exact E.
    do 2 eexists; split; [reflexivity | auto].
Qed.

(** X22. In every world, the handler of the persistent memory answers
    without throwing, and whatever the request asks for, the rows of the
    persistent memory of every user other than the user of the request
    are left as they were; a request that is not a [set] or an [append]
    with a content leaves the whole table as it was. *)
Theorem persistentMemoryAction_scope (req : Routes.MemoryRequest)
        (w : World) :
  exists resp w',
    Routes.persistentMemoryAction req w = (Ok resp, w')
    /\ (forall other, Routes.userId req <> Some other ->
          filter (ownedBy other) (userPersistentMemory (db w'))
          = filter (ownedBy other) (userPersistentMemory (db w)))
    /\ ((Routes.actionIs (Routes.action req) (u "set") = false
         /\ Routes.actionIs (Routes.action req) (u "append") = false)
        \/ Routes.content req = None ->
        userPersistentMemory (db w') = userPersistentMemory (db w)).
Proof.
  set (Post := fun (w' : World) =>
         (forall other, Routes.userId req <> Some other ->
            filter (ownedBy other) (userPersistentMemory (db w'))
            = filter (ownedBy other) (userPersistentMemory (db w)))
         /\ ((Routes.actionIs (Routes.action req) (u "set") = false
              /\ Routes.actionIs (Routes.action req) (u "append") = false)
             \/ Routes.content req = None ->
             userPersistentMemory (db w') = userPersistentMemory (db w))).
  change (exists resp w',
            Routes.persistentMemoryAction req w = (Ok resp, w') /\ Post w').
  assert (Hkept : forall (resp : Routes.MemoryResponse) (w0 : World),
             userPersistentMemory (db w0) = userPersistentMemory (db w) ->
             exists resp' w', (Ok resp, w0) = (Ok resp', w') /\ Post w').
  { intros resp w0 Hdb. do 2 eexists. split; [reflexivity|].
    split; [intros other _; rewrite Hdb; reflexivity | intros _; exact Hdb]. }
  unfold Routes.persistentMemoryAction, tryCatch, ifDb, bind, ret.
  destruct (Routes.userId req) as [uid|] eqn:Euid;
    [|apply Hkept; reflexivity].
  destruct (truthy uid); cbn [negb]; [|apply Hkept; reflexivity].
  destruct (connected w) eqn:Hc; [|apply Hkept; reflexivity].
  destruct (ensureUser_rest uid (Routes.userInfo_email req)
              (Routes.userInfo_name req) w) as [r [w1 [Hrun [Hc1 Hrest]]]].
  rewrite Hrun.
  assert (Hpm1 : userPersistentMemory (db w1) = userPersistentMemory (db w))
    by (rewrite <- Hrest; reflexivity).
  destruct (Routes.actionIs (Routes.action req) (u "get")).
  { destruct (getPersistentMemory_reads uid w1) as [pm [w2 [Hget [_ Hdb2]]]].
    rewrite Hget. apply Hkept. rewrite Hdb2. exact Hpm1. }
  destruct (Routes.actionIs (Routes.action req) (u "set")) eqn:Eset.
  { destruct (Routes.content req) as [c|] eqn:Ec; [|apply Hkept; exact Hpm1].
    destruct (setPersistentMemory_others uid c w1) as [w2 [Hrun2 [_ Hkeep]]].
    rewrite Hrun2. do 2 eexists. split; [reflexivity|]. split.
    - intros other Hne. rewrite Hkeep by congruence. rewrite Hpm1.
      reflexivity.
    - intros [[H1 H2] | H]; discriminate. }
  destruct (Routes.actionIs (Routes.action req) (u "append")) eqn:Eapp.
  { destruct (Routes.content req) as [c|] eqn:Ec; [|apply Hkept; exact Hpm1].
    destruct (getPersistentMemory_reads uid w1) as [pm [w2 [Hget [_ Hdb2]]]].
    rewrite Hget.
    match goal with
    | |- context [setPersistentMemory uid ?c0 w2] =>
        destruct (setPersistentMemory_others uid c0 w2)
          as [w3 [Hrun3 [_ Hkeep]]];
        rewrite Hrun3
    end.
    do 2 eexists. split; [reflexivity|]. split.
    - intros other Hne. rewrite Hkeep by congruence. rewrite Hdb2, Hpm1.
      reflexivity.
    - intros [[H1 H2] | H]; discriminate. }
  apply Hkept. exact Hpm1.
Qed.

End MemoryHandlerFacts.

(* ===================================================================== *)
(** * Further properties: the connection *)
(* ===================================================================== *)

Section ConnectionFacts.

(** X23. Once [getDatabase] has opened a connection, every later call
    returns this same connection, whatever environment it is given, and
    without asking the driver. A first call opens a connection only with
    a URL that is configured, the one of [env] before the one of the
    process. *)
Theorem getDatabase_sticky (accepts : jsstring -> bool)
        (envUrl processUrl : option jsstring)
        (cache cache' : Connection.Cache) (connection : jsstring) :
  Connection.getDatabase accepts envUrl processUrl cache
  = (Some connection, cache') ->
  (forall accepts' envUrl' processUrl',
      Connection.getDatabase accepts' envUrl' processUrl' cache'
      = (Some connection, cache'))
  /\ (cache = None ->
      Connection.isDatabaseEnabled envUrl processUrl = true
      /\ Connection.orElse envUrl processUrl = Some connection).
Proof.
  unfold Connection.getDatabase, Connection.isDatabaseEnabled.
  destruct cache as [c|].
  - intros H. injection H as <- <-. split; [reflexivity | discriminate].
  - destruct (truthyOpt (Connection.orElse envUrl processUrl)) eqn:Et;
      cbn [negb]; [|discriminate].
    destruct (Connection.orElse envUrl processUrl) as [url|];
      [|discriminate].
    destruct (accepts url); [|discriminate].
    intros H. injection H as <- <-. split; [reflexivity|].
    intros _. split; reflexivity.
Qed.

Lemma getDatabase_sticky_witness :
  (forall accepts' envUrl' processUrl',
      Connection.getDatabase accepts' envUrl' processUrl'
                             (Some (u "postgres://a"))
      = (Some (u "postgres://a"), Some (u "postgres://a")))
  /\ (@None jsstring = None ->
      Connection.isDatabaseEnabled (Some []) (Some (u "postgres://a")) = true
      /\ Connection.orElse (Some []) (Some (u "postgres://a"))
         = Some (u "postgres://a")).
Proof.
  apply (getDatabase_sticky (fun _ => true) (Some [])
           (Some (u "postgres://a")) None (Some (u "postgres://a"))
           (u "postgres://a")).
  reflexivity.
Defined.

End ConnectionFacts.

(* ===================================================================== *)
(** * Further properties: trimming, titles and the plan parser *)
(* ===================================================================== *)

Section TrimFacts.

Import PlanParser.

Lemma trimStart_split (s : jsstring) :
  exists ws, s = ws ++ trimStart s.
Proof.
  induction s as [|c s [ws IH]]; simpl.
  - exists []. reflexivity.
  - destruct (isWhiteSpace c).
    + exists (c :: ws). simpl. rewrite <- IH. reflexivity.
    + exists []. reflexivity.
Qed.

Lemma trimEnd_split (s : jsstring) :
  exists ws, s = trimEnd s ++ ws.
Proof.
  unfold trimEnd. destruct (trimStart_split (rev s)) as [ws H].
  exists (rev ws). rewrite <- rev_app_distr, <- H, rev_involutive.
  reflexivity.
Qed.

Lemma trim_split (s : jsstring) :
  exists before after, s = before ++ trim s ++ after.
Proof.
  unfold trim. destruct (trimStart_split s) as [before H1].
  destruct (trimEnd_split (trimStart s)) as [after H2].
  exists before, after. rewrite <- H2. exact H1.
Qed.

Lemma length_trim (s : jsstring) : length (trim s) <= length s.
Proof.
  destruct (trim_split s) as [before [after H]].
  rewrite H at 2. rewrite !length_app. lia.
Qed.

Lemma In_trim (s : jsstring) (c : char) : In c (trim s) -> In c s.
Proof.
  destruct (trim_split s) as [before [after H]]. intros Hc.
  rewrite H. apply in_or_app. right. apply in_or_app. left. exact Hc.
Qed.

Lemma trimStart_headOk (s : jsstring) : headOk (trimStart s).
Proof.
  induction s as [|c s IH]; simpl; [exact I|].
  destruct (isWhiteSpace c) eqn:E; [exact IH | exact E].
Qed.

Lemma trimStart_fixed (s : jsstring) : headOk s -> trimStart s = s.
Proof.
  destruct s as [|c s]; simpl; [reflexivity|]. intros H. rewrite H.
  reflexivity.
Qed.

Lemma trimEnd_headOk (s : jsstring) : headOk s -> headOk (trimEnd s).
Proof.
  intros H. destruct (trimEnd_split s) as [ws Hs].
  destruct (trimEnd s) as [|c t]; [exact I|].
  rewrite Hs in H. exact H.
Qed.

Lemma trim_trim (s : jsstring) : trim (trim s) = trim s.
Proof.
  unfold trim.
  rewrite (trimStart_fixed (trimEnd (trimStart s)))
    by (apply trimEnd_headOk, trimStart_headOk).
  unfold trimEnd at 1. unfold trimEnd at 1. rewrite rev_involutive.
  rewrite (trimStart_fixed (trimStart (rev (trimStart s))))
    by apply trimStart_headOk.
  reflexivity.
Qed.

Lemma takeDot_line (s : jsstring) (c : char) :
  In c (takeDot s) -> isLineTerminator c = false.
Proof.
  induction s as [|x s IH]; simpl; [intros []|].
  destruct (isLineTerminator x) eqn:E; [intros []|].
  intros [<- | H]; [exact E | exact (IH H)].
Qed.


Lemma spaceThenDot_Some (k : nat) (r g : jsstring) :
  spaceThenDot k r = Some g -> exists j, g = takeDot (skipn j r).
Proof.
  induction k as [|k IH]; cbn [spaceThenDot].
  - destruct (takeDot (skipn 0 r)) as [|c t] eqn:E; [discriminate|].
    intros H. injection H as <-. exists 0. symmetry. exact E.
  - destruct (takeDot (skipn (S k) r)) as [|c t] eqn:E; [exact IH|].
    intros H. injection H as <-. exists (S k). symmetry. exact E.
Qed.

End TrimFacts.

Section TitleBound.

Lemma deriveTitle_length (content : jsstring) :
  length (deriveTitle content) <= 53.
Proof.
  rewrite deriveTitle_eq, length_app.
  pose proof (firstn_le_length 50 (trim content)) as H.
  destruct (Nat.ltb 50 (length content)).
  - change (length (u "...")) with 3.
    apply (Nat.le_trans _ (50 + 3)); [apply Nat.add_le_mono_r; exact H | lia].
  - simpl. rewrite Nat.add_0_r.
    apply (Nat.le_trans _ 50); [exact H | lia].
Qed.

Lemma deriveTitle_short (content : jsstring) :
  length content <= 50 -> deriveTitle content = trim content.
Proof.
  intros H. rewrite deriveTitle_eq.
  replace (Nat.ltb 50 (length content)) with false
    by (symmetry; apply Nat.ltb_ge; exact H).
  rewrite app_nil_r. apply firstn_all2.
  pose proof (length_trim content). lia.
Qed.

(** X24. In every world, [generateChatTitle] returns without throwing,
    and a title it returns has at most 53 code units and is derived from
    the content of a stored user message of the given session and user;
    when this content has at most 50 code units the title is the content
    with its surrounding white space trimmed. *)
Theorem generateChatTitle_bounded (userId chatSessionId : jsstring)
        (w : World) :
  exists r w',
    generateChatTitle userId chatSessionId w = (Ok r, w')
    /\ forall t, r = Some t ->
         length t <= 53
         /\ exists m,
              In m (chatMessages (db w))
              /\ msg_chatSessionId m = chatSessionId
              /\ msg_userId m = userId
              /\ msg_role m = u "user"
              /\ t = deriveTitle (msg_content m)
              /\ (length (msg_content m) <= 50 -> t = trim (msg_content m)).
Proof.
  unfold generateChatTitle, ifDb, tryCatch, bind, ret.
  destruct (connected w);
    [|do 2 eexists; split; [reflexivity | intros t H; discriminate]].
  destruct (fails (nextEvent w)) eqn:E.
  { rewrite statement_throws by exact E.
    do 2 eexists; split; [reflexivity | intros t H; discriminate]. }
  rewrite statement_runs by exact E. cbn [fst snd].
  destruct (earliestMessages chatSessionId userId 3 (db w)) as [|m0 ms] eqn:Em;
    [do 2 eexists; split; [reflexivity | intros t H; discriminate]|].
  destruct (find (fun m => eqb (msg_role m) (u "user")) (m0 :: ms))
    as [m|] eqn:Ef;
    [|do 2 eexists; split; [reflexivity | intros t H; discriminate]].
  match goal with
  | |- context [updateChatSessionTitle ?a ?b ?c ?w1] =>
      destruct (updateChatSessionTitle_others a b c w1)
        as [ok [w2 [Hrun _]]];
      rewrite Hrun
  end.
  do 2 eexists. split; [reflexivity|].
  intros t H. injection H as <-.
  split; [apply deriveTitle_length|].
  apply find_some in Ef. destruct Ef as [Hin Hrole].
  rewrite <- Em in Hin. unfold earliestMessages in Hin.
  apply In_firstn in Hin. apply -> orderBy_In in Hin.
  apply filter_In in Hin. destruct Hin as [Hin Hm].
  unfold messageIs in Hm. apply andb_true_iff in Hm.
  rewrite !eqb_eq in Hm. destruct Hm as [Hm1 Hm2].
  apply eqb_eq in Hrole.
  exists m. split; [exact Hin|]. split; [exact Hm1|]. split; [exact Hm2|].
  split; [exact Hrole|]. split; [reflexivity|]. apply deriveTitle_short.
Qed.

(** X25. With the store enabled, when the query of [generateChatTitle]
    finds a user message among the three earliest messages of the session
    and the update of the title throws, [generateChatTitle] still returns
    the title: the caller gets the title although the update did not
    take place, and the store is as it was. *)
Theorem generateChatTitle_returns_unsaved_title
        (userId chatSessionId : jsstring) (w : World) (first second : Event)
        (rest : list Event) (m : ChatMessage) :
  connected w = true ->
  script w = first :: second :: rest ->
  fails first = false -> fails second = true ->
  find isUserMessage (earliestMessages chatSessionId userId 3 (db w))
  = Some m ->
  exists w',
    generateChatTitle userId chatSessionId w
    = (Ok (Some (deriveTitle (msg_content m))), w')
    /\ db w' = db w.
Proof.
  intros Hc Hscript H1 H2 Hfind.
  unfold generateChatTitle, ifDb, tryCatch, bind, ret.
  rewrite Hc.
  assert (He1 : nextEvent w = first)
    by (unfold nextEvent; rewrite Hscript; reflexivity).
  rewrite statement_runs by (rewrite He1; exact H1).
  cbn [fst snd]. unfold isUserMessage in Hfind.
  destruct (earliestMessages chatSessionId userId 3 (db w)) as [|m0 ms];
    [discriminate|].
  rewrite Hfind.
  unfold updateChatSessionTitle, ifDb, tryCatch, bind, ret, newDate.
  cbn [connected arrive commit consume]. rewrite Hc.
  match goal with
  | |- context [statement ?run ?w1] =>
      assert (He2 : fails (nextEvent w1) = true)
        by (unfold nextEvent; simpl; rewrite Hscript; exact H2);
      rewrite (statement_throws _ run w1 He2)
  end.
  eexists. split; reflexivity.
Qed.

Lemma generateChatTitle_returns_unsaved_title_witness :
  let message :=
    {| msg_id := 0%N; msg_chatSessionId := u "s1"; msg_userId := u "alice";
       msg_role := u "user"; msg_content := u "hello";
       msg_messageIndex := u "0"; msg_timestamp := Some 20%N;
       msg_metadata := MetaUndefined |} in
  let w :=
    {| connected := true; apiKey := false;
       cosineDistance := fun _ _ => NaN;
       db := set_chatMessages (fun _ => [message]) emptyDb;
       now := 30%N;
       script := [ quiet;
                   {| outbound := 0; inbound := 0; fails := true;
                      vector := [] |} ];
       nextId := 1%N; history := [];
       storeClock := fun t => t; reached := fun _ _ _ => true;
       requests := [] |} in
  exists w',
    generateChatTitle (u "alice") (u "s1") w
    = (Ok (Some (deriveTitle (msg_content message))), w')
    /\ db w' = db w.
Proof.
  intros message w.
  apply (generateChatTitle_returns_unsaved_title (u "alice") (u "s1") w
           quiet
           {| outbound := 0; inbound := 0; fails := true; vector := [] |}
           [] message); reflexivity.
Defined.

End TitleBound.

Section PlanMore.

Import PlanParser.

Lemma indexOf_startsWith (needle s : jsstring) (k : nat) :
  indexOf needle s = Some k -> startsWith needle (skipn k s) = true.
Proof.
  revert k. induction s as [|c s IH]; intros k; simpl indexOf.
  - destruct (startsWith needle []) eqn:E; [|discriminate].
    intros H. injection H as <-. exact E.
  - destruct (startsWith needle (c :: s)) eqn:E.
    + intros H. injection H as <-. exact E.
    + destruct (indexOf needle s) as [j|]; [|discriminate].
      simpl. intros H. injection H as <-. simpl. apply IH. reflexivity.
Qed.

(** X26. A plan that [parseStructuredPlan] returns keeps, as its raw
    content, the text from the first marker to the end: what comes before
    the first marker is dropped. Its title is trimmed and holds no line
    terminator. *)
Theorem parseStructuredPlan_raw_content (text : jsstring)
        (plan : StructuredPlan) :
  parseStructuredPlan text = Some plan ->
  (exists before,
      text = before ++ rawContent plan
      /\ indexOf marker text = Some (length before)
      /\ startsWith marker (rawContent plan) = true)
  /\ trim (title plan) = title plan
  /\ forall c, In c (title plan) -> isLineTerminator c = false.
Proof.
  unfold parseStructuredPlan, isStructuredPlan, includes.
  destruct (indexOf marker text) as [k|] eqn:Ek; simpl negb; cbv iota;
    [|discriminate].
  intros H. injection H as <-. simpl.
  split.
  - destruct (indexOf_Some _ _ _ Ek) as [post [Hsplit Hk]].
    exists (firstn k text). unfold substringFrom.
    split; [symmetry; apply firstn_skipn|].
    split; [rewrite length_firstn, Nat.min_l by exact Hk; reflexivity|].
    exact (indexOf_startsWith _ _ _ Ek).
  - destruct (regexSearch titleHere (substringFrom text k)) as [[i g]|] eqn:Er.
    + split; [apply trim_trim|].
      intros c Hc. apply In_trim in Hc.
      apply regexSearch_Some in Er. unfold titleHere in Er.
      destruct (startsWith titlePrefix _); [|discriminate].
      destruct (takeDot _) as [|x t] eqn:Et; [discriminate|].
      injection Er as <-. rewrite <- Et in Hc.
      exact (takeDot_line _ _ Hc).
    + split; [vm_compute; reflexivity|].
      intros c Hc. vm_compute in Hc.
      repeat (destruct Hc as [<- | Hc]; [reflexivity|]). contradiction.
Qed.

Lemma parseStructuredPlan_raw_content_witness :
  let text := u "Here it is. " ++ marker ++ nl :: u "# Project Plan:  Shop " in
  exists plan,
    parseStructuredPlan text = Some plan
    /\ (exists before,
           text = before ++ rawContent plan
           /\ indexOf marker text = Some (length before)
           /\ startsWith marker (rawContent plan) = true)
    /\ trim (title plan) = title plan
    /\ forall c, In c (title plan) -> isLineTerminator c = false.
Proof.
  intros text. eexists. split; [vm_compute; reflexivity|].
  apply (parseStructuredPlan_raw_content text). vm_compute. reflexivity.
Defined.

(** X27. Parsing the raw content of a plan again gives the same plan:
    everything a plan holds is read from its raw content. *)
Theorem parseStructuredPlan_idempotent (text : jsstring)
        (plan : StructuredPlan) :
  parseStructuredPlan text = Some plan ->
  parseStructuredPlan (rawContent plan) = Some plan.
Proof.
  unfold parseStructuredPlan at 1. unfold isStructuredPlan, includes.
  destruct (indexOf marker text) as [k|] eqn:Ek; simpl negb; cbv iota;
    [|discriminate].
  intros H. injection H as <-. cbn [rawContent].
  unfold parseStructuredPlan, isStructuredPlan, includes, substringFrom.
  rewrite (indexOf_here _ _ (indexOf_startsWith _ _ _ Ek)).
  simpl negb. cbv iota.
  change (skipn 0 (skipn k text)) with (skipn k text).
  reflexivity.
Qed.

Lemma parseStructuredPlan_idempotent_witness :
  let text := u "Here it is. " ++ marker ++ nl :: u "# Project Plan:  Shop " in
  exists plan,
    parseStructuredPlan text = Some plan
    /\ parseStructuredPlan (rawContent plan) = Some plan.
Proof.
  intros text. eexists. split; [vm_compute; reflexivity|].
  apply (parseStructuredPlan_idempotent text). vm_compute. reflexivity.
Defined.

End PlanMore.

Section ExtractorFacts.

Import PlanParser.

Lemma pieceOf_refl (s : jsstring) : pieceOf s s.
Proof. exists [], []. rewrite app_nil_r. reflexivity. Qed.

Lemma pieceOf_trans (a b c : jsstring) :
  pieceOf a b -> pieceOf b c -> pieceOf a c.
Proof.
  intros [p1 [s1 H1]] [p2 [s2 H2]]. exists (p2 ++ p1), (s1 ++ s2).
  rewrite H2, H1. rewrite <- !app_assoc. reflexivity.
Qed.

Lemma pieceOf_skipn (n : nat) (s : jsstring) : pieceOf (skipn n s) s.
Proof.
  exists (firstn n s), []. rewrite app_nil_r. symmetry. apply firstn_skipn.
Qed.

Lemma pieceOf_firstn (n : nat) (s : jsstring) : pieceOf (firstn n s) s.
Proof. exists [], (skipn n s). symmetry. apply firstn_skipn. Qed.

Lemma pieceOf_substring (s : jsstring) (a b : nat) :
  pieceOf (substring s a b) s.
Proof.
  unfold substring. cbv zeta.
  eapply pieceOf_trans; [apply pieceOf_firstn | apply pieceOf_skipn].
Qed.

Lemma pieceOf_trim (s : jsstring) : pieceOf (trim s) s.
Proof. exact (trim_split s). Qed.

Lemma pieceOf_takeDot (s : jsstring) : pieceOf (takeDot s) s.
Proof.
  exists []. simpl. induction s as [|c s [after IH]]; simpl.
  - exists []. reflexivity.
  - destruct (isLineTerminator c).
    + exists (c :: s). reflexivity.
    + exists after. simpl. f_equal. exact IH.
Qed.




Lemma singleLine_piece (a b : jsstring) :
  pieceOf a b -> singleLine b -> singleLine a.
Proof.
  intros [before [after H]] Hb c Hc. apply Hb. rewrite H.
  apply in_or_app. right. apply in_or_app. left. exact Hc.
Qed.

Lemma bulletPointHere_Some (key s g : jsstring) :
  bulletPointHere key s = Some g -> exists j, g = takeDot (skipn j s).
Proof.
  unfold bulletPointHere. cbv zeta.
  destruct (startsWithCI _ s); [|discriminate].
  set (n := length (u "- **" ++ key ++ u "**")).
  assert (Hwithout : forall k,
             spaceThenDot k (skipn n s) = Some g ->
             exists j, g = takeDot (skipn j s)).
  { intros k H. apply spaceThenDot_Some in H. destruct H as [j H].
    exists (j + n). rewrite <- skipn_skipn. exact H. }
  destruct (skipn n s) as [|c r'] eqn:Er; [apply Hwithout|].
  destruct (char_eqb c 58%N); [|apply Hwithout].
  destruct (spaceThenDot (length (takeSpace r')) r') as [g'|] eqn:Eg;
    [|apply Hwithout].
  intros H. injection H as <-. apply spaceThenDot_Some in Eg.
  destruct Eg as [j Hj]. exists (j + 1 + n).
  rewrite <- !skipn_skipn. rewrite Er. simpl skipn at 2. exact Hj.
Qed.

(** X28. A text that [extractSubsectionText] returns is not empty, is a
    piece of the content it was given, and has no white space left around
    it. *)
Theorem extractSubsectionText_trimmed (content subsection text : jsstring) :
  extractSubsectionText content subsection = Some text ->
  text <> [] /\ trimmedPieceOf text content.
Proof.
  unfold extractSubsectionText.
  destruct (indexOf (u "### " ++ subsection) content) as [k|];
    [|discriminate].
  cbv zeta.
  destruct (trim (substring content (k + length subsection)
                            (endIndex content (k + length subsection)
                                      subsectionBreak))) as [|c t] eqn:E;
    [discriminate|].
  simpl truthy. cbv iota. intros H. injection H as <-.
  split; [discriminate|]. rewrite <- E. split.
  - eapply pieceOf_trans; [apply pieceOf_trim | apply pieceOf_substring].
  - apply trim_trim.
Qed.

Lemma extractSubsectionText_trimmed_witness :
  u "tend" ++ nl :: u "  React" <> []
  /\ trimmedPieceOf (u "tend" ++ nl :: u "  React")
       (u "### Frontend" ++ nl :: u "  React  " ++ nl :: u "### Backend").
Proof.
  apply (extractSubsectionText_trimmed
           (u "### Frontend" ++ nl :: u "  React  " ++ nl :: u "### Backend")
           (u "Frontend") (u "tend" ++ nl :: u "  React")).
  vm_compute. reflexivity.
Defined.



(** X30. A value that [extractBulletPoint] returns is on one line, is a
    piece of the content, and has no white space left around it. *)
Theorem extractBulletPoint_single_line (content key value : jsstring) :
  extractBulletPoint content key = Some value ->
  singleLine value /\ trimmedPieceOf value content.
Proof.
  unfold extractBulletPoint.
  destruct (regexSearch (bulletPointHere key) content) as [[i g]|] eqn:E;
    [|discriminate].
  intros H. injection H as <-.
  apply regexSearch_Some in E. apply bulletPointHere_Some in E.
  destruct E as [j ->].
  split.
  - apply (singleLine_piece _ (takeDot (skipn j (skipn i content)))).
    + apply pieceOf_trim.
    + intros c Hc. exact (takeDot_line _ _ Hc).
  - split; [|apply trim_trim].
    eapply pieceOf_trans; [apply pieceOf_trim|].
    eapply pieceOf_trans; [apply pieceOf_takeDot|].
    eapply pieceOf_trans; apply pieceOf_skipn.
Qed.

Lemma extractBulletPoint_single_line_witness :
  singleLine (u "a shop")
  /\ trimmedPieceOf (u "a shop")
       (u "- **vision**:  a shop " ++ nl :: u "- **Target Users**: all").
Proof.
  apply (extractBulletPoint_single_line
           (u "- **vision**:  a shop " ++ nl :: u "- **Target Users**: all")
           (u "Vision") (u "a shop")).
  vm_compute. reflexivity.
Defined.

End ExtractorFacts.
